(** * Turn-taking and interruption coordinator of immersive-evi

    A shallow embedding of
      - [src/components/ImmersiveEVI.tsx]: the React component that consumes
        the Hume message stream and drives mute / pause / interrupt actions;
      - the [judge-speech] route handler (second half of
        [src/app/api/send-assistant-input/route.ts]).

    The component is event driven.  Its handlers are embedded as state
    transformers over an explicit [State] holding the React state variables,
    the [useRef] cells, the pending timers, the outstanding [fetch] calls and
    the trace of calls made on the voice transport.  Time is a virtual
    millisecond clock; [setTimeout] callbacks run exactly when due. *)

From Stdlib Require Import List String Ascii ZArith QArith Bool Lia Sorted.
Import ListNotations.

Local Open Scope string_scope.
Local Open Scope Z_scope.

(** ** JavaScript string primitives used by the sources

    Strings are sequences of characters with a code below 256, one UTF-16
    code unit each; [toLowerCase] maps the ASCII capitals, and [\s] is the
    white space among these characters. *)
Module JS.

Definition lowerChar (c : ascii) : ascii :=
  let n := nat_of_ascii c in
  if (Nat.leb 65 n && Nat.leb n 90)%bool then ascii_of_nat (n + 32) else c.

Fixpoint toLowerCase (s : string) : string :=
  match s with
  | EmptyString => EmptyString
  | String c r => String (lowerChar c) (toLowerCase r)
  end.

(** [s.startsWith(p)] *)
Definition startsWith (s p : string) : bool := String.prefix p s.

(** [s.includes(kw)] *)
Fixpoint includes (s kw : string) : bool :=
  String.prefix kw s ||
  match s with
  | EmptyString => false
  | String _ r => includes r kw
  end.

(** The character class [\s], which is also what [trim] removes, on
    characters with a code below 256: tab, line feed, vertical tab, form
    feed, carriage return (9 to 13), space (32) and no-break space (160). *)
Definition isSpace (c : ascii) : bool :=
  let n := nat_of_ascii c in
  (Nat.leb 9 n && Nat.leb n 13)%bool || Nat.eqb n 32 || Nat.eqb n 160.

(** [s.split(/\s+/)]: [cur] is the piece being read, [inSep] tells that the
    previous character belonged to a separator. *)
Fixpoint splitWs (s : string) (cur : string) (inSep : bool) : list string :=
  match s with
  | EmptyString => [cur]
  | String c r =>
      if isSpace c
      then if inSep then splitWs r cur true else cur :: splitWs r EmptyString true
      else splitWs r (cur ++ String c EmptyString) false
  end.

Definition split_spaces (s : string) : list string := splitWs s EmptyString false.

(** Truthiness of a string: [Boolean(s)]. *)
Definition truthy (s : string) : bool :=
  match s with EmptyString => false | _ => true end.

(** Truthiness of a [string | null] value. *)
Definition truthyOpt (o : option string) : bool :=
  match o with Some s => truthy s | None => false end.

(** [speech.split(/\s+/).filter(Boolean).length] *)
Definition wordCount (speech : string) : nat :=
  List.length (filter truthy (split_spaces speech)).

End JS.


(** ** The component [ImmersiveEVI] *)
Module Client.
Import JS.

(** *** Constants (lines 17-25) *)
Definition PAUSE_KEYWORDS : list string :=
  ["hold on"; "wait"; "one second"; "let me think"; "give me a moment"; "pause"].
Definition QUICK_KEYWORDS : list string :=
  ["quick"; "brief"; "short"; "hurry"; "rush"; "fast"].
Definition DETAILED_KEYWORDS : list string :=
  ["detail"; "explain"; "more time"; "elaborate"; "in depth"; "how does that work";
   "what do you mean"].

Definition JUDGE_DEBOUNCE_MS : Z := 400.
Definition MIN_WORDS_FOR_JUDGE : nat := 8.
(** [1.5] seconds *)
Definition MIN_SPEAKING_TIME_S : Q := 3 # 2.

(** Context strings sent with [sendSessionSettings] (lines 323 and 337). *)
Definition QUICK_CONTEXT : string :=
  "Keep responses very brief and concise. Answer in 1 brief sentence only.".
Definition DETAILED_CONTEXT : string :=
  "Detailed mode: Answer in two sentences and include a quick example.".

(** *** Data *)
Inductive Role : Type := user | assistant.
Inductive Mode : Type := normal | quick | detailed.

Definition Role_eqb (a b : Role) : bool :=
  match a, b with user, user | assistant, assistant => true | _, _ => false end.

Definition Mode_eqb (a b : Mode) : bool :=
  match a, b with
  | normal, normal | quick, quick | detailed, detailed => true
  | _, _ => false
  end.

Record Emotion : Type := { name : string; score : Q }.

(** [interface Message]; an optional field that is absent is [None]. *)
Record Message : Type := {
  role : Role;
  content : string;
  emotions : option (list Emotion);
  timestamp : Z;
  hidden : option bool;
  isInterrupt : option bool
}.

(** An entry of [conversationHistoryRef]. *)
Record HistoryEntry : Type := { h_role : Role; h_content : string }.

(** The last element of [messages], by its [type].  [text] is
    [message?.content || ""], [prosody] is the value of [extractEmotions] on
    the message, [interim] is [interim === true]; a [chat_metadata] without
    [chatId] carries the empty string. *)
Inductive HumeMessage : Type :=
| chat_metadata (chatId : string)
| user_interruption
| user_message (text : string) (prosody : list Emotion) (interim : bool)
| assistant_message (text : string)
| other_message.

(** Calls made on the voice transport and on the network, in the order they
    are made; [LogCooldownEnded] is the log line of the last timer of an
    interruption (line 200). *)
Inductive Action : Type :=
| Mute
| Unmute
| MuteAudio
| UnmuteAudio
| PauseAssistant
| ResumeAssistant
| SendSessionSettings (context : string)
| FetchJudge (id : nat) (speech : string) (history : list HistoryEntry) (speakingTime : Q)
| AbortJudge (id : nat)
| FetchAssistantInput (id : nat) (chatId : option string) (text : string)
| LogCooldownEnded.

(** Callbacks handed to [setTimeout]. *)
Inductive Task : Type :=
| T_interruptSettled (message : string)  (* line 156: rest of triggerInterrupt *)
| T_resumeAssistant                      (* line 185 *)
| T_unmuteUser                           (* line 191 *)
| T_cooldownEnd                          (* line 198 *)
| T_micUnmute                            (* line 355 *)
| T_unmuteAudio.                         (* line 224 *)

Record Timer : Type := { tid : nat; due : Z; task : Task }.

(** The values one render closes over: the dependencies of the effects and
    the [mode] read by [detectKeywords]. *)
Record Render : Type := {
  r_messages : nat;
  r_isPaused : bool;
  r_isMuted : bool;
  r_isInterrupting : bool;
  r_mode : Mode
}.

Definition Render_eqb (a b : Render) : bool :=
  Nat.eqb (r_messages a) (r_messages b) && Bool.eqb (r_isPaused a) (r_isPaused b) &&
  Bool.eqb (r_isMuted a) (r_isMuted b) && Bool.eqb (r_isInterrupting a) (r_isInterrupting b) &&
  Mode_eqb (r_mode a) (r_mode b).

(** How a [fetch] of the judge ends: it rejects (network error, bad JSON), it
    answers with a status that is not ok, or it answers [{interrupt, message}]. *)
Inductive JudgeResult : Type :=
| J_failed
| J_notOk
| J_ok (interrupt : bool) (message : option string).

(** How the [fetch] of [/api/send-assistant-input] ends. *)
Inductive InputResult : Type :=
| I_ok
| I_notOk (status : nat)
| I_failed.

(** *** State of a mounted component

    [conversation] .. [isInterrupting] are [useState] cells, [isMuted],
    [isAudioMuted] and [messages] come from [useVoice], the fields named
    [...Ref] are the [useRef] cells.  [clock] is [Date.now()], [timers] the
    pending [setTimeout]s, [judgeInFlight] the judge calls that are neither
    answered nor aborted, [inputInFlight] the assistant-input calls awaited
    by [triggerInterrupt] with the message each one carries, and [rendered]
    the values of the latest render whose effects have run. *)
Record State : Type := mkState {
  conversation : list Message;
  isPaused : bool;
  mode : Mode;
  isInterrupting : bool;
  isMuted : bool;
  isAudioMuted : bool;
  messages : list HumeMessage;
  chatIdRef : option string;
  turnStartTimeRef : Z;
  lastJudgeTimeRef : Z;
  judgeAbortControllerRef : option nat;
  conversationHistoryRef : list HistoryEntry;
  interruptCooldownRef : bool;
  isInterruptingRef : bool;
  micUnmuteTimeoutRef : option nat;
  clock : Z;
  timers : list Timer;
  nextId : nat;
  judgeInFlight : list nat;
  inputInFlight : list (nat * string);
  trace : list (Z * Action);
  rendered : Render
}.

Definition set_conversation (v : list Message) (s : State) : State :=
  {| conversation := v; isPaused := isPaused s; mode := mode s;
     isInterrupting := isInterrupting s; isMuted := isMuted s; isAudioMuted := isAudioMuted s;
     messages := messages s; chatIdRef := chatIdRef s; turnStartTimeRef := turnStartTimeRef s;
     lastJudgeTimeRef := lastJudgeTimeRef s;
     judgeAbortControllerRef := judgeAbortControllerRef s;
     conversationHistoryRef := conversationHistoryRef s;
     interruptCooldownRef := interruptCooldownRef s; isInterruptingRef := isInterruptingRef s;
     micUnmuteTimeoutRef := micUnmuteTimeoutRef s; clock := clock s; timers := timers s;
     nextId := nextId s; judgeInFlight := judgeInFlight s; inputInFlight := inputInFlight s;
     trace := trace s; rendered := rendered s |}.

Definition set_isPaused (v : bool) (s : State) : State :=
  {| conversation := conversation s; isPaused := v; mode := mode s;
     isInterrupting := isInterrupting s; isMuted := isMuted s; isAudioMuted := isAudioMuted s;
     messages := messages s; chatIdRef := chatIdRef s; turnStartTimeRef := turnStartTimeRef s;
     lastJudgeTimeRef := lastJudgeTimeRef s;
     judgeAbortControllerRef := judgeAbortControllerRef s;
     conversationHistoryRef := conversationHistoryRef s;
     interruptCooldownRef := interruptCooldownRef s; isInterruptingRef := isInterruptingRef s;
     micUnmuteTimeoutRef := micUnmuteTimeoutRef s; clock := clock s; timers := timers s;
     nextId := nextId s; judgeInFlight := judgeInFlight s; inputInFlight := inputInFlight s;
     trace := trace s; rendered := rendered s |}.

Definition set_mode (v : Mode) (s : State) : State :=
  {| conversation := conversation s; isPaused := isPaused s; mode := v;
     isInterrupting := isInterrupting s; isMuted := isMuted s; isAudioMuted := isAudioMuted s;
     messages := messages s; chatIdRef := chatIdRef s; turnStartTimeRef := turnStartTimeRef s;
     lastJudgeTimeRef := lastJudgeTimeRef s;
     judgeAbortControllerRef := judgeAbortControllerRef s;
     conversationHistoryRef := conversationHistoryRef s;
     interruptCooldownRef := interruptCooldownRef s; isInterruptingRef := isInterruptingRef s;
     micUnmuteTimeoutRef := micUnmuteTimeoutRef s; clock := clock s; timers := timers s;
     nextId := nextId s; judgeInFlight := judgeInFlight s; inputInFlight := inputInFlight s;
     trace := trace s; rendered := rendered s |}.

Definition set_isInterrupting (v : bool) (s : State) : State :=
  {| conversation := conversation s; isPaused := isPaused s; mode := mode s;
     isInterrupting := v; isMuted := isMuted s; isAudioMuted := isAudioMuted s;
     messages := messages s; chatIdRef := chatIdRef s; turnStartTimeRef := turnStartTimeRef s;
     lastJudgeTimeRef := lastJudgeTimeRef s;
     judgeAbortControllerRef := judgeAbortControllerRef s;
     conversationHistoryRef := conversationHistoryRef s;
     interruptCooldownRef := interruptCooldownRef s; isInterruptingRef := isInterruptingRef s;
     micUnmuteTimeoutRef := micUnmuteTimeoutRef s; clock := clock s; timers := timers s;
     nextId := nextId s; judgeInFlight := judgeInFlight s; inputInFlight := inputInFlight s;
     trace := trace s; rendered := rendered s |}.

Definition set_isMuted (v : bool) (s : State) : State :=
  {| conversation := conversation s; isPaused := isPaused s; mode := mode s;
     isInterrupting := isInterrupting s; isMuted := v; isAudioMuted := isAudioMuted s;
     messages := messages s; chatIdRef := chatIdRef s; turnStartTimeRef := turnStartTimeRef s;
     lastJudgeTimeRef := lastJudgeTimeRef s;
     judgeAbortControllerRef := judgeAbortControllerRef s;
     conversationHistoryRef := conversationHistoryRef s;
     interruptCooldownRef := interruptCooldownRef s; isInterruptingRef := isInterruptingRef s;
     micUnmuteTimeoutRef := micUnmuteTimeoutRef s; clock := clock s; timers := timers s;
     nextId := nextId s; judgeInFlight := judgeInFlight s; inputInFlight := inputInFlight s;
     trace := trace s; rendered := rendered s |}.

Definition set_isAudioMuted (v : bool) (s : State) : State :=
  {| conversation := conversation s; isPaused := isPaused s; mode := mode s;
     isInterrupting := isInterrupting s; isMuted := isMuted s; isAudioMuted := v;
     messages := messages s; chatIdRef := chatIdRef s; turnStartTimeRef := turnStartTimeRef s;
     lastJudgeTimeRef := lastJudgeTimeRef s;
     judgeAbortControllerRef := judgeAbortControllerRef s;
     conversationHistoryRef := conversationHistoryRef s;
     interruptCooldownRef := interruptCooldownRef s; isInterruptingRef := isInterruptingRef s;
     micUnmuteTimeoutRef := micUnmuteTimeoutRef s; clock := clock s; timers := timers s;
     nextId := nextId s; judgeInFlight := judgeInFlight s; inputInFlight := inputInFlight s;
     trace := trace s; rendered := rendered s |}.

Definition set_messages (v : list HumeMessage) (s : State) : State :=
  {| conversation := conversation s; isPaused := isPaused s; mode := mode s;
     isInterrupting := isInterrupting s; isMuted := isMuted s; isAudioMuted := isAudioMuted s;
     messages := v; chatIdRef := chatIdRef s; turnStartTimeRef := turnStartTimeRef s;
     lastJudgeTimeRef := lastJudgeTimeRef s;
     judgeAbortControllerRef := judgeAbortControllerRef s;
     conversationHistoryRef := conversationHistoryRef s;
     interruptCooldownRef := interruptCooldownRef s; isInterruptingRef := isInterruptingRef s;
     micUnmuteTimeoutRef := micUnmuteTimeoutRef s; clock := clock s; timers := timers s;
     nextId := nextId s; judgeInFlight := judgeInFlight s; inputInFlight := inputInFlight s;
     trace := trace s; rendered := rendered s |}.

Definition set_chatIdRef (v : option string) (s : State) : State :=
  {| conversation := conversation s; isPaused := isPaused s; mode := mode s;
     isInterrupting := isInterrupting s; isMuted := isMuted s; isAudioMuted := isAudioMuted s;
     messages := messages s; chatIdRef := v; turnStartTimeRef := turnStartTimeRef s;
     lastJudgeTimeRef := lastJudgeTimeRef s;
     judgeAbortControllerRef := judgeAbortControllerRef s;
     conversationHistoryRef := conversationHistoryRef s;
     interruptCooldownRef := interruptCooldownRef s; isInterruptingRef := isInterruptingRef s;
     micUnmuteTimeoutRef := micUnmuteTimeoutRef s; clock := clock s; timers := timers s;
     nextId := nextId s; judgeInFlight := judgeInFlight s; inputInFlight := inputInFlight s;
     trace := trace s; rendered := rendered s |}.

Definition set_turnStartTimeRef (v : Z) (s : State) : State :=
  {| conversation := conversation s; isPaused := isPaused s; mode := mode s;
     isInterrupting := isInterrupting s; isMuted := isMuted s; isAudioMuted := isAudioMuted s;
     messages := messages s; chatIdRef := chatIdRef s; turnStartTimeRef := v;
     lastJudgeTimeRef := lastJudgeTimeRef s;
     judgeAbortControllerRef := judgeAbortControllerRef s;
     conversationHistoryRef := conversationHistoryRef s;
     interruptCooldownRef := interruptCooldownRef s; isInterruptingRef := isInterruptingRef s;
     micUnmuteTimeoutRef := micUnmuteTimeoutRef s; clock := clock s; timers := timers s;
     nextId := nextId s; judgeInFlight := judgeInFlight s; inputInFlight := inputInFlight s;
     trace := trace s; rendered := rendered s |}.

Definition set_lastJudgeTimeRef (v : Z) (s : State) : State :=
  {| conversation := conversation s; isPaused := isPaused s; mode := mode s;
     isInterrupting := isInterrupting s; isMuted := isMuted s; isAudioMuted := isAudioMuted s;
     messages := messages s; chatIdRef := chatIdRef s; turnStartTimeRef := turnStartTimeRef s;
     lastJudgeTimeRef := v; judgeAbortControllerRef := judgeAbortControllerRef s;
     conversationHistoryRef := conversationHistoryRef s;
     interruptCooldownRef := interruptCooldownRef s; isInterruptingRef := isInterruptingRef s;
     micUnmuteTimeoutRef := micUnmuteTimeoutRef s; clock := clock s; timers := timers s;
     nextId := nextId s; judgeInFlight := judgeInFlight s; inputInFlight := inputInFlight s;
     trace := trace s; rendered := rendered s |}.

Definition set_judgeAbortControllerRef (v : option nat) (s : State) : State :=
  {| conversation := conversation s; isPaused := isPaused s; mode := mode s;
     isInterrupting := isInterrupting s; isMuted := isMuted s; isAudioMuted := isAudioMuted s;
     messages := messages s; chatIdRef := chatIdRef s; turnStartTimeRef := turnStartTimeRef s;
     lastJudgeTimeRef := lastJudgeTimeRef s; judgeAbortControllerRef := v;
     conversationHistoryRef := conversationHistoryRef s;
     interruptCooldownRef := interruptCooldownRef s; isInterruptingRef := isInterruptingRef s;
     micUnmuteTimeoutRef := micUnmuteTimeoutRef s; clock := clock s; timers := timers s;
     nextId := nextId s; judgeInFlight := judgeInFlight s; inputInFlight := inputInFlight s;
     trace := trace s; rendered := rendered s |}.

Definition set_conversationHistoryRef (v : list HistoryEntry) (s : State) : State :=
  {| conversation := conversation s; isPaused := isPaused s; mode := mode s;
     isInterrupting := isInterrupting s; isMuted := isMuted s; isAudioMuted := isAudioMuted s;
     messages := messages s; chatIdRef := chatIdRef s; turnStartTimeRef := turnStartTimeRef s;
     lastJudgeTimeRef := lastJudgeTimeRef s;
     judgeAbortControllerRef := judgeAbortControllerRef s; conversationHistoryRef := v;
     interruptCooldownRef := interruptCooldownRef s; isInterruptingRef := isInterruptingRef s;
     micUnmuteTimeoutRef := micUnmuteTimeoutRef s; clock := clock s; timers := timers s;
     nextId := nextId s; judgeInFlight := judgeInFlight s; inputInFlight := inputInFlight s;
     trace := trace s; rendered := rendered s |}.

Definition set_interruptCooldownRef (v : bool) (s : State) : State :=
  {| conversation := conversation s; isPaused := isPaused s; mode := mode s;
     isInterrupting := isInterrupting s; isMuted := isMuted s; isAudioMuted := isAudioMuted s;
     messages := messages s; chatIdRef := chatIdRef s; turnStartTimeRef := turnStartTimeRef s;
     lastJudgeTimeRef := lastJudgeTimeRef s;
     judgeAbortControllerRef := judgeAbortControllerRef s;
     conversationHistoryRef := conversationHistoryRef s; interruptCooldownRef := v;
     isInterruptingRef := isInterruptingRef s; micUnmuteTimeoutRef := micUnmuteTimeoutRef s;
     clock := clock s; timers := timers s; nextId := nextId s;
     judgeInFlight := judgeInFlight s; inputInFlight := inputInFlight s; trace := trace s;
     rendered := rendered s |}.

Definition set_isInterruptingRef (v : bool) (s : State) : State :=
  {| conversation := conversation s; isPaused := isPaused s; mode := mode s;
     isInterrupting := isInterrupting s; isMuted := isMuted s; isAudioMuted := isAudioMuted s;
     messages := messages s; chatIdRef := chatIdRef s; turnStartTimeRef := turnStartTimeRef s;
     lastJudgeTimeRef := lastJudgeTimeRef s;
     judgeAbortControllerRef := judgeAbortControllerRef s;
     conversationHistoryRef := conversationHistoryRef s;
     interruptCooldownRef := interruptCooldownRef s; isInterruptingRef := v;
     micUnmuteTimeoutRef := micUnmuteTimeoutRef s; clock := clock s; timers := timers s;
     nextId := nextId s; judgeInFlight := judgeInFlight s; inputInFlight := inputInFlight s;
     trace := trace s; rendered := rendered s |}.

Definition set_micUnmuteTimeoutRef (v : option nat) (s : State) : State :=
  {| conversation := conversation s; isPaused := isPaused s; mode := mode s;
     isInterrupting := isInterrupting s; isMuted := isMuted s; isAudioMuted := isAudioMuted s;
     messages := messages s; chatIdRef := chatIdRef s; turnStartTimeRef := turnStartTimeRef s;
     lastJudgeTimeRef := lastJudgeTimeRef s;
     judgeAbortControllerRef := judgeAbortControllerRef s;
     conversationHistoryRef := conversationHistoryRef s;
     interruptCooldownRef := interruptCooldownRef s; isInterruptingRef := isInterruptingRef s;
     micUnmuteTimeoutRef := v; clock := clock s; timers := timers s; nextId := nextId s;
     judgeInFlight := judgeInFlight s; inputInFlight := inputInFlight s; trace := trace s;
     rendered := rendered s |}.

Definition set_clock (v : Z) (s : State) : State :=
  {| conversation := conversation s; isPaused := isPaused s; mode := mode s;
     isInterrupting := isInterrupting s; isMuted := isMuted s; isAudioMuted := isAudioMuted s;
     messages := messages s; chatIdRef := chatIdRef s; turnStartTimeRef := turnStartTimeRef s;
     lastJudgeTimeRef := lastJudgeTimeRef s;
     judgeAbortControllerRef := judgeAbortControllerRef s;
     conversationHistoryRef := conversationHistoryRef s;
     interruptCooldownRef := interruptCooldownRef s; isInterruptingRef := isInterruptingRef s;
     micUnmuteTimeoutRef := micUnmuteTimeoutRef s; clock := v; timers := timers s;
     nextId := nextId s; judgeInFlight := judgeInFlight s; inputInFlight := inputInFlight s;
     trace := trace s; rendered := rendered s |}.

Definition set_timers (v : list Timer) (s : State) : State :=
  {| conversation := conversation s; isPaused := isPaused s; mode := mode s;
     isInterrupting := isInterrupting s; isMuted := isMuted s; isAudioMuted := isAudioMuted s;
     messages := messages s; chatIdRef := chatIdRef s; turnStartTimeRef := turnStartTimeRef s;
     lastJudgeTimeRef := lastJudgeTimeRef s;
     judgeAbortControllerRef := judgeAbortControllerRef s;
     conversationHistoryRef := conversationHistoryRef s;
     interruptCooldownRef := interruptCooldownRef s; isInterruptingRef := isInterruptingRef s;
     micUnmuteTimeoutRef := micUnmuteTimeoutRef s; clock := clock s; timers := v;
     nextId := nextId s; judgeInFlight := judgeInFlight s; inputInFlight := inputInFlight s;
     trace := trace s; rendered := rendered s |}.

Definition set_nextId (v : nat) (s : State) : State :=
  {| conversation := conversation s; isPaused := isPaused s; mode := mode s;
     isInterrupting := isInterrupting s; isMuted := isMuted s; isAudioMuted := isAudioMuted s;
     messages := messages s; chatIdRef := chatIdRef s; turnStartTimeRef := turnStartTimeRef s;
     lastJudgeTimeRef := lastJudgeTimeRef s;
     judgeAbortControllerRef := judgeAbortControllerRef s;
     conversationHistoryRef := conversationHistoryRef s;
     interruptCooldownRef := interruptCooldownRef s; isInterruptingRef := isInterruptingRef s;
     micUnmuteTimeoutRef := micUnmuteTimeoutRef s; clock := clock s; timers := timers s;
     nextId := v; judgeInFlight := judgeInFlight s; inputInFlight := inputInFlight s;
     trace := trace s; rendered := rendered s |}.

Definition set_judgeInFlight (v : list nat) (s : State) : State :=
  {| conversation := conversation s; isPaused := isPaused s; mode := mode s;
     isInterrupting := isInterrupting s; isMuted := isMuted s; isAudioMuted := isAudioMuted s;
     messages := messages s; chatIdRef := chatIdRef s; turnStartTimeRef := turnStartTimeRef s;
     lastJudgeTimeRef := lastJudgeTimeRef s;
     judgeAbortControllerRef := judgeAbortControllerRef s;
     conversationHistoryRef := conversationHistoryRef s;
     interruptCooldownRef := interruptCooldownRef s; isInterruptingRef := isInterruptingRef s;
     micUnmuteTimeoutRef := micUnmuteTimeoutRef s; clock := clock s; timers := timers s;
     nextId := nextId s; judgeInFlight := v; inputInFlight := inputInFlight s;
     trace := trace s; rendered := rendered s |}.

Definition set_inputInFlight (v : list (nat * string)) (s : State) : State :=
  {| conversation := conversation s; isPaused := isPaused s; mode := mode s;
     isInterrupting := isInterrupting s; isMuted := isMuted s; isAudioMuted := isAudioMuted s;
     messages := messages s; chatIdRef := chatIdRef s; turnStartTimeRef := turnStartTimeRef s;
     lastJudgeTimeRef := lastJudgeTimeRef s;
     judgeAbortControllerRef := judgeAbortControllerRef s;
     conversationHistoryRef := conversationHistoryRef s;
     interruptCooldownRef := interruptCooldownRef s; isInterruptingRef := isInterruptingRef s;
     micUnmuteTimeoutRef := micUnmuteTimeoutRef s; clock := clock s; timers := timers s;
     nextId := nextId s; judgeInFlight := judgeInFlight s; inputInFlight := v;
     trace := trace s; rendered := rendered s |}.

Definition set_trace (v : list (Z * Action)) (s : State) : State :=
  {| conversation := conversation s; isPaused := isPaused s; mode := mode s;
     isInterrupting := isInterrupting s; isMuted := isMuted s; isAudioMuted := isAudioMuted s;
     messages := messages s; chatIdRef := chatIdRef s; turnStartTimeRef := turnStartTimeRef s;
     lastJudgeTimeRef := lastJudgeTimeRef s;
     judgeAbortControllerRef := judgeAbortControllerRef s;
     conversationHistoryRef := conversationHistoryRef s;
     interruptCooldownRef := interruptCooldownRef s; isInterruptingRef := isInterruptingRef s;
     micUnmuteTimeoutRef := micUnmuteTimeoutRef s; clock := clock s; timers := timers s;
     nextId := nextId s; judgeInFlight := judgeInFlight s; inputInFlight := inputInFlight s;
     trace := v; rendered := rendered s |}.

Definition set_rendered (v : Render) (s : State) : State :=
  {| conversation := conversation s; isPaused := isPaused s; mode := mode s;
     isInterrupting := isInterrupting s; isMuted := isMuted s; isAudioMuted := isAudioMuted s;
     messages := messages s; chatIdRef := chatIdRef s; turnStartTimeRef := turnStartTimeRef s;
     lastJudgeTimeRef := lastJudgeTimeRef s;
     judgeAbortControllerRef := judgeAbortControllerRef s;
     conversationHistoryRef := conversationHistoryRef s;
     interruptCooldownRef := interruptCooldownRef s; isInterruptingRef := isInterruptingRef s;
     micUnmuteTimeoutRef := micUnmuteTimeoutRef s; clock := clock s; timers := timers s;
     nextId := nextId s; judgeInFlight := judgeInFlight s; inputInFlight := inputInFlight s;
     trace := trace s; rendered := v |}.


(** *** Runtime primitives *)
Definition emit (a : Action) (s : State) : State :=
  set_trace (trace s ++ [(clock s, a)]) s.

(** [setTimeout(task, delay)]; the new timer's id is [nextId s]. *)
Definition setTimeout (t : Task) (delay : Z) (s : State) : State :=
  set_nextId (S (nextId s))
    (set_timers (timers s ++ [{| tid := nextId s; due := clock s + delay; task := t |}]) s).

Definition clearTimeout (id : nat) (s : State) : State :=
  set_timers (filter (fun tm => negb (Nat.eqb (tid tm) id)) (timers s)) s.

Definition mute (s : State) : State := set_isMuted true (emit Mute s).
Definition unmute (s : State) : State := set_isMuted false (emit Unmute s).
Definition muteAudio (s : State) : State := set_isAudioMuted true (emit MuteAudio s).
Definition unmuteAudio (s : State) : State := set_isAudioMuted false (emit UnmuteAudio s).
Definition pauseAssistant (s : State) : State := emit PauseAssistant s.
Definition resumeAssistant (s : State) : State := emit ResumeAssistant s.
Definition sendSessionSettings (context : string) (s : State) : State :=
  emit (SendSessionSettings context) s.

Definition lastOpt {A : Type} (l : list A) : option A :=
  match rev l with x :: _ => Some x | [] => None end.

(** [l.slice(-n)] *)
Definition sliceLast {A : Type} (n : nat) (l : list A) : list A :=
  skipn (List.length l - n) l.

Definition pushHistory (r : Role) (c : string) (s : State) : State :=
  set_conversationHistoryRef (conversationHistoryRef s ++ [{| h_role := r; h_content := c |}]) s.

(** *** triggerInterrupt (lines 137-203)

    The function is asynchronous: [triggerInterrupt] is its synchronous part
    up to the first [await], [interruptSettled] runs when the 200 ms timer
    resolves and issues the [fetch], [interruptInjected] runs when that
    [fetch] has ended. *)
Definition triggerInterrupt (message : string) (s : State) : State :=
  if negb (truthyOpt (chatIdRef s)) || isInterruptingRef s then s
  else
    let s := set_interruptCooldownRef true s in
    let s := set_isInterruptingRef true s in
    let s := set_isInterrupting true s in
    let s := mute s in
    let s := pauseAssistant s in
    setTimeout (T_interruptSettled message) 200 s.

Definition interruptSettled (message : string) (s : State) : State :=
  let id := nextId s in
  let s := emit (FetchAssistantInput id (chatIdRef s) message) s in
  set_inputInFlight (inputInFlight s ++ [(id, message)]) (set_nextId (S id) s).

(** Lines 168-175 only write to the console, whatever the result [r]. *)
Definition interruptInjected (message : string) (r : InputResult) (s : State) : State :=
  let s := pushHistory assistant message s in
  let s :=
    set_conversation
      (conversation s ++
        [{| role := assistant; content := message; emotions := None;
            timestamp := clock s; hidden := None; isInterrupt := Some true |}]) s in
  let s := setTimeout T_resumeAssistant 100 s in
  setTimeout T_unmuteUser 4000 s.

(** *** callLLMJudge (lines 89-134) *)

(** [(Date.now() - turnStartTimeRef.current) / 1000] *)
Definition speakingTime (s : State) : Q := (clock s - turnStartTimeRef s) # 1000.

Definition Qlt_bool (a b : Q) : bool := negb (Qle_bool b a).

(** [controller.abort()]: the call, if still outstanding, rejects with an
    [AbortError], which line 130 swallows. *)
Definition abort (c : nat) (s : State) : State :=
  set_judgeInFlight (filter (fun i => negb (Nat.eqb i c)) (judgeInFlight s))
    (emit (AbortJudge c) s).

(** Lines 101-119: the call goes out. *)
Definition dispatchJudge (speech : string) (s : State) : State :=
  let now := clock s in
  let time := speakingTime s in
  let s := set_lastJudgeTimeRef now s in
  let s := match judgeAbortControllerRef s with
           | Some c => abort c s
           | None => s
           end in
  let id := nextId s in
  let s := set_judgeAbortControllerRef (Some id) (set_nextId (S id) s) in
  let s := emit (FetchJudge id speech (sliceLast 4 (conversationHistoryRef s)) time) s in
  set_judgeInFlight (judgeInFlight s ++ [id]) s.

Definition callLLMJudge (speech : string) (s : State) : State :=
  if interruptCooldownRef s || isInterruptingRef s then s
  else if Nat.ltb (wordCount speech) MIN_WORDS_FOR_JUDGE then s
  else if Qlt_bool (speakingTime s) MIN_SPEAKING_TIME_S then s
  else if clock s - lastJudgeTimeRef s <? JUDGE_DEBOUNCE_MS then s
  else dispatchJudge speech s.

(** The rest of [callLLMJudge], run when the call [id] ends with [r]
    (lines 121-133).  A call that is not in flight was aborted. *)
Definition judgeResponded (id : nat) (r : JudgeResult) (s : State) : State :=
  if existsb (Nat.eqb id) (judgeInFlight s) then
    let s := set_judgeInFlight (filter (fun i => negb (Nat.eqb i id)) (judgeInFlight s)) s in
    match r with
    | J_ok interrupt message =>
        match message with
        | Some m =>
            if interrupt && truthy m && truthyOpt (chatIdRef s)
            then triggerInterrupt m s else s
        | None => s
        end
    | J_notOk => s
    | J_failed => s
    end
  else s.

(** *** Pause controller (lines 346-371) *)
Definition triggerPause (s : State) : State :=
  if isInterruptingRef s then s
  else
    let s := muteAudio s in
    let s := mute s in
    let s := set_isPaused true s in
    let s := match micUnmuteTimeoutRef s with
             | Some t => clearTimeout t s
             | None => s
             end in
    let id := nextId s in
    set_micUnmuteTimeoutRef (Some id) (setTimeout T_micUnmute 2000 s).

Definition handleResume (s : State) : State :=
  if isInterruptingRef s then s
  else
    let s := match micUnmuteTimeoutRef s with
             | Some t => clearTimeout t s
             | None => s
             end in
    let s := unmuteAudio s in
    let s := unmute s in
    set_isPaused false s.

(** *** detectKeywords (lines 306-344)

    [isPaused] and [mode] are the values of the render [r] the effect was
    created in.  Each [for] loop acts on the first keyword that passes its
    test and returns. *)
Definition detectKeywords (r : Render) (text : string) (s : State) : State :=
  let lower := toLowerCase text in
  match find (fun kw => includes lower kw && negb (r_isPaused r)) PAUSE_KEYWORDS with
  | Some _ => triggerPause s
  | None =>
    match find (fun kw => includes lower kw && negb (Mode_eqb (r_mode r) quick))
               QUICK_KEYWORDS with
    | Some _ => sendSessionSettings QUICK_CONTEXT (set_mode quick s)
    | None =>
      match find (fun kw => includes lower kw && negb (Mode_eqb (r_mode r) detailed))
                 DETAILED_KEYWORDS with
      | Some _ => sendSessionSettings DETAILED_CONTEXT (set_mode detailed s)
      | None => s
      end
    end
  end.

(** *** The effect on [messages] (lines 206-284) *)

(** The updater of [setConversation] at lines 238-244. *)
Definition upsertUser (c : string) (e : list Emotion) (now : Z) (prev : list Message)
  : list Message :=
  let fresh := {| role := user; content := c; emotions := Some e; timestamp := now;
                  hidden := None; isInterrupt := None |} in
  match lastOpt prev with
  | Some lastConv =>
      if Role_eqb (role lastConv) user
      then removelast prev ++
           [{| role := role lastConv; content := c; emotions := Some e;
               timestamp := timestamp lastConv; hidden := hidden lastConv;
               isInterrupt := isInterrupt lastConv |}]
      else prev ++ [fresh]
  | None => prev ++ [fresh]
  end.

Definition truthyFlag (o : option bool) : bool :=
  match o with Some b => b | None => false end.

(** The updater of [setConversation] at lines 266-272. *)
Definition upsertAssistant (c : string) (paused : bool) (now : Z) (prev : list Message)
  : list Message :=
  let fresh := {| role := assistant; content := c; emotions := None; timestamp := now;
                  hidden := Some paused; isInterrupt := None |} in
  match lastOpt prev with
  | Some lastConv =>
      if Role_eqb (role lastConv) assistant && negb (truthyFlag (hidden lastConv))
      then removelast prev ++
           [{| role := role lastConv; content := content lastConv ++ " " ++ c;
               emotions := emotions lastConv; timestamp := timestamp lastConv;
               hidden := if paused then Some true else hidden lastConv;
               isInterrupt := isInterrupt lastConv |}]
      else prev ++ [fresh]
  | None => prev ++ [fresh]
  end.

(** Lines 275-282: consecutive assistant fragments share one history entry. *)
Definition trackAssistant (c : string) (h : list HistoryEntry) : list HistoryEntry :=
  match lastOpt h with
  | Some lastHistory =>
      if Role_eqb (h_role lastHistory) assistant
      then removelast h ++
           [{| h_role := h_role lastHistory; h_content := h_content lastHistory ++ " " ++ c |}]
      else h ++ [{| h_role := assistant; h_content := c |}]
  | None => h ++ [{| h_role := assistant; h_content := c |}]
  end.

Definition messagesEffect (r : Render) (s : State) : State :=
  match lastOpt (messages s) with
  | None => s
  | Some (chat_metadata chatId) =>
      if truthy chatId then set_chatIdRef (Some chatId) s else s
  | Some user_interruption =>
      setTimeout T_unmuteAudio 100 (muteAudio s)
  | Some (user_message text prosody interim) =>
      let s := if interim && (turnStartTimeRef s =? 0)
               then set_turnStartTimeRef (clock s) s else s in
      let s := set_conversation (upsertUser text prosody (clock s) (conversation s)) s in
      let s := detectKeywords r text s in
      let s := if interim && negb (isInterruptingRef s) then callLLMJudge text s else s in
      if negb interim && truthy text
      then set_turnStartTimeRef 0 (pushHistory user text s)
      else s
  | Some (assistant_message text) =>
      let s := set_conversation
                 (upsertAssistant text (r_isPaused r) (clock s) (conversation s)) s in
      if truthy text
      then set_conversationHistoryRef (trackAssistant text (conversationHistoryRef s)) s
      else s
  | Some other_message => s
  end.

(** *** The effect that listens for an answer while paused (lines 373-387) *)
Definition isPausePhrase (text : string) : bool :=
  existsb (fun kw => includes (toLowerCase text) kw) PAUSE_KEYWORDS.

Definition resumeEffect (r : Render) (s : State) : State :=
  if negb (r_isPaused r) || r_isMuted r then s
  else
    match lastOpt (messages s) with
    | Some (user_message text _ _) =>
        if negb (isPausePhrase text) && Nat.ltb 3 (String.length text)
        then handleResume s else s
    | _ => s
    end.

(** *** Rendering

    A change of state re-renders the component; after a render React runs,
    in source order, the effects one of whose dependencies changed: the
    effect of lines 84-86 on [isInterrupting], the effect on
    [messages, callLLMJudge, isPaused] and the effect on
    [messages, isPaused, isMuted].  ([callLLMJudge] never changes: its
    [useCallback] has no dependency.)  [messages] only grows, so its length
    tells whether it changed. *)
Definition snapshot (s : State) : Render :=
  {| r_messages := List.length (messages s); r_isPaused := isPaused s;
     r_isMuted := isMuted s; r_isInterrupting := isInterrupting s; r_mode := mode s |}.

Definition stable (s : State) : bool := Render_eqb (snapshot s) (rendered s).

Definition commit (s : State) : State :=
  let r := snapshot s in
  let p := rendered s in
  let dMessages := negb (Nat.eqb (r_messages r) (r_messages p)) in
  let dPaused := negb (Bool.eqb (r_isPaused r) (r_isPaused p)) in
  let dMuted := negb (Bool.eqb (r_isMuted r) (r_isMuted p)) in
  let dInterrupting := negb (Bool.eqb (r_isInterrupting r) (r_isInterrupting p)) in
  let s := set_rendered r s in
  let s := if dInterrupting then set_isInterruptingRef (r_isInterrupting r) s else s in
  let s := if dMessages || dPaused then messagesEffect r s else s in
  if dMessages || dPaused || dMuted then resumeEffect r s else s.

(** Render until nothing changes any more; three renders always suffice
    (lemma [settle_stable]). *)
Fixpoint rerender (n : nat) (s : State) : State :=
  match n with
  | O => s
  | S k => if stable s then s else rerender k (commit s)
  end.

Definition settle (s : State) : State := rerender 3 s.

(** *** Timers *)
Definition runTask (t : Task) (s : State) : State :=
  match t with
  | T_interruptSettled message => interruptSettled message s
  | T_resumeAssistant => resumeAssistant s
  | T_unmuteUser =>
      let s := unmute s in
      let s := set_isInterruptingRef false s in
      let s := set_isInterrupting false s in
      setTimeout T_cooldownEnd 8000 s
  | T_cooldownEnd => emit LogCooldownEnded (set_interruptCooldownRef false s)
  | T_micUnmute => if negb (isInterruptingRef s) then unmute s else s
  | T_unmuteAudio => unmuteAudio s
  end.

(** The pending timer that is due first; among equals, the one set first. *)
Fixpoint earliest (best : Timer) (l : list Timer) : Timer :=
  match l with
  | [] => best
  | tm :: rest => if due tm <? due best then earliest tm rest else earliest best rest
  end.

Definition nextTimer (s : State) : option Timer :=
  match timers s with
  | [] => None
  | tm :: rest => Some (earliest tm rest)
  end.

(** *** Events of the environment

    [E_message m]: the transport appends [m] to [messages].
    [E_judgeResponse], [E_inputResponse]: a [fetch] ends.
    [E_timer]: the next pending timer fires, at the time it is due.
    [E_wait d]: [d] milliseconds pass during which no timer is due.
    After each event the component renders until stable. *)
Inductive Event : Type :=
| E_message (m : HumeMessage)
| E_judgeResponse (id : nat) (r : JudgeResult)
| E_inputResponse (id : nat) (r : InputResult)
| E_timer
| E_wait (d : Z).

Definition inputResponded (id : nat) (r : InputResult) (s : State) : State :=
  match find (fun p => Nat.eqb (fst p) id) (inputInFlight s) with
  | Some (_, message) =>
      interruptInjected message r
        (set_inputInFlight (filter (fun p => negb (Nat.eqb (fst p) id)) (inputInFlight s)) s)
  | None => s
  end.

Definition step (s : State) (e : Event) : option State :=
  match e with
  | E_message m => Some (settle (set_messages (messages s ++ [m]) s))
  | E_judgeResponse id r => Some (settle (judgeResponded id r s))
  | E_inputResponse id r => Some (settle (inputResponded id r s))
  | E_timer =>
      match nextTimer s with
      | Some tm =>
          Some (settle (runTask (task tm)
                  (set_clock (Z.max (clock s) (due tm)) (clearTimeout (tid tm) s))))
      | None => None
      end
  | E_wait d =>
      if (0 <=? d) && forallb (fun tm => clock s + d <=? due tm) (timers s)
      then Some (set_clock (clock s + d) s)
      else None
  end.

Fixpoint run (s : State) (es : list Event) : option State :=
  match es with
  | [] => Some s
  | e :: rest =>
      match step s e with
      | Some s' => run s' rest
      | None => None
      end
  end.

(** The component as mounted at time [t0]: nothing said yet, no chat id. *)
Definition init (t0 : Z) : State :=
  {| conversation := []; isPaused := false; mode := normal; isInterrupting := false;
     isMuted := false; isAudioMuted := false; messages := [];
     chatIdRef := None; turnStartTimeRef := 0; lastJudgeTimeRef := 0;
     judgeAbortControllerRef := None; conversationHistoryRef := [];
     interruptCooldownRef := false; isInterruptingRef := false;
     micUnmuteTimeoutRef := None; clock := t0; timers := []; nextId := 1;
     judgeInFlight := []; inputInFlight := []; trace := [];
     rendered := {| r_messages := 0; r_isPaused := false; r_isMuted := false;
                    r_isInterrupting := false; r_mode := normal |} |}.

Definition reachable (s : State) : Prop :=
  exists t0 es, 0 < t0 /\ run (init t0) es = Some s.

(** *** Vocabulary of the statements *)

(** Times at which a judge call went out, oldest first. *)
Definition judgeTimes (tr : list (Z * Action)) : list Z :=
  flat_map (fun p => match snd p with FetchJudge _ _ _ _ => [fst p] | _ => [] end) tr.

(** Every pending microphone re-open timer is the one [micUnmuteTimeoutRef]
    holds. *)
Definition micTimersTracked (s : State) : Prop :=
  forall tm, In tm (timers s) -> task tm = T_micUnmute ->
             micUnmuteTimeoutRef s = Some (tid tm).

(** Facts that hold of every state the component reaches. *)
Record Inv (s : State) : Prop := {
  inv_muted : isInterruptingRef s = true -> isMuted s = true;
  inv_sync : isInterrupting s = isInterruptingRef s;
  inv_mic : micTimersTracked s;
  inv_flight : forall id, In id (judgeInFlight s) ->
                 judgeInFlight s = [id] /\ judgeAbortControllerRef s = Some id;
  inv_spaced : StronglySorted (fun a b => a + JUDGE_DEBOUNCE_MS <= b) (judgeTimes (trace s));
  inv_last : Forall (fun t => t <= lastJudgeTimeRef s) (judgeTimes (trace s))
}.

(** What a render leaves alone, and what it may do to the pause flags. *)
Definition frame (s s' : State) : Prop :=
  messages s' = messages s /\ isInterrupting s' = isInterrupting s /\
  rendered s' = rendered s.

Definition sameFlags (s s' : State) : Prop :=
  isPaused s' = isPaused s /\ isMuted s' = isMuted s.

Definition lastUserText (s : State) : option string :=
  match lastOpt (messages s) with
  | Some (user_message text _ _) => Some text
  | _ => None
  end.

(** The run of one interruption: the verdict arrives for call [id], the
    200 ms timer fires, the assistant-input call takes [L] ms and ends with
    [r], then the three remaining timers fire. *)
Definition interruptEvents (id k : nat) (m : string) (L : Z) (r : InputResult) : list Event :=
  [E_judgeResponse id (J_ok true (Some m)); E_timer; E_wait L; E_inputResponse (S k) r;
   E_timer; E_timer; E_timer].

Definition interruptTrace (t : Z) (k : nat) (cid m : string) (L : Z) : list (Z * Action) :=
  [(t, Mute); (t, PauseAssistant);
   (t + 200, FetchAssistantInput (S k) (Some cid) m);
   (t + 200 + L + 100, ResumeAssistant);
   (t + 200 + L + 4000, Unmute);
   (t + 200 + L + 4000 + 8000, LogCooldownEnded)].

(** The orchestrator is idle, the pause controller is idle, the chat id is
    [cid], the judge call [id] is outstanding and nothing else is pending. *)
Definition idleWith (cid : string) (id : nat) (s : State) : Prop :=
  stable s = true /\ chatIdRef s = Some cid /\ truthy cid = true /\
  isInterruptingRef s = false /\ isInterrupting s = false /\
  interruptCooldownRef s = false /\ isPaused s = false /\
  timers s = [] /\ inputInFlight s = [] /\ In id (judgeInFlight s).

(** The transcript entry of an injected message at time [t]. *)
Definition interruptMessage (m : string) (t : Z) : Message :=
  {| role := assistant; content := m; emotions := None; timestamp := t;
     hidden := None; isInterrupt := Some true |}.

(** What the proofs about an interruption track of a state. *)
Record Obs : Type := {
  o_trace : list (Z * Action);
  o_clock : Z;
  o_timers : list Timer;
  o_nextId : nat;
  o_input : list (nat * string);
  o_interrupting : bool;
  o_cooldown : bool;
  o_muted : bool;
  o_history : list HistoryEntry;
  o_conversation : list Message
}.

(** [s] shows [o], its chat id is [cid], and the pause controller is idle
    with nothing left to render for it. *)
Definition observes (cid : string) (s : State) (o : Obs) : Prop :=
  trace s = o_trace o /\ clock s = o_clock o /\ timers s = o_timers o /\
  nextId s = o_nextId o /\ inputInFlight s = o_input o /\
  isInterruptingRef s = o_interrupting o /\ isInterrupting s = o_interrupting o /\
  interruptCooldownRef s = o_cooldown o /\ isMuted s = o_muted o /\
  conversationHistoryRef s = o_history o /\ conversation s = o_conversation o /\
  chatIdRef s = Some cid /\ isPaused s = false /\
  r_messages (rendered s) = List.length (messages s) /\ r_isPaused (rendered s) = false.

(** The four preconditions of a judge call, as the specification lists
    them: no interruption and no cooldown active, at least 8 words, at
    least 1.5 s (1500 ms) of speaking time, at least 400 ms since the
    previous call went out. *)
Definition judgePreconditions (speech : string) (s : State) : bool :=
  negb (isInterruptingRef s) && negb (interruptCooldownRef s) &&
  Nat.leb 8 (wordCount speech) &&
  (1500 <=? clock s - turnStartTimeRef s) &&
  (400 <=? clock s - lastJudgeTimeRef s).

(** A session used in examples: the chat id arrives, the user starts to
    speak, and 1.5 s later an interim transcript of eleven words sends the
    judge call number 1; 300 ms pass. *)
Definition demoSpeech : string := "um so I was like thinking about the thing you know".

Definition demoVerdict : string := "Sorry to interrupt, but is this the main goal?".

Definition demoStart : list Event :=
  [E_message (chat_metadata "chat-1");
   E_message (user_message "um so" [] true);
   E_wait 1500;
   E_message (user_message demoSpeech [] true);
   E_wait 300].

Definition demoState : State :=
  match run (init 1000000) demoStart with
  | Some s => s
  | None => init 1000000
  end.

(** The demo session 12 s after an interruption began: the verdict arrives,
    the assistant-input call ends at once, resume and unmute fire, and 7800
    more ms pass. *)
Definition demoCooling : State :=
  match run demoState
          [E_judgeResponse 1 (J_ok true (Some demoVerdict)); E_timer;
           E_inputResponse 3 I_ok; E_timer; E_timer; E_wait 7800] with
  | Some s => s
  | None => demoState
  end.

(** Actions of the mode controller, and actions on the two audio paths. *)
Definition isModeSwitch (a : Action) : bool :=
  match a with SendSessionSettings _ => true | _ => false end.

Definition isAudioAction (a : Action) : bool :=
  match a with Mute | Unmute | MuteAudio | UnmuteAudio => true | _ => false end.

(** From [s] to [s'] the pause controller did nothing: its flags and timers
    are the same, and every call made in between satisfies [ok]. *)
Definition calmStep (ok : Action -> bool) (s s' : State) : Prop :=
  isPaused s' = isPaused s /\ isMuted s' = isMuted s /\
  isAudioMuted s' = isAudioMuted s /\ timers s' = timers s /\
  micUnmuteTimeoutRef s' = micUnmuteTimeoutRef s /\ clock s' = clock s /\
  exists added, trace s' = (trace s ++ added)%list /\
                Forall (fun p => ok (snd p) = true) added.

(** The final user event [text] pauses or resumes the conversation when it
    is processed in state [s]. *)
Definition togglesPause (s : State) (text : string) : bool :=
  negb (isInterruptingRef s) &&
  ((isPausePhrase text && negb (isPaused s)) ||
   (isPaused s && negb (isMuted s) && negb (isPausePhrase text) &&
    Nat.ltb 3 (String.length text))).

(** The demo session just after the verdict has been accepted. *)
Definition demoInterrupting : State :=
  match step demoState (E_judgeResponse 1 (J_ok true (Some demoVerdict))) with
  | Some s => s
  | None => demoState
  end.

(** A session in which the user has said "hold on" and the microphone has
    been re-opened by the 2 s timer. *)
Definition demoPaused : State :=
  match run (init 1000000)
          [E_message (chat_metadata "chat-1");
           E_message (user_message "hold on" [] false); E_timer] with
  | Some s => s
  | None => init 1000000
  end.

(** A user turn of the demo: an interim transcript, then the final one. *)
Definition demoTurn1 : State :=
  match step (init 1000000) (E_message (user_message "how are" [] true)) with
  | Some s => s
  | None => init 1000000
  end.

Definition demoTurn2 : State :=
  match step demoTurn1 (E_message (user_message "how are you today" [] false)) with
  | Some s => s
  | None => demoTurn1
  end.

(** The paused demo session after the answer "I am back now". *)
Definition demoResumed : State :=
  match step demoPaused (E_message (user_message "I am back now" [] false)) with
  | Some s => s
  | None => demoPaused
  end.

(** Two judge submissions 100 ms apart, then the verdict for call 1. *)
Definition demoSpeech2 : string :=
  "um so I was like thinking about the thing you know and then".

Definition demoBurst : list Event :=
  [E_message (chat_metadata "chat-1");
   E_message (user_message "um so" [] true);
   E_wait 1500;
   E_message (user_message demoSpeech [] true);
   E_wait 100;
   E_message (user_message demoSpeech2 [] true);
   E_wait 200;
   E_judgeResponse 1 (J_ok true (Some demoVerdict))].

(** *** The phases of an interruption *)

Definition isSettledTask (t : Task) : bool :=
  match t with T_interruptSettled _ => true | _ => false end.
Definition isUnmuteUserTask (t : Task) : bool :=
  match t with T_unmuteUser => true | _ => false end.
Definition isCooldownTask (t : Task) : bool :=
  match t with T_cooldownEnd => true | _ => false end.

(** Pending timers whose callback satisfies [p]. *)
Definition countTask (p : Task -> bool) (l : list Timer) : nat :=
  List.length (filter (fun tm => p (task tm)) l).

(** What carries an interruption from its start to the re-opening of the
    microphone: the 200 ms timer, then the awaited assistant-input call,
    then the 4 s timer. *)
Definition carriers (s : State) : nat :=
  (countTask isSettledTask (timers s) + List.length (inputInFlight s) +
   countTask isUnmuteUserTask (timers s))%nat.

(** The orchestrator runs at most one interruption: one carrier exactly
    while [isInterruptingRef] is set, one cooldown timer exactly while
    cooling; the cooldown flag covers the interruption, no judge call is
    outstanding under it, and the chat id is known.  The last three fields
    say that timer ids are fresh. *)
Record Orch (s : State) : Prop := {
  orch_carriers : carriers s = if isInterruptingRef s then 1%nat else 0%nat;
  orch_cooling :
    countTask isCooldownTask (timers s) =
    if interruptCooldownRef s && negb (isInterruptingRef s) then 1%nat else 0%nat;
  orch_cooldown : isInterruptingRef s = true -> interruptCooldownRef s = true;
  orch_quiet : interruptCooldownRef s = true -> judgeInFlight s = [];
  orch_chat : interruptCooldownRef s = true -> truthyOpt (chatIdRef s) = true;
  orch_ids : forall tm, In tm (timers s) -> (tid tm < nextId s)%nat;
  orch_nodup : NoDup (map tid (timers s));
  orch_micref : forall t, micUnmuteTimeoutRef s = Some t ->
                  (t < nextId s)%nat /\
                  forall tm, In tm (timers s) -> tid tm = t -> task tm = T_micUnmute
}.

(** *** Keywords *)

(** [text], lower-cased, contains one of the keywords [kws]. *)
Definition mentions (kws : list string) (text : string) : bool :=
  existsb (fun kw => includes (toLowerCase text) kw) kws.

(** *** What goes out to the two routes *)

(** A judge request carries a speech of at least 8 words, at most 4 history
    entries and a speaking time of at least 1.5 s; an assistant-input
    request carries a chat id and a text. *)
Definition requestOk (a : Action) : bool :=
  match a with
  | FetchJudge _ speech history time =>
      Nat.leb MIN_WORDS_FOR_JUDGE (wordCount speech) &&
      Nat.leb (List.length history) 4 && Qle_bool MIN_SPEAKING_TIME_S time
  | FetchAssistantInput _ chatId message => truthyOpt chatId && truthy message
  | _ => true
  end.

Definition carriesText (t : Task) : bool :=
  match t with T_interruptSettled message => truthy message | _ => true end.

(** Every request sent so far is well formed, and so is the message of
    every interruption that waits for its 200 ms timer. *)
Record Audit (s : State) : Prop := {
  audit_trace : Forall (fun p => requestOk (snd p) = true) (trace s);
  audit_timers : Forall (fun tm => carriesText (task tm) = true) (timers s)
}.

(** *** extractEmotions (lines 290-303)

    [scores] is [msg.models?.prosody?.scores] as [Object.entries] lists it,
    [None] when it is missing; every score is a number.  [sort] is stable:
    of two entries with the same score the one listed first stays first. *)

(** The number that the literal [0.1] denotes. *)
Definition EMOTION_THRESHOLD : Q := 3602879701896397 # 36028797018963968.

Fixpoint insertDesc (e : Emotion) (l : list Emotion) : list Emotion :=
  match l with
  | [] => [e]
  | x :: rest => if Qle_bool (score x) (score e) then e :: l else x :: insertDesc e rest
  end.

(** [l.sort((a, b) => b.score - a.score)] *)
Definition sortDesc (l : list Emotion) : list Emotion := fold_right insertDesc [] l.

Definition extractEmotions (scores : option (list (string * Q))) : list Emotion :=
  match scores with
  | None => []
  | Some entries =>
      firstn 3
        (sortDesc
           (filter (fun e => Qlt_bool EMOTION_THRESHOLD (score e))
              (map (fun p => {| name := fst p; score := snd p |}) entries)))
  end.

(** *** More sessions used in examples *)

(** The transport reports right after mounting that the user cut in. *)
Definition demoBargeIn : State :=
  match step (init 1000000) (E_message user_interruption) with
  | Some s => s
  | None => init 1000000
  end.

(** The user asks for brevity. *)
Definition demoQuick : State :=
  match step (init 1000000) (E_message (user_message "please be brief" [] false)) with
  | Some s => s
  | None => init 1000000
  end.

(** The user says "hold on"; the microphone timer of the pause is pending. *)
Definition demoHeld : State :=
  match step (init 1000000) (E_message (user_message "hold on" [] false)) with
  | Some s => s
  | None => init 1000000
  end.

Definition demoMicTimer : Timer := {| tid := 1; due := 1002000; task := T_micUnmute |}.

(** The paused demo session after "ok", and after the interim transcript
    "I am back now". *)
Definition demoShort : State :=
  match step demoPaused (E_message (user_message "ok" [] false)) with
  | Some s => s
  | None => demoPaused
  end.

Definition demoResumedEarly : State :=
  match step demoPaused (E_message (user_message "I am back now" [] true)) with
  | Some s => s
  | None => demoPaused
  end.

(** The agent says "Hello", then "there". *)
Definition demoSaid1 : State :=
  match step (init 1000000) (E_message (assistant_message "Hello")) with
  | Some s => s
  | None => init 1000000
  end.

Definition demoSaid2 : State :=
  match step demoSaid1 (E_message (assistant_message "there")) with
  | Some s => s
  | None => demoSaid1
  end.

(** The last message does not end a pause: it is no user transcript, or it
    is a pause phrase, or it has 3 characters at most. *)
Definition keepsPause (s : State) : bool :=
  match lastOpt (messages s) with
  | Some (user_message text _ _) => isPausePhrase text || Nat.leb (String.length text) 3
  | _ => true
  end.

(** Two seconds after "hold on": the microphone timer has fired. *)
Definition demoReopened : State :=
  match step demoHeld E_timer with
  | Some s => s
  | None => demoHeld
  end.

(** *** Where a judge request comes from *)

Definition isFetchJudge (a : Action) : bool :=
  match a with FetchJudge _ _ _ _ => true | _ => false end.

(** From [s] to [s'] nothing was sent to the judge, and what a judge
    request is built from stayed the same. *)
Definition quietStep (s s' : State) : Prop :=
  conversationHistoryRef s' = conversationHistoryRef s /\
  turnStartTimeRef s' = turnStartTimeRef s /\ clock s' = clock s /\
  messages s' = messages s /\
  exists added, trace s' = (trace s ++ added)%list /\
                Forall (fun p => isFetchJudge (snd p) = false) added.

(** A trace entry that is a judge request was sent at time [c] with the
    last four entries of the history [h], the time spoken since [t0] and
    the text of the last of the messages [ms], an interim user transcript. *)
Definition sentAt (h : list HistoryEntry) (t0 c : Z) (ms : list HumeMessage)
    (p : Z * Action) : Prop :=
  match snd p with
  | FetchJudge _ speech history time =>
      history = sliceLast 4 h /\ time = (c - t0) # 1000 /\ fst p = c /\
      Qle (3 # 2) time /\
      exists prosody, lastOpt ms = Some (user_message speech prosody true)
  | _ => True
  end.

(** A trace entry that is a judge request was sent while the event that
    leads from [s] to [s'] was processed: not before the time of [s], with
    the last four entries of the history of [s], the time spoken since the
    turn start of [s], and the text of the last message of [s'], an interim
    user transcript. *)
Definition sentFrom (s s' : State) (p : Z * Action) : Prop :=
  match snd p with
  | FetchJudge _ speech history time =>
      history = sliceLast 4 (conversationHistoryRef s) /\
      time = (fst p - turnStartTimeRef s) # 1000 /\ clock s <= fst p /\
      exists prosody, lastOpt (messages s') = Some (user_message speech prosody true)
  | _ => True
  end.

End Client.

(** ** The route handlers

    [judge-speech] (the second [POST] of the file) asks an LLM whether to
    interrupt and normalises its reply; [send-assistant-input] (the first
    [POST]) forwards a text to the voice API.  What the environment decides
    is an input of the model: the configured key, the request body as
    parsed by [request.json()], the outcome of the upstream call, and
    [JSON.parse] itself. *)
Module Route.
Import JS.

(** A JSON value; a number is kept by its exact value. *)
Inductive JValue : Type :=
| JNull
| JBool (b : bool)
| JNum (q : Q)
| JStr (s : string)
| JArr (items : list JValue)
| JObj (fields : list (string * JValue)).

(** A computation that may throw. *)
Inductive Result (A : Type) : Type :=
| Ok (a : A)
| Throw.
Arguments Ok {A} a.
Arguments Throw {A}.

(** [Boolean(v)]; [None] is [undefined]. *)
Definition truthyValue (v : option JValue) : bool :=
  match v with
  | None | Some JNull => false
  | Some (JBool b) => b
  | Some (JNum q) => negb (Qeq_bool q 0)
  | Some (JStr s) => truthy s
  | Some (JArr _) | Some (JObj _) => true
  end.

Fixpoint lookup (k : string) (fields : list (string * JValue)) : option JValue :=
  match fields with
  | [] => None
  | (k', v) :: rest => if String.eqb k k' then Some v else lookup k rest
  end.

(** [v.k] for one of the keys the handlers read: it throws on [null], and
    is [undefined] on a value that is no object. *)
Definition getProp (v : JValue) (k : string) : Result (option JValue) :=
  match v with
  | JNull => Throw
  | JObj fields => Ok (lookup k fields)
  | _ => Ok None
  end.

(** [s.trim()] *)
Fixpoint trimStart (s : string) : string :=
  match s with
  | String c r => if isSpace c then trimStart r else s
  | EmptyString => EmptyString
  end.

Fixpoint trimEnd (s : string) : string :=
  match s with
  | EmptyString => EmptyString
  | String c r =>
      match trimEnd r with
      | EmptyString => if isSpace c then EmptyString else String c EmptyString
      | t => String c t
      end
  end.

Definition trim (s : string) : string := trimEnd (trimStart s).

(** [content.match(/\{[\s\S]*\}/)]: from the first opening brace to the
    last closing brace after it. *)
Fixpoint fromFirstOpen (s : string) : option string :=
  match s with
  | EmptyString => None
  | String c r => if Ascii.eqb c "{" then Some r else fromFirstOpen r
  end.

Fixpoint upToLastClose (s : string) : option string :=
  match s with
  | EmptyString => None
  | String c r =>
      match upToLastClose r with
      | Some t => Some (String c t)
      | None => if Ascii.eqb c "}" then Some (String c EmptyString) else None
      end
  end.

Definition matchBraces (content : string) : option string :=
  match fromFirstOpen content with
  | Some rest =>
      match upToLastClose rest with
      | Some t => Some (String "{" t)
      | None => None
      end
  | None => None
  end.

(** [(speechLower.match(new RegExp(filler, "gi")) || []).length] for a
    filler without special characters: its occurrences from left to right,
    none overlapping the one before.  [skip] characters are still covered
    by the last occurrence. *)
Fixpoint countFrom (filler : string) (skip : nat) (s : string) : nat :=
  match s with
  | EmptyString => O
  | String _ r =>
      match skip with
      | S k => countFrom filler k r
      | O => if String.prefix filler s
             then S (countFrom filler (String.length filler - 1) r)
             else countFrom filler O r
      end
  end.

Definition FILLERS : list string :=
  ["um"; "uh"; "like"; "you know"; "i don't know"; "i'm not sure"].

Definition fillerCount (speech : string) : nat :=
  fold_left (fun count filler => (count + countFrom filler O (toLowerCase speech))%nat)
    FILLERS O.

Record Stats : Type := { wordCount : nat; fillerCount_ : nat; speakingTime : JValue }.

Inductive Body : Type :=
| B_error (error : string)
| B_success
| B_verdict (interrupt : bool) (reason : JValue) (message : option JValue) (stats : Stats).

Record Response : Type := { status : nat; body : Body }.

(** The request body: [request.json()] rejects, or yields a value. *)
Inductive Request : Type :=
| Body_invalid
| Body_json (v : JValue).

(** The LLM call: it rejects (or the completion has no [choices]), or
    [choices[0]?.message?.content] is a string or is missing. *)
Inductive Completion : Type :=
| LLM_throws
| LLM_content (content : option string).

(** *** judge-speech *)

(** The initial value of [result] (line 143). *)
Definition defaultResult : JValue :=
  JObj [("interrupt", JBool false); ("reason", JStr EmptyString); ("message", JNull)].

Definition PREFIX : string := "Sorry to interrupt, but ".

(** Lines 114-117 run without throwing: the history is an array whose last
    four entries are objects with a string [role]. *)
Definition historyOk (v : option JValue) : bool :=
  match v with
  | None => true
  | Some (JArr items) =>
      forallb (fun m => match m with
                        | JObj f => match lookup "role" f with
                                    | Some (JStr _) => true
                                    | _ => false
                                    end
                        | _ => false
                        end)
              (skipn (List.length items - 4) items)
  | Some _ => false
  end.

(** [speakingTime.toFixed(1)] (line 124) runs without throwing. *)
Definition speakingTimeOk (v : option JValue) : bool :=
  match v with
  | None | Some (JNum _) => true
  | Some _ => false
  end.

(** Lines 154-169: fix the message and build the response. *)
Definition respond (result : JValue) (stats : Stats) : Result Response :=
  match getProp result "message", getProp result "interrupt", getProp result "reason" with
  | Ok finalMessage, Ok interrupt, Ok reason =>
      let fixed :=
        if truthyValue interrupt && truthyValue finalMessage
        then match finalMessage with
             | Some (JStr m) =>
                 Ok (Some (JStr (if startsWith (toLowerCase m) "sorry to interrupt"
                                 then m else PREFIX ++ m)))
             | _ => Throw
             end
        else Ok finalMessage in
      match fixed with
      | Ok message =>
          Ok {| status := 200;
                body := B_verdict
                          (match interrupt with Some (JBool true) => true | _ => false end)
                          (match reason with
                           | Some r => if truthyValue reason then r else JStr EmptyString
                           | None => JStr EmptyString
                           end)
                          message stats |}
      | Throw => Throw
      end
  | _, _, _ => Throw
  end.

Section Judge.

(** [JSON.parse]; [None] when it throws. *)
Variable JSON_parse : string -> option JValue.

(** Lines 143-152. *)
Definition parseVerdict (content : string) : JValue :=
  match matchBraces content with
  | Some jsonMatch =>
      match JSON_parse jsonMatch with
      | Some v => v
      | None => defaultResult
      end
  | None => defaultResult
  end.

(** The body of the [try] (lines 94-169). *)
Definition judgeTry (request : Request) (llm : Completion) : Result Response :=
  match request with
  | Body_invalid => Throw
  | Body_json b =>
      match getProp b "speech", getProp b "conversationHistory", getProp b "speakingTime" with
      | Ok speech, Ok conversationHistory, Ok speakingTime_ =>
          match speech with
          | Some (JStr sp) =>
              if negb (truthy sp)
              then Ok {| status := 400; body := B_error "Missing or invalid 'speech' field" |}
              else if negb (historyOk conversationHistory) then Throw
              else if negb (speakingTimeOk speakingTime_) then Throw
              else
                let stats :=
                  {| wordCount := JS.wordCount sp; fillerCount_ := fillerCount sp;
                     speakingTime := match speakingTime_ with
                                     | Some v => v
                                     | None => JNum 0
                                     end |} in
                match llm with
                | LLM_throws => Throw
                | LLM_content c =>
                    let content := match c with
                                   | Some text => trim text
                                   | None => EmptyString
                                   end in
                    respond (parseVerdict content) stats
                end
          | _ => Ok {| status := 400; body := B_error "Missing or invalid 'speech' field" |}
          end
      | _, _, _ => Throw
      end
  end.

(** [POST] of judge-speech (lines 83-177). *)
Definition judgeSpeech (groqApiKey : option string) (request : Request) (llm : Completion)
  : Response :=
  if negb (truthyOpt groqApiKey)
  then {| status := 500; body := B_error "GROQ_API_KEY not configured" |}
  else
    match judgeTry request llm with
    | Ok r => r
    | Throw => {| status := 500; body := B_error "Failed to analyze speech" |}
    end.

End Judge.

(** *** send-assistant-input (lines 3-59) *)







(** *** Vocabulary of the statements *)

(** A verdict as the LLM is asked to write it, with a lower-case opening. *)
Definition lowerCaseVerdict : JValue :=
  JObj [("interrupt", JBool true); ("reason", JStr "rambling");
        ("message", JStr "sorry to interrupt, but what is your main point?")].

Definition emptyVerdict : JValue :=
  JObj [("interrupt", JBool true); ("reason", JStr "rambling");
        ("message", JStr EmptyString)].

Definition noStats : Stats :=
  {| wordCount := 0; fillerCount_ := 0; speakingTime := JNum 0 |}.


Definition helloRequest : Request := Body_json (JObj [("speech", JStr "hello there")]).


(** The body of a judge-speech request can be read, and its [speech] is
    missing, empty or no string. *)
Definition badSpeech (request : Request) : bool :=
  match request with
  | Body_invalid => false
  | Body_json b =>
      match getProp b "speech" with
      | Ok (Some (JStr sp)) => negb (truthy sp)
      | Ok _ => true
      | Throw => false
      end
  end.

Definition isString (v : option JValue) : bool :=
  match v with Some (JStr _) => true | _ => false end.

End Route.

Import JS Client.

(** * Proofs *)

(** ** Records and rendering *)

Lemma state_eta s :
  mkState (conversation s) (isPaused s) (mode s) (isInterrupting s) (isMuted s) (isAudioMuted s)
    (messages s) (chatIdRef s) (turnStartTimeRef s) (lastJudgeTimeRef s)
    (judgeAbortControllerRef s) (conversationHistoryRef s) (interruptCooldownRef s)
    (isInterruptingRef s) (micUnmuteTimeoutRef s) (clock s) (timers s) (nextId s)
    (judgeInFlight s) (inputInFlight s) (trace s) (rendered s) = s.
Proof. destruct s; reflexivity. Qed.

Lemma Mode_eqb_eq a b : Mode_eqb a b = true <-> a = b.
Proof. destruct a, b; cbn; split; congruence. Qed.

Lemma Render_eqb_eq a b : Render_eqb a b = true <-> a = b.
Proof.
  unfold Render_eqb. destruct a, b; cbn.
  rewrite !andb_true_iff, Nat.eqb_eq, !Bool.eqb_true_iff, Mode_eqb_eq.
  split.
  - intros [[[[-> ->] ->] ->] ->]. reflexivity.
  - intros H; injection H as -> -> -> -> ->. repeat split.
Qed.

Lemma stable_rendered s : stable s = true -> rendered s = snapshot s.
Proof. unfold stable. intros H. apply Render_eqb_eq in H. congruence. Qed.

Lemma commit_stable s : stable s = true -> commit s = s.
Proof.
  intros H. apply stable_rendered in H.
  unfold commit. rewrite H. rewrite Nat.eqb_refl, !Bool.eqb_reflx. cbn.
  unfold set_rendered. rewrite <- H. apply state_eta.
Qed.

Lemma rerender_stable n s : stable s = true -> rerender n s = s.
Proof. destruct n; cbn; intros H; [reflexivity | now rewrite H]. Qed.

Lemma settle_of_stable s : stable s = true -> settle s = s.
Proof. apply rerender_stable. Qed.

Lemma lastOpt_snoc {A} (l : list A) (x : A) : lastOpt (l ++ [x]) = Some x.
Proof. unfold lastOpt. rewrite rev_app_distr. reflexivity. Qed.

(** ** Times of the judge calls in a trace *)

Lemma judgeTimes_app l1 l2 : judgeTimes (l1 ++ l2) = (judgeTimes l1 ++ judgeTimes l2)%list.
Proof. unfold judgeTimes. apply flat_map_app. Qed.

Lemma StronglySorted_snoc {A} (R : A -> A -> Prop) l x :
  StronglySorted R l -> Forall (fun a => R a x) l -> StronglySorted R (l ++ [x]).
Proof.
  induction 1 as [|a l Hs IH Ha]; intros Hx; cbn.
  - constructor; constructor.
  - inversion Hx; subst. constructor.
    + apply IH; assumption.
    + apply Forall_app; split; [assumption | constructor; [assumption | constructor]].
Qed.

Ltac prims :=
  unfold mute, unmute, muteAudio, unmuteAudio, pauseAssistant, resumeAssistant,
    sendSessionSettings, emit, setTimeout, clearTimeout, pushHistory, abort in *.

Arguments judgeTimes : simpl never.
Arguments isPausePhrase : simpl never.
Arguments includes : simpl never.
Arguments toLowerCase : simpl never.
Arguments wordCount : simpl never.

Lemma judgeTimes_snoc_other tr t a :
  (forall i sp h q, a <> FetchJudge i sp h q) -> judgeTimes (tr ++ [(t, a)]) = judgeTimes tr.
Proof.
  intros H. rewrite judgeTimes_app. unfold judgeTimes at 2. cbn.
  destruct a; try (now rewrite app_nil_r). exfalso. eapply H. reflexivity.
Qed.

Lemma judgeTimes_snoc_fetch tr t i sp h q :
  judgeTimes (tr ++ [(t, FetchJudge i sp h q)]) = (judgeTimes tr ++ [t])%list.
Proof. rewrite judgeTimes_app. reflexivity. Qed.

Ltac trace_simpl :=
  repeat (rewrite judgeTimes_snoc_other by (intros; discriminate)).

(** Solve one field of [Inv] for a state given by setters over [s]. *)
Ltac mic_solve :=
  unfold micTimersTracked in *; cbn;
  let tm := fresh "tm" in let Hin := fresh "Hin" in let Htask := fresh "Htask" in
  intros tm Hin Htask;
  repeat (rewrite ?in_app_iff, ?filter_In in Hin; cbn in Hin);
  repeat match goal with
         | H : _ \/ _ |- _ => destruct H
         | H : _ /\ _ |- _ => destruct H
         | H : False |- _ => destruct H
         | H : {| tid := _; due := _; task := _ |} = _ |- _ => subst; cbn in *
         end;
  try discriminate; try reflexivity;
  try match goal with
      | Hi : In tm (timers ?s), Hm : forall x, In x (timers ?s) -> _ |- _ =>
          specialize (Hm tm Hi Htask);
          first [ congruence
                | match goal with
                  | E : micUnmuteTimeoutRef s = Some _ |- _ =>
                      rewrite E in Hm; injection Hm as ->;
                      rewrite Nat.eqb_refl in *; discriminate
                  end ]
      end.

Ltac inv_split H :=
  destruct H as [Hmuted Hsync Hmic Hflight Hspaced Hlast];
  constructor; cbn;
  [ try (intros; first [reflexivity | auto; congruence])
  | try (first [assumption | congruence])
  | try mic_solve
  | try assumption
  | trace_simpl; try assumption
  | trace_simpl; try assumption ].

Lemma Inv_triggerPause s : Inv s -> Inv (triggerPause s).
Proof.
  intros H. unfold triggerPause. destruct (isInterruptingRef s) eqn:E; [assumption|].
  cbv zeta. prims. cbn.
  destruct (micUnmuteTimeoutRef s) eqn:Em; inv_split H.
Qed.

Lemma Inv_handleResume s : Inv s -> Inv (handleResume s).
Proof.
  intros H. unfold handleResume. destruct (isInterruptingRef s) eqn:E; [assumption|].
  cbv zeta. prims. cbn.
  destruct (micUnmuteTimeoutRef s) eqn:Em; inv_split H.
Qed.

Lemma Inv_triggerInterrupt m s : Inv s -> Inv (triggerInterrupt m s).
Proof.
  intros H. unfold triggerInterrupt.
  destruct (negb (truthyOpt (chatIdRef s)) || isInterruptingRef s); [assumption|].
  cbv zeta. prims. cbn. inv_split H.
Qed.

Lemma Inv_interruptSettled m s : Inv s -> Inv (interruptSettled m s).
Proof. intros H. unfold interruptSettled. cbv zeta. prims. cbn. inv_split H. Qed.

Lemma Inv_interruptInjected m r s : Inv s -> Inv (interruptInjected m r s).
Proof. intros H. unfold interruptInjected. cbv zeta. prims. cbn. inv_split H. Qed.

Arguments sliceLast : simpl never.
Arguments speakingTime : simpl never.

Lemma flight_empty_or_current s :
  (forall id, In id (judgeInFlight s) ->
     judgeInFlight s = [id] /\ judgeAbortControllerRef s = Some id) ->
  forall c, filter (fun i => negb (Nat.eqb i c)) (judgeInFlight s) = [] \/
            (judgeAbortControllerRef s <> Some c /\ exists d, judgeInFlight s = [d] /\ d <> c).
Proof.
  intros H c. destruct (judgeInFlight s) as [|d l] eqn:E; [left; reflexivity|].
  destruct (H d (or_introl eq_refl)) as [Hl Hc]. injection Hl as ->.
  cbn. destruct (Nat.eqb_spec d c) as [->|Hne]; cbn; [left; reflexivity|].
  right. split; [congruence|]. exists d. split; [reflexivity|assumption].
Qed.

Lemma Inv_dispatchJudge sp s :
  JUDGE_DEBOUNCE_MS <= clock s - lastJudgeTimeRef s -> Inv s -> Inv (dispatchJudge sp s).
Proof.
  intros Hd H. unfold dispatchJudge. cbv zeta. cbn.
  assert (Hsorted :
            StronglySorted (fun a b => a + JUDGE_DEBOUNCE_MS <= b)
              (judgeTimes (trace s) ++ [clock s]) /\
            Forall (fun t => t <= clock s) (judgeTimes (trace s) ++ [clock s])).
  { destruct H as [_ _ _ _ Hs Hl]. split.
    - apply StronglySorted_snoc; [assumption|].
      eapply Forall_impl; [|exact Hl]. cbn. intros a Ha. lia.
    - apply Forall_app. split.
      + eapply Forall_impl; [|exact Hl]. cbn. intros a Ha. unfold JUDGE_DEBOUNCE_MS in Hd. lia.
      + constructor; [lia|constructor]. }
  destruct Hsorted as [Hs1 Hs2].
  destruct (judgeAbortControllerRef s) eqn:Ec; prims; cbn; inv_split H;
    rewrite ?judgeTimes_snoc_fetch; trace_simpl; try assumption.
  - destruct (flight_empty_or_current s Hflight n) as [->|[Hne _]]; [|congruence].
    cbn. intros id [<-|[]]. split; reflexivity.
  - destruct (judgeInFlight s) as [|d l] eqn:E.
    + cbn. intros id [<-|[]]. split; reflexivity.
    + destruct (Hflight d (or_introl eq_refl)) as [_ Hc]. congruence.
Qed.

Lemma Inv_callLLMJudge sp s : Inv s -> Inv (callLLMJudge sp s).
Proof.
  intros H. unfold callLLMJudge.
  repeat match goal with |- Inv (if ?c then _ else _) => destruct c eqn:?; [assumption|] end.
  apply Inv_dispatchJudge; [|assumption].
  match goal with E : (_ <? _) = false |- _ => apply Z.ltb_ge in E; exact E end.
Qed.

Lemma Inv_judgeResponded id r s : Inv s -> Inv (judgeResponded id r s).
Proof.
  intros H. unfold judgeResponded.
  destruct (existsb (Nat.eqb id) (judgeInFlight s)); [|assumption].
  cbv zeta.
  assert (H' : Inv (set_judgeInFlight
                     (filter (fun i => negb (Nat.eqb i id)) (judgeInFlight s)) s)).
  { inv_split H. intros x Hx. apply filter_In in Hx. destruct Hx as [Hx Hne].
    destruct (Hflight x Hx) as [Hl Hc]. rewrite Hl. cbn. cbn in Hne.
    rewrite Hl in Hx. destruct (Nat.eqb_spec x id); cbn in *; [discriminate|].
    split; [reflexivity|assumption]. }
  destruct r as [| |i [m|]]; try assumption.
  match goal with |- Inv (if ?c then _ else _) => destruct c end; [|assumption].
  apply Inv_triggerInterrupt. assumption.
Qed.

Lemma Inv_inputResponded id r s : Inv s -> Inv (inputResponded id r s).
Proof.
  intros H. unfold inputResponded.
  destruct (find _ _) as [[i m]|]; [|assumption].
  apply Inv_interruptInjected. inv_split H.
Qed.

Lemma Inv_detectKeywords r t s : Inv s -> Inv (detectKeywords r t s).
Proof.
  intros H. unfold detectKeywords. cbv zeta.
  repeat match goal with |- Inv (match ?c with _ => _ end) => destruct c end;
    try assumption; try (apply Inv_triggerPause; assumption);
    prims; inv_split H.
Qed.

Lemma Inv_messagesEffect r s : Inv s -> Inv (messagesEffect r s).
Proof.
  intros H. unfold messagesEffect.
  destruct (lastOpt (messages s)) as [[c| |t e i|t|]|]; try assumption.
  - destruct (truthy c); [|assumption]. inv_split H.
  - prims. inv_split H.
  - cbv zeta.
    match goal with
    | |- context [detectKeywords r t ?s0] =>
        assert (H0 : Inv s0) by (destruct (i && (turnStartTimeRef s =? 0)); inv_split H);
        generalize (Inv_detectKeywords r t s0 H0); generalize (detectKeywords r t s0)
    end.
    intros s1 H1.
    match goal with
    | |- context [if negb i && truthy t then _ (_ _ _ ?s2) else _] =>
        assert (H2 : Inv s2)
          by (destruct (i && negb (isInterruptingRef s1));
              [apply Inv_callLLMJudge|]; assumption);
        generalize dependent s2
    end.
    intros s2 H2. destruct (negb i && truthy t); [|assumption].
    prims. inv_split H2.
  - cbv zeta. destruct (truthy t); inv_split H.
Qed.

Lemma Inv_resumeEffect r s : Inv s -> Inv (resumeEffect r s).
Proof.
  intros H. unfold resumeEffect.
  destruct (negb (r_isPaused r) || r_isMuted r); [assumption|].
  destruct (lastOpt (messages s)) as [[c| |t e i|t|]|]; try assumption.
  destruct (_ && _); [|assumption]. apply Inv_handleResume. assumption.
Qed.

Lemma Inv_commit s : Inv s -> Inv (commit s).
Proof.
  intros H. unfold commit. cbv zeta.
  match goal with
  | |- context [messagesEffect _ ?s0] =>
      assert (H0 : Inv s0); [|generalize dependent s0]
  end.
  { match goal with |- Inv (if ?c then _ else _) => destruct c end.
    - inv_split H; cbn; rewrite Hsync; auto.
    - inv_split H. }
  intros s0 H0.
  match goal with
  | |- context [resumeEffect _ ?s1] =>
      assert (H1 : Inv s1); [|generalize dependent s1]
  end.
  { match goal with |- Inv (if ?c then _ else _) => destruct c end;
      [apply Inv_messagesEffect|]; assumption. }
  intros s1 H1.
  match goal with |- Inv (if ?c then _ else _) => destruct c end;
    [apply Inv_resumeEffect|]; assumption.
Qed.

Lemma Inv_rerender n s : Inv s -> Inv (rerender n s).
Proof.
  revert s. induction n as [|n IH]; intros s H; cbn; [assumption|].
  destruct (stable s); [assumption|]. apply IH, Inv_commit, H.
Qed.

Lemma Inv_settle s : Inv s -> Inv (settle s).
Proof. apply Inv_rerender. Qed.

Lemma Inv_runTask t s : Inv s -> Inv (runTask t s).
Proof.
  intros H. destruct t; cbn [runTask].
  - apply Inv_interruptSettled, H.
  - prims. inv_split H.
  - cbv zeta. prims. cbn. inv_split H.
  - prims. inv_split H.
  - destruct (isInterruptingRef s) eqn:E; cbn; [assumption|]. prims. inv_split H.
  - prims. inv_split H.
Qed.

Lemma Inv_step s e s' : Inv s -> step s e = Some s' -> Inv s'.
Proof.
  intros H. destruct e as [m|id r|id r| |d]; cbn [step].
  - intros [= <-]. apply Inv_settle. inv_split H.
  - intros [= <-]. apply Inv_settle, Inv_judgeResponded, H.
  - intros [= <-]. apply Inv_settle, Inv_inputResponded, H.
  - destruct (nextTimer s) as [tm|]; [|discriminate]. intros [= <-].
    apply Inv_settle, Inv_runTask. prims. inv_split H.
  - destruct (_ && _); [|discriminate]. intros [= <-]. inv_split H.
Qed.

Lemma Inv_run es : forall s s', Inv s -> run s es = Some s' -> Inv s'.
Proof.
  induction es as [|e es IH]; intros s s' H; cbn.
  - intros [= <-]. assumption.
  - destruct (step s e) as [s1|] eqn:E; [|discriminate].
    apply IH. eapply Inv_step; eassumption.
Qed.

Lemma Inv_init t0 : Inv (init t0).
Proof.
  constructor; cbn; try discriminate; try reflexivity.
  - intros tm [].
  - intros id [].
  - constructor.
  - constructor.
Qed.

Lemma reachable_Inv s : reachable s -> Inv s.
Proof. intros (t0 & es & _ & H). eapply Inv_run; [apply Inv_init | exact H]. Qed.

(** ** Three renders reach a stable state *)

Lemma frame_refl s : frame s s.
Proof. repeat split. Qed.

Lemma frame_trans a b c : frame a b -> frame b c -> frame a c.
Proof. unfold frame. intros (?&?&?) (?&?&?). repeat split; congruence. Qed.

Lemma sameFlags_refl s : sameFlags s s.
Proof. split; reflexivity. Qed.

Lemma sameFlags_trans a b c : sameFlags a b -> sameFlags b c -> sameFlags a c.
Proof. unfold sameFlags. intros (?&?) (?&?). split; congruence. Qed.

Create HintDb render.
#[local] Hint Resolve frame_refl sameFlags_refl : render.

Ltac frame_solve := unfold frame, sameFlags; prims; cbn; repeat split; reflexivity.

Lemma callLLMJudge_frame sp s :
  frame s (callLLMJudge sp s) /\ sameFlags s (callLLMJudge sp s).
Proof.
  unfold callLLMJudge, dispatchJudge.
  repeat match goal with |- context [if ?c then _ else _] => destruct c end;
    auto with render.
  cbv zeta. cbn. destruct (judgeAbortControllerRef s); frame_solve.
Qed.

Lemma find_pause_phrase paused t :
  find (fun kw => includes (toLowerCase t) kw && negb paused) PAUSE_KEYWORDS <> None ->
  paused = false /\ isPausePhrase t = true.
Proof.
  unfold isPausePhrase. intros H.
  destruct (find _ _) as [kw|] eqn:E; [|congruence].
  apply find_some in E. destruct E as [Hin Hk]. apply andb_true_iff in Hk.
  destruct Hk as [Hk Hp]. split.
  - destruct paused; [discriminate|reflexivity].
  - apply existsb_exists. exists kw. split; assumption.
Qed.

Lemma find_pause_none t :
  isPausePhrase t = false ->
  forall paused,
    find (fun kw => includes (toLowerCase t) kw && negb paused) PAUSE_KEYWORDS = None.
Proof.
  intros H paused. destruct (find _ _) eqn:E; [|reflexivity].
  assert (Hn : find (fun kw => includes (toLowerCase t) kw && negb paused) PAUSE_KEYWORDS
               <> None) by congruence.
  apply find_pause_phrase in Hn. destruct Hn. congruence.
Qed.

Lemma triggerPause_flags s :
  frame s (triggerPause s) /\
  (sameFlags s (triggerPause s) \/
   (isInterruptingRef s = false /\ isPaused (triggerPause s) = true /\
    isMuted (triggerPause s) = true)).
Proof.
  unfold triggerPause. destruct (isInterruptingRef s) eqn:E.
  - split; [apply frame_refl | left; apply sameFlags_refl].
  - cbv zeta. cbn. destruct (micUnmuteTimeoutRef s); split;
      try frame_solve; right; repeat split.
Qed.

Lemma handleResume_flags s :
  frame s (handleResume s) /\
  (sameFlags s (handleResume s) \/
   (isInterruptingRef s = false /\ isPaused (handleResume s) = false /\
    isMuted (handleResume s) = false)).
Proof.
  unfold handleResume. destruct (isInterruptingRef s) eqn:E.
  - split; [apply frame_refl | left; apply sameFlags_refl].
  - cbv zeta. cbn. destruct (micUnmuteTimeoutRef s); split;
      try frame_solve; right; repeat split.
Qed.

Lemma detectKeywords_flags r t s :
  frame s (detectKeywords r t s) /\
  (sameFlags s (detectKeywords r t s) \/
   (r_isPaused r = false /\ isPausePhrase t = true /\
    isPaused (detectKeywords r t s) = true /\ isMuted (detectKeywords r t s) = true)).
Proof.
  unfold detectKeywords. cbv zeta.
  destruct (find (fun kw => includes (toLowerCase t) kw && negb (r_isPaused r)) PAUSE_KEYWORDS)
    eqn:E.
  - assert (Hn : find (fun kw => includes (toLowerCase t) kw && negb (r_isPaused r))
                   PAUSE_KEYWORDS <> None) by congruence.
    apply find_pause_phrase in Hn. destruct Hn as [Hp Hph].
    destruct (triggerPause_flags s) as [Hf [Hs|(_ & H1 & H2)]];
      (split; [assumption|]); [left; assumption | right; repeat split; assumption].
  - repeat match goal with |- context [match ?c with _ => _ end] => destruct c end;
      split; try frame_solve; left; frame_solve.
Qed.

Lemma messagesEffect_flags r s :
  frame s (messagesEffect r s) /\
  (sameFlags s (messagesEffect r s) \/
   (r_isPaused r = false /\ (exists t, lastUserText s = Some t /\ isPausePhrase t = true) /\
    isPaused (messagesEffect r s) = true /\ isMuted (messagesEffect r s) = true)).
Proof.
  unfold messagesEffect, lastUserText.
  destruct (lastOpt (messages s)) as [[c| |t e i|t|]|];
    try (split; [apply frame_refl | left; apply sameFlags_refl]).
  - destruct (truthy c); split; try frame_solve; left; frame_solve.
  - split; [frame_solve | left; frame_solve].
  - cbv zeta.
    match goal with
    | |- context [detectKeywords r t ?s0] =>
        assert (H0 : frame s s0 /\ sameFlags s s0)
          by (destruct (i && (turnStartTimeRef s =? 0)); split; frame_solve);
        destruct (detectKeywords_flags r t s0) as [Hf1 Hd];
        generalize dependent (detectKeywords r t s0)
    end.
    intros s1 Hf1 Hd.
    match goal with
    | |- context [if negb i && truthy t then _ (_ _ _ ?s2) else _] =>
        assert (H2 : frame s1 s2 /\ sameFlags s1 s2)
          by (destruct (i && negb (isInterruptingRef s1));
              [apply callLLMJudge_frame | split; auto with render]);
        generalize dependent s2
    end.
    intros s2 [Hf2 Hs2].
    match goal with
    | |- context [if ?c then ?a else ?b] =>
        assert (H3 : frame s2 (if c then a else b) /\ sameFlags s2 (if c then a else b))
          by (destruct c; split; frame_solve);
        generalize dependent (if c then a else b)
    end.
    intros s3 [Hf3 Hs3]. destruct H0 as [Hf0 Hs0].
    split; [eauto using frame_trans|].
    destruct Hd as [Hd|(Hp & Hph & H1 & H2)].
    + left. eauto using sameFlags_trans.
    + right. split; [assumption|]. split; [exists t; auto|].
      destruct Hs2, Hs3. split; congruence.
  - cbv zeta. destruct (truthy t); split; try frame_solve; left; frame_solve.
Qed.

Lemma resumeEffect_flags r s :
  frame s (resumeEffect r s) /\
  (sameFlags s (resumeEffect r s) \/
   (r_isPaused r = true /\ r_isMuted r = false /\
    (exists t, lastUserText s = Some t /\ isPausePhrase t = false) /\
    isPaused (resumeEffect r s) = false /\ isMuted (resumeEffect r s) = false)).
Proof.
  unfold resumeEffect, lastUserText.
  destruct (r_isPaused r) eqn:Ep, (r_isMuted r) eqn:Em; cbn [negb orb andb];
    try (split; [apply frame_refl | left; apply sameFlags_refl]).
  destruct (lastOpt (messages s)) as [[c| |t e i|t|]|];
    try (split; [apply frame_refl | left; apply sameFlags_refl]).
  destruct (isPausePhrase t) eqn:Eph; cbn [negb orb andb];
    try (split; [apply frame_refl | left; apply sameFlags_refl]).
  destruct (Nat.ltb 3 (String.length t));
    try (split; [apply frame_refl | left; apply sameFlags_refl]).
  destruct (handleResume_flags s) as [Hf [Hs|(_ & H1 & H2)]];
    (split; [assumption|]); [left; assumption|].
  right. repeat split; try assumption. exists t. auto.
Qed.

(** What one render does to the values the effects depend on. *)
Lemma commit_outcome s :
  rendered (commit s) = snapshot s /\
  messages (commit s) = messages s /\
  isInterrupting (commit s) = isInterrupting s /\
  (sameFlags s (commit s) \/
   (isPaused s = false /\ (exists t, lastUserText s = Some t /\ isPausePhrase t = true) /\
    isPaused (commit s) = true /\ isMuted (commit s) = true) \/
   (isPaused s = true /\ isMuted s = false /\
    (exists t, lastUserText s = Some t /\ isPausePhrase t = false) /\
    isPaused (commit s) = false /\ isMuted (commit s) = false)).
Proof.
  unfold commit. cbv zeta.
  set (r := snapshot s).
  match goal with
  | |- context [messagesEffect r ?s0] =>
      assert (H0 : (frame (set_rendered r s) s0 /\ sameFlags s s0) /\
                   lastUserText s0 = lastUserText s)
        by (match goal with |- context [if ?c then _ else _] => destruct c end;
            repeat split);
      generalize dependent s0
  end.
  intros s0 [[Hf0 Hs0] Hl0].
  match goal with
  | |- context [resumeEffect r ?s1] =>
      assert (H1 : frame s0 s1 /\
                (sameFlags s0 s1 \/
                 (r_isPaused r = false /\
                  (exists t, lastUserText s0 = Some t /\ isPausePhrase t = true) /\
                  isPaused s1 = true /\ isMuted s1 = true)))
        by (match goal with |- context [if ?c then _ else _] => destruct c end;
            [apply messagesEffect_flags | split; [apply frame_refl | left; apply sameFlags_refl]]);
      generalize dependent s1
  end.
  intros s1 [Hf1 Hm].
  match goal with
  | |- context [if ?c then ?a else ?b] =>
      assert (H2 : frame s1 (if c then a else b) /\
                (sameFlags s1 (if c then a else b) \/
                 (r_isPaused r = true /\ r_isMuted r = false /\
                  (exists t, lastUserText s1 = Some t /\ isPausePhrase t = false) /\
                  isPaused (if c then a else b) = false /\
                  isMuted (if c then a else b) = false)))
        by (destruct c;
            [apply resumeEffect_flags | split; [apply frame_refl | left; apply sameFlags_refl]]);
      generalize dependent (if c then a else b)
  end.
  intros s2 [Hf2 Hr].
  assert (Hf : frame (set_rendered r s) s2) by eauto using frame_trans.
  destruct Hf as (Hmsg & Hint & Hren). cbn in Hmsg, Hint, Hren.
  assert (Hl1 : lastUserText s1 = lastUserText s).
  { rewrite <- Hl0. unfold lastUserText. destruct Hf1 as (-> & _). reflexivity. }
  repeat split; try assumption.
  subst r. cbn in *.
  destruct Hm as [Hm|(Hp & Hex & Hp1 & Hm1)].
  - destruct Hr as [Hr|(Hp & Hmu & Hex & Hp2 & Hm2)].
    + left. eauto using sameFlags_trans.
    + right. right. rewrite Hl1 in Hex. repeat split; assumption.
  - destruct Hr as [Hr|(Hp' & _)]; [|congruence].
    right. left. rewrite Hl0 in Hex. destruct Hr as [Hr1 Hr2].
    repeat split; try assumption; congruence.
Qed.

Lemma commit_quiet s :
  r_messages (rendered s) = List.length (messages s) ->
  r_isPaused (rendered s) = isPaused s ->
  r_isMuted (rendered s) = isMuted s ->
  r_isInterrupting (rendered s) = isInterrupting s ->
  stable (commit s) = true.
Proof.
  intros H1 H2 H3 H4. unfold commit. cbn.
  rewrite H1, H2, H3, H4, Nat.eqb_refl, !Bool.eqb_reflx. cbn.
  unfold stable. apply Render_eqb_eq. reflexivity.
Qed.

Lemma commit_twice_stable s : sameFlags s (commit s) -> stable (commit (commit s)) = true.
Proof.
  intros [Hp Hm]. destruct (commit_outcome s) as (Hr & Hmsg & Hint & _).
  apply commit_quiet; rewrite Hr; cbn; congruence.
Qed.

Theorem settle_stable s : stable (settle s) = true.
Proof.
  unfold settle. cbn [rerender].
  destruct (stable s) eqn:E0; [assumption|].
  destruct (stable (commit s)) eqn:E1; [assumption|].
  destruct (stable (commit (commit s))) eqn:E2; [assumption|].
  destruct (commit_outcome s) as (Hr & Hmsg & Hint & Ho).
  destruct Ho as [Hs|[(Hp & _ & Hp1 & Hm1)|(Hp & Hm & (t & Ht & Hph) & Hp1 & Hm1)]].
  - rewrite (commit_twice_stable s Hs) in E2. discriminate.
  - apply commit_twice_stable.
    destruct (commit_outcome (commit s)) as (_ & _ & _ & Ho').
    destruct Ho' as [Hs'|[(Hq & _)|(_ & Hq & _)]]; [assumption|congruence|congruence].
  - apply commit_twice_stable.
    destruct (commit_outcome (commit s)) as (_ & _ & _ & Ho').
    destruct Ho' as [Hs'|[(_ & (t' & Ht' & Hph') & _)|(Hq & _)]];
      [assumption| |congruence].
    unfold lastUserText in Ht'. rewrite Hmsg in Ht'. unfold lastUserText in Ht.
    rewrite Ht in Ht'. congruence.
Qed.

(** ** Reachable states are stable *)

Lemma stable_step s e s' : stable s = true -> step s e = Some s' -> stable s' = true.
Proof.
  intros H. destruct e as [m|id r|id r| |d]; cbn [step].
  - intros [= <-]. apply settle_stable.
  - intros [= <-]. apply settle_stable.
  - intros [= <-]. apply settle_stable.
  - destruct (nextTimer s); [|discriminate]. intros [= <-]. apply settle_stable.
  - destruct (_ && _); [|discriminate]. intros [= <-]. exact H.
Qed.

Lemma stable_run es : forall s s', stable s = true -> run s es = Some s' -> stable s' = true.
Proof.
  induction es as [|e es IH]; intros s s' H; cbn.
  - intros [= <-]. assumption.
  - destruct (step s e) as [s1|] eqn:E; [|discriminate].
    apply IH. eapply stable_step; eassumption.
Qed.

Lemma reachable_stable s : reachable s -> stable s = true.
Proof. intros (t0 & es & _ & H). eapply stable_run; [|exact H]. reflexivity. Qed.

(** ** Renders in which no effect acts *)

(** The state after a render that ran no effect, or only effects that
    returned at once. *)
Lemma set_isInterruptingRef_same s : set_isInterruptingRef (isInterruptingRef s) s = s.
Proof. destruct s; reflexivity. Qed.

Lemma commit_idle s :
  r_messages (rendered s) = List.length (messages s) ->
  r_isPaused (rendered s) = isPaused s ->
  isPaused s = false ->
  isInterruptingRef s = isInterrupting s ->
  commit s = set_rendered (snapshot s) s.
Proof.
  intros H1 H2 H3 H4. unfold commit. cbv zeta. cbn [snapshot r_messages r_isPaused r_isMuted r_isInterrupting].
  rewrite H1, H2, Nat.eqb_refl, Bool.eqb_reflx. cbn [negb orb].
  assert (E : (if negb (Bool.eqb (isInterrupting s) (r_isInterrupting (rendered s)))
               then set_isInterruptingRef (isInterrupting s) (set_rendered (snapshot s) s)
               else set_rendered (snapshot s) s) = set_rendered (snapshot s) s).
  { destruct (negb _); [|reflexivity]. rewrite <- H4. destruct s; reflexivity. }
  rewrite E.
  destruct (negb (Bool.eqb (isMuted s) (r_isMuted (rendered s)))); [|reflexivity].
  unfold resumeEffect. cbn. rewrite H3. reflexivity.
Qed.

Lemma settle_idle s :
  r_messages (rendered s) = List.length (messages s) ->
  r_isPaused (rendered s) = isPaused s ->
  isPaused s = false ->
  isInterruptingRef s = isInterrupting s ->
  settle s = set_rendered (snapshot s) s.
Proof.
  intros H1 H2 H3 H4. unfold settle. cbn [rerender].
  destruct (stable s) eqn:E.
  - apply stable_rendered in E. rewrite <- E. destruct s; reflexivity.
  - rewrite (commit_idle s H1 H2 H3 H4).
    assert (Hs : stable (set_rendered (snapshot s) s) = true)
      by (unfold stable; apply Render_eqb_eq; reflexivity).
    rewrite Hs. reflexivity.
Qed.

(** ** One interruption, step by step *)

Lemma existsb_In_nat id l : In id l -> existsb (Nat.eqb id) l = true.
Proof. intros H. apply existsb_exists. exists id. split; [assumption|apply Nat.eqb_refl]. Qed.

Ltac obs_intro H :=
  destruct H as (Htr & Hclk & Htm & Hnid & Hinp & Href & Hint & Hcool & Hmu & Hhist & Hconv &
                 Hchat & Hpaused & Hrm & Hrp).

Ltac obs_settle :=
  rewrite settle_idle by (prims; cbn; congruence).

Ltac obs_finish :=
  repeat (progress (rewrite ?Nat.eqb_refl; cbn));
  rewrite ?Z.max_r by lia; rewrite <- ?app_assoc; cbn;
  try reflexivity; try congruence.

Ltac obs_solve :=
  unfold observes; prims; cbn;
  repeat match goal with |- _ /\ _ => split end;
  try reflexivity; try assumption; try congruence.

Lemma step_verdict cid s o id m :
  observes cid s o -> o_interrupting o = false -> truthy cid = true -> truthy m = true ->
  In id (judgeInFlight s) ->
  exists s',
    step s (E_judgeResponse id (J_ok true (Some m))) = Some s' /\
    observes cid s'
      {| o_trace := o_trace o ++ [(o_clock o, Mute); (o_clock o, PauseAssistant)];
         o_clock := o_clock o;
         o_timers := o_timers o ++
                     [{| tid := o_nextId o; due := o_clock o + 200;
                         task := T_interruptSettled m |}];
         o_nextId := S (o_nextId o);
         o_input := o_input o;
         o_interrupting := true;
         o_cooldown := true;
         o_muted := true;
         o_history := o_history o;
         o_conversation := o_conversation o |}.
Proof.
  intros H Hidle Hcid Hm Hfl. obs_intro H. apply existsb_In_nat in Hfl.
  eexists. split.
  - cbn [step]. unfold judgeResponded. rewrite Hfl. cbv zeta.
    cbn [chatIdRef set_judgeInFlight]. rewrite Hchat. cbn [truthyOpt andb].
    rewrite Hm, Hcid. cbn [andb].
    unfold triggerInterrupt. cbn [chatIdRef isInterruptingRef set_judgeInFlight].
    rewrite Hchat, Href, Hidle. cbn [truthyOpt]. rewrite Hcid. cbn [negb orb]. cbv zeta.
    obs_settle. reflexivity.
  - obs_solve. rewrite Htr, Hclk, <- app_assoc. reflexivity.
Qed.

Lemma step_settled cid s o k m :
  observes cid s o ->
  o_timers o = [{| tid := k; due := o_clock o + 200; task := T_interruptSettled m |}] ->
  exists s',
    step s E_timer = Some s' /\
    observes cid s'
      {| o_trace := o_trace o ++
                    [(o_clock o + 200, FetchAssistantInput (o_nextId o) (Some cid) m)];
         o_clock := o_clock o + 200;
         o_timers := [];
         o_nextId := S (o_nextId o);
         o_input := o_input o ++ [(o_nextId o, m)];
         o_interrupting := o_interrupting o;
         o_cooldown := o_cooldown o;
         o_muted := o_muted o;
         o_history := o_history o;
         o_conversation := o_conversation o |}.
Proof.
  intros H Hto. obs_intro H. rewrite Hto in Htm.
  eexists. split.
  - cbn [step]. unfold nextTimer. rewrite Htm. cbn [earliest task tid due runTask].
    unfold interruptSettled. cbv zeta. obs_settle. reflexivity.
  - obs_solve; rewrite ?Htm, ?Hclk; obs_finish.
Qed.

Lemma step_wait cid s o L :
  observes cid s o -> o_timers o = [] -> 0 <= L ->
  exists s',
    step s (E_wait L) = Some s' /\
    observes cid s'
      {| o_trace := o_trace o; o_clock := o_clock o + L; o_timers := [];
         o_nextId := o_nextId o; o_input := o_input o;
         o_interrupting := o_interrupting o; o_cooldown := o_cooldown o;
         o_muted := o_muted o; o_history := o_history o;
         o_conversation := o_conversation o |}.
Proof.
  intros H Hto HL. obs_intro H. rewrite Hto in Htm.
  eexists. split.
  - cbn [step]. rewrite Htm. cbn [forallb]. apply Z.leb_le in HL. rewrite HL. reflexivity.
  - obs_solve.
Qed.

Lemma step_injected cid s o i m r :
  observes cid s o -> o_input o = [(i, m)] ->
  exists s',
    step s (E_inputResponse i r) = Some s' /\
    observes cid s'
      {| o_trace := o_trace o;
         o_clock := o_clock o;
         o_timers := o_timers o ++
                     [{| tid := o_nextId o; due := o_clock o + 100; task := T_resumeAssistant |};
                      {| tid := S (o_nextId o); due := o_clock o + 4000; task := T_unmuteUser |}];
         o_nextId := S (S (o_nextId o));
         o_input := [];
         o_interrupting := o_interrupting o;
         o_cooldown := o_cooldown o;
         o_muted := o_muted o;
         o_history := o_history o ++ [{| h_role := assistant; h_content := m |}];
         o_conversation := o_conversation o ++ [interruptMessage m (o_clock o)] |}.
Proof.
  intros H Hio. obs_intro H. rewrite Hio in Hinp.
  eexists. split.
  - cbn [step]. unfold inputResponded. rewrite Hinp. cbn [find fst]. rewrite Nat.eqb_refl.
    unfold interruptInjected. cbv zeta. obs_settle. reflexivity.
  - obs_solve; rewrite ?Hinp, ?Htm, ?Hclk, ?Hnid; unfold interruptMessage; obs_finish.
Qed.

Lemma step_resumed cid s o a d tm :
  observes cid s o ->
  o_timers o = [{| tid := a; due := d; task := T_resumeAssistant |}; tm] ->
  o_clock o <= d -> d <= due tm -> tid tm <> a ->
  exists s',
    step s E_timer = Some s' /\
    observes cid s'
      {| o_trace := o_trace o ++ [(d, ResumeAssistant)];
         o_clock := d; o_timers := [tm];
         o_nextId := o_nextId o; o_input := o_input o;
         o_interrupting := o_interrupting o; o_cooldown := o_cooldown o;
         o_muted := o_muted o; o_history := o_history o;
         o_conversation := o_conversation o |}.
Proof.
  intros H Hto Hd Hle Hne. obs_intro H. rewrite Hto in Htm.
  assert (Hlt : (due tm <? d) = false) by (apply Z.ltb_ge; assumption).
  assert (Hid : Nat.eqb (tid tm) a = false) by (apply Nat.eqb_neq; assumption).
  eexists. split.
  - cbn [step]. unfold nextTimer. rewrite Htm. cbn [earliest task tid due]. rewrite Hlt.
    cbn [earliest task tid due runTask]. obs_settle. reflexivity.
  - obs_solve; rewrite ?Htm, ?Hclk; cbn; rewrite ?Hid; obs_finish.
Qed.

Lemma step_unmuted cid s o a d :
  observes cid s o ->
  o_timers o = [{| tid := a; due := d; task := T_unmuteUser |}] -> o_clock o <= d ->
  exists s',
    step s E_timer = Some s' /\
    observes cid s'
      {| o_trace := o_trace o ++ [(d, Unmute)];
         o_clock := d;
         o_timers := [{| tid := o_nextId o; due := d + 8000; task := T_cooldownEnd |}];
         o_nextId := S (o_nextId o); o_input := o_input o;
         o_interrupting := false; o_cooldown := o_cooldown o;
         o_muted := false; o_history := o_history o;
         o_conversation := o_conversation o |}.
Proof.
  intros H Hto Hd. obs_intro H. rewrite Hto in Htm.
  eexists. split.
  - cbn [step]. unfold nextTimer. rewrite Htm. cbn [earliest task tid due runTask].
    cbv zeta. obs_settle. reflexivity.
  - obs_solve; rewrite ?Htm, ?Hclk; obs_finish.
Qed.

Lemma step_cooled cid s o a d :
  observes cid s o ->
  o_timers o = [{| tid := a; due := d; task := T_cooldownEnd |}] -> o_clock o <= d ->
  exists s',
    step s E_timer = Some s' /\
    observes cid s'
      {| o_trace := o_trace o ++ [(d, LogCooldownEnded)];
         o_clock := d; o_timers := [];
         o_nextId := o_nextId o; o_input := o_input o;
         o_interrupting := o_interrupting o; o_cooldown := false;
         o_muted := o_muted o; o_history := o_history o;
         o_conversation := o_conversation o |}.
Proof.
  intros H Hto Hd. obs_intro H. rewrite Hto in Htm.
  eexists. split.
  - cbn [step]. unfold nextTimer. rewrite Htm. cbn [earliest task tid due runTask].
    obs_settle. reflexivity.
  - obs_solve; rewrite ?Htm, ?Hclk; obs_finish.
Qed.

Lemma run_app es1 : forall s es2,
  run s (es1 ++ es2) = match run s es1 with Some s' => run s' es2 | None => None end.
Proof.
  induction es1 as [|e es1 IH]; intros s es2; cbn; [reflexivity|].
  destruct (step s e); [apply IH|reflexivity].
Qed.

Lemma idleWith_observes cid id s :
  idleWith cid id s ->
  observes cid s
    {| o_trace := trace s; o_clock := clock s; o_timers := []; o_nextId := nextId s;
       o_input := []; o_interrupting := false; o_cooldown := false; o_muted := isMuted s;
       o_history := conversationHistoryRef s; o_conversation := conversation s |}.
Proof.
  intros (Hst & Hc & Hcid & Href & Hint & Hcool & Hp & Htm & Hin & Hfl).
  apply stable_rendered in Hst. unfold observes. cbn. rewrite Hst. cbn.
  repeat split; assumption.
Qed.

(** The state [s6] in which the microphone has been re-opened and the
    cooldown runs, and the state [s7] in which the cooldown has ended. *)
Lemma interrupt_run s cid id m L r :
  idleWith cid id s -> truthy m = true -> 0 <= L ->
  exists s6 s7,
    run s (firstn 6 (interruptEvents id (nextId s) m L r)) = Some s6 /\
    step s6 E_timer = Some s7 /\
    observes cid s6
      {| o_trace := trace s ++ firstn 5 (interruptTrace (clock s) (nextId s) cid m L);
         o_clock := clock s + 200 + L + 4000;
         o_timers := [{| tid := 4 + nextId s; due := clock s + 200 + L + 4000 + 8000;
                         task := T_cooldownEnd |}];
         o_nextId := 5 + nextId s; o_input := [];
         o_interrupting := false; o_cooldown := true; o_muted := false;
         o_history := conversationHistoryRef s ++ [{| h_role := assistant; h_content := m |}];
         o_conversation := conversation s ++ [interruptMessage m (clock s + 200 + L)] |} /\
    observes cid s7
      {| o_trace := trace s ++ interruptTrace (clock s) (nextId s) cid m L;
         o_clock := clock s + 200 + L + 4000 + 8000;
         o_timers := [];
         o_nextId := 5 + nextId s; o_input := [];
         o_interrupting := false; o_cooldown := false; o_muted := false;
         o_history := conversationHistoryRef s ++ [{| h_role := assistant; h_content := m |}];
         o_conversation := conversation s ++ [interruptMessage m (clock s + 200 + L)] |}.
Proof.
  intros Hidle Hm HL.
  pose proof (idleWith_observes _ _ _ Hidle) as H0.
  destruct Hidle as (_ & _ & Hcid & _ & _ & _ & _ & _ & _ & Hfl).
  destruct (step_verdict _ _ _ id m H0 eq_refl Hcid Hm Hfl) as (s1 & E1 & H1).
  cbn [o_trace o_clock o_timers o_nextId o_input o_interrupting o_cooldown o_muted
       o_history o_conversation app] in H1.
  destruct (step_settled _ _ _ _ _ H1 eq_refl) as (s2 & E2 & H2).
  cbn [o_trace o_clock o_timers o_nextId o_input o_interrupting o_cooldown o_muted
       o_history o_conversation app] in H2.
  destruct (step_wait _ _ _ L H2 eq_refl HL) as (s3 & E3 & H3).
  cbn [o_trace o_clock o_timers o_nextId o_input o_interrupting o_cooldown o_muted
       o_history o_conversation app] in H3.
  destruct (step_injected _ _ _ _ _ r H3 eq_refl) as (s4 & E4 & H4).
  cbn [o_trace o_clock o_timers o_nextId o_input o_interrupting o_cooldown o_muted
       o_history o_conversation app] in H4.
  destruct (step_resumed _ _ _ _ _ _ H4 eq_refl) as (s5 & E5 & H5);
    [cbn; lia | cbn; lia | cbn; lia |].
  cbn [o_trace o_clock o_timers o_nextId o_input o_interrupting o_cooldown o_muted
       o_history o_conversation app] in H5.
  destruct (step_unmuted _ _ _ _ _ H5 eq_refl) as (s6 & E6 & H6); [cbn; lia|].
  cbn [o_trace o_clock o_timers o_nextId o_input o_interrupting o_cooldown o_muted
       o_history o_conversation app] in H6.
  destruct (step_cooled _ _ _ _ _ H6 eq_refl) as (s7 & E7 & H7); [cbn; lia|].
  cbn [o_trace o_clock o_timers o_nextId o_input o_interrupting o_cooldown o_muted
       o_history o_conversation app] in H7.
  exists s6, s7. split; [|split; [exact E7|split]].
  - cbn [interruptEvents firstn run]. rewrite E1, E2, E3, E4, E5, E6. reflexivity.
  - unfold interruptTrace. cbn [firstn]. rewrite <- !app_assoc in H6. cbn [app] in H6.
    exact H6.
  - unfold interruptTrace. rewrite <- !app_assoc in H7. cbn [app] in H7. exact H7.
Qed.

(** ** The judge client *)

Lemma Qlt_bool_speakingTime s :
  Qlt_bool (speakingTime s) MIN_SPEAKING_TIME_S = (clock s - turnStartTimeRef s <? 1500).
Proof.
  unfold Qlt_bool, speakingTime, MIN_SPEAKING_TIME_S, Qle_bool. cbn [Qnum Qden].
  destruct (Z.ltb_spec (clock s - turnStartTimeRef s) 1500);
    destruct (Z.leb_spec (3 * 1000) ((clock s - turnStartTimeRef s) * 2));
    cbn; try reflexivity; lia.
Qed.

Lemma callLLMJudge_preconditions speech s :
  callLLMJudge speech s = if judgePreconditions speech s then dispatchJudge speech s else s.
Proof.
  unfold callLLMJudge, judgePreconditions, MIN_WORDS_FOR_JUDGE, JUDGE_DEBOUNCE_MS.
  rewrite Qlt_bool_speakingTime.
  destruct (interruptCooldownRef s), (isInterruptingRef s); cbn [orb negb andb]; try reflexivity.
  rewrite Nat.ltb_antisym.
  destruct (Nat.leb 8 (wordCount speech)); cbn [negb andb]; [|reflexivity].
  rewrite Z.ltb_antisym.
  destruct (1500 <=? clock s - turnStartTimeRef s); cbn [negb andb]; [|reflexivity].
  rewrite Z.ltb_antisym.
  destruct (400 <=? clock s - lastJudgeTimeRef s); reflexivity.
Qed.

Lemma dispatchJudge_trace speech s :
  judgeTimes (trace (dispatchJudge speech s)) = (judgeTimes (trace s) ++ [clock s])%list.
Proof.
  unfold dispatchJudge. cbv zeta. cbn.
  destruct (judgeAbortControllerRef s); prims; cbn;
    rewrite judgeTimes_snoc_fetch; trace_simpl; reflexivity.
Qed.

(** C3: [callLLMJudge] issues its network call exactly when the four
    preconditions hold (no interruption and no cooldown, at least 8 words,
    at least 1.5 s of speaking time, at least 400 ms since the previous
    call was issued); otherwise it returns with the state untouched.  In
    particular an utterance of fewer than 8 words never causes a call. *)
Theorem C3_judge_preconditions speech s :
  callLLMJudge speech s =
    (if judgePreconditions speech s then dispatchJudge speech s else s) /\
  judgeTimes (trace (dispatchJudge speech s)) = (judgeTimes (trace s) ++ [clock s])%list /\
  ((wordCount speech < MIN_WORDS_FOR_JUDGE)%nat -> callLLMJudge speech s = s).
Proof.
  split; [apply callLLMJudge_preconditions|]. split; [apply dispatchJudge_trace|].
  intros Hw. rewrite callLLMJudge_preconditions. unfold judgePreconditions.
  unfold MIN_WORDS_FOR_JUDGE in Hw.
  assert (E : Nat.leb 8 (wordCount speech) = false) by (apply Nat.leb_gt; exact Hw).
  rewrite E. rewrite andb_false_r. reflexivity.
Qed.

Lemma C3_witness :
  (wordCount "can you hear me" < MIN_WORDS_FOR_JUDGE)%nat /\
  callLLMJudge "can you hear me" demoState = demoState.
Proof.
  assert (H : (wordCount "can you hear me" < MIN_WORDS_FOR_JUDGE)%nat)
    by (vm_compute; lia).
  split; [exact H|].
  exact (proj2 (proj2 (C3_judge_preconditions "can you hear me" demoState)) H).
Defined.

(** ** Verdicts that start nothing *)

Lemma stable_set_judgeInFlight l s : stable (set_judgeInFlight l s) = stable s.
Proof. reflexivity. Qed.

(** C7: a verdict with [interrupt = true] whose message is missing or empty
    is handled like a response that is not ok: nothing is emitted and no
    flag or timer changes; and while no chat id is known [triggerInterrupt]
    returns at once, so every verdict is dropped without any action. *)
Theorem C7_dropped_verdicts s id :
  (forall message, truthyOpt message = false ->
     judgeResponded id (J_ok true message) s = judgeResponded id J_notOk s) /\
  (chatIdRef s = None ->
     forall interrupt message m,
       triggerInterrupt m s = s /\
       judgeResponded id (J_ok interrupt message) s = judgeResponded id J_notOk s) /\
  trace (judgeResponded id J_notOk s) = trace s /\
  timers (judgeResponded id J_notOk s) = timers s /\
  isInterruptingRef (judgeResponded id J_notOk s) = isInterruptingRef s /\
  interruptCooldownRef (judgeResponded id J_notOk s) = interruptCooldownRef s /\
  isMuted (judgeResponded id J_notOk s) = isMuted s /\
  (stable s = true ->
     step s (E_judgeResponse id J_notOk) = Some (judgeResponded id J_notOk s)).
Proof.
  split; [|split].
  - intros message Hm. unfold judgeResponded.
    destruct (existsb (Nat.eqb id) (judgeInFlight s)); [|reflexivity].
    cbv zeta. destruct message as [m|]; [|reflexivity].
    cbn in Hm. rewrite Hm. reflexivity.
  - intros Hc interrupt message m. split.
    + unfold triggerInterrupt. rewrite Hc. reflexivity.
    + unfold judgeResponded.
      destruct (existsb (Nat.eqb id) (judgeInFlight s)); [|reflexivity].
      cbv zeta. destruct message as [m'|]; [|reflexivity].
      cbn [chatIdRef set_judgeInFlight]. rewrite Hc. cbn [truthyOpt].
      rewrite !andb_false_r. reflexivity.
  - assert (Hst : stable s = true -> stable (judgeResponded id J_notOk s) = true)
      by (unfold judgeResponded; destruct (existsb (Nat.eqb id) (judgeInFlight s)); auto).
    repeat split;
      try (unfold judgeResponded; destruct (existsb (Nat.eqb id) (judgeInFlight s));
           reflexivity).
    intros Hs. cbn [step]. rewrite settle_of_stable; auto.
Qed.

Lemma C7_witness :
  truthyOpt (Some EmptyString) = false /\
  judgeResponded 1 (J_ok true (Some EmptyString)) demoState =
  judgeResponded 1 J_notOk demoState.
Proof.
  split; [reflexivity|].
  exact (proj1 (C7_dropped_verdicts demoState 1%nat) (Some EmptyString) eq_refl).
Defined.

(** ** The interruption sequence and its timing *)

Lemma demoState_idle : idleWith "chat-1" 1 demoState.
Proof. unfold idleWith. vm_compute. repeat split; auto. Qed.

(** C2, as stated, fails on the timing.  In the demo session the verdict
    arrives at 1001800 and the assistant-input call ends at once: the
    microphone is re-opened 3900 ms (not 4000 ms) after the resume, and
    12000 ms after entering [Interrupting] the cooldown flag is still set
    (its timer is due 200 ms later). *)
Lemma C2_counterexample :
  run demoState
    [E_judgeResponse 1 (J_ok true (Some demoVerdict)); E_timer; E_inputResponse 3 I_ok;
     E_timer; E_timer; E_wait 7800] = Some demoCooling /\
  clock demoState = 1001800 /\
  isInterruptingRef demoState = false /\ interruptCooldownRef demoState = false /\
  trace demoCooling =
    (trace demoState ++
     [(1001800, Mute); (1001800, PauseAssistant);
      (1002000, FetchAssistantInput 3 (Some "chat-1") demoVerdict);
      (1002100, ResumeAssistant); (1006000, Unmute)])%list /\
  clock demoCooling = 1001800 + 12000 /\
  interruptCooldownRef demoCooling = true /\
  timers demoCooling = [{| tid := 6; due := 1001800 + 12200; task := T_cooldownEnd |}].
Proof. vm_compute. repeat split. Qed.

(** C2 (amended): from an idle orchestrator with a known chat id (pause
    controller idle, nothing else pending) an accepted verdict emits exactly
    mute, pause at once, the assistant-input call 200 ms later, and, [L]
    being the time that call takes, resume 100 ms and unmute 4000 ms after
    its end, then the end of the cooldown 8000 ms after the unmute.  Mute
    precedes pause; the orchestrator is cooling from [4200 + L] ms and idle
    again [12200 + L] ms after entering [Interrupting]. *)
Theorem C2_interrupt_sequence s cid id m L r :
  idleWith cid id s -> truthy m = true -> 0 <= L ->
  exists s6 s7,
    run s (firstn 6 (interruptEvents id (nextId s) m L r)) = Some s6 /\
    run s (interruptEvents id (nextId s) m L r) = Some s7 /\
    trace s6 = (trace s ++ firstn 5 (interruptTrace (clock s) (nextId s) cid m L))%list /\
    clock s6 = clock s + 4200 + L /\
    isInterruptingRef s6 = false /\ interruptCooldownRef s6 = true /\ isMuted s6 = false /\
    trace s7 = (trace s ++ interruptTrace (clock s) (nextId s) cid m L)%list /\
    clock s7 = clock s + 12200 + L /\
    isInterruptingRef s7 = false /\ interruptCooldownRef s7 = false /\ timers s7 = [].
Proof.
  intros Hidle Hm HL.
  destruct (interrupt_run s cid id m L r Hidle Hm HL) as (s6 & s7 & E6 & E7 & H6 & H7).
  exists s6, s7.
  assert (E : run s (interruptEvents id (nextId s) m L r) = Some s7).
  { change (interruptEvents id (nextId s) m L r)
      with (firstn 6 (interruptEvents id (nextId s) m L r) ++ [E_timer])%list.
    rewrite run_app, E6. cbn [run]. rewrite E7. reflexivity. }
  obs_intro H6.
  destruct H7 as (Htr' & Hclk' & Htm' & _ & _ & Href' & _ & Hcool' & _).
  cbn [o_trace o_clock o_timers o_interrupting o_cooldown o_muted] in *.
  split; [exact E6|]. split; [exact E|].
  repeat split; try assumption; lia.
Qed.

Lemma C2_witness :
  idleWith "chat-1" 1 demoState /\ truthy demoVerdict = true /\ 0 <= 250 /\
  exists s6 s7,
    run demoState (firstn 6 (interruptEvents 1 (nextId demoState) demoVerdict 250 I_ok))
      = Some s6 /\
    run demoState (interruptEvents 1 (nextId demoState) demoVerdict 250 I_ok) = Some s7 /\
    trace s6 = (trace demoState ++
                firstn 5 (interruptTrace (clock demoState) (nextId demoState)
                            "chat-1" demoVerdict 250))%list /\
    clock s6 = clock demoState + 4200 + 250 /\
    isInterruptingRef s6 = false /\ interruptCooldownRef s6 = true /\ isMuted s6 = false /\
    trace s7 = (trace demoState ++
                interruptTrace (clock demoState) (nextId demoState)
                  "chat-1" demoVerdict 250)%list /\
    clock s7 = clock demoState + 12200 + 250 /\
    isInterruptingRef s7 = false /\ interruptCooldownRef s7 = false /\ timers s7 = [].
Proof.
  assert (H1 : truthy demoVerdict = true) by reflexivity.
  assert (H2 : 0 <= 250) by lia.
  split; [exact demoState_idle|]. split; [exact H1|]. split; [exact H2|].
  exact (C2_interrupt_sequence demoState "chat-1" 1%nat demoVerdict 250 I_ok
           demoState_idle H1 H2).
Defined.

(** ** A failed injection changes nothing *)




(** ** Renders that leave the pause controller alone *)

Lemma calmStep_refl ok s : calmStep ok s s.
Proof.
  unfold calmStep. repeat split. exists []. rewrite app_nil_r. split; [reflexivity|constructor].
Qed.

Lemma calmStep_trans ok a b c : calmStep ok a b -> calmStep ok b c -> calmStep ok a c.
Proof.
  unfold calmStep.
  intros (?&?&?&?&?&?&l1&E1&F1) (?&?&?&?&?&?&l2&E2&F2).
  repeat split; try congruence.
  exists (l1 ++ l2)%list. split.
  - rewrite E2, E1, app_assoc. reflexivity.
  - apply Forall_app. split; assumption.
Qed.

Lemma calmStep_weaken (ok ok' : Action -> bool) s s' :
  (forall a, ok a = true -> ok' a = true) -> calmStep ok s s' -> calmStep ok' s s'.
Proof.
  unfold calmStep. intros Hw (?&?&?&?&?&?&l&E&F). repeat split; try assumption.
  exists l. split; [assumption|]. eapply Forall_impl; [|exact F]. cbn. auto.
Qed.

(** A state given by setters over [s] that touch no pause field and add
    the calls [added] to the trace. *)
Ltac calm_by added :=
  unfold calmStep; prims; cbn; repeat split;
  exists added; split;
  [ rewrite ?app_nil_r, <- ?app_assoc; reflexivity
  | repeat constructor ].

Lemma callLLMJudge_calm sp s :
  calmStep (fun a => negb (isAudioAction a)) s (callLLMJudge sp s).
Proof.
  unfold callLLMJudge, dispatchJudge.
  repeat match goal with |- context [if ?c then _ else _] => destruct c end;
    try apply calmStep_refl.
  cbv zeta. cbn. destruct (judgeAbortControllerRef s) as [c|].
  - calm_by [(clock s, AbortJudge c);
             (clock s, FetchJudge (nextId s) sp (sliceLast 4 (conversationHistoryRef s))
                         (speakingTime s))].
  - calm_by [(clock s, FetchJudge (nextId s) sp (sliceLast 4 (conversationHistoryRef s))
                         (speakingTime s))].
Qed.

Lemma callLLMJudge_ref sp s :
  isInterruptingRef (callLLMJudge sp s) = isInterruptingRef s.
Proof.
  unfold callLLMJudge, dispatchJudge.
  repeat match goal with |- context [if ?c then _ else _] => destruct c end;
    try reflexivity.
  cbv zeta. cbn. destruct (judgeAbortControllerRef s); reflexivity.
Qed.

Lemma detectKeywords_calm r t s :
  isInterruptingRef s = true \/ r_isPaused r = true \/ isPausePhrase t = false ->
  calmStep isModeSwitch s (detectKeywords r t s).
Proof.
  intros H. unfold detectKeywords. cbv zeta.
  destruct (find (fun kw => includes (toLowerCase t) kw && negb (r_isPaused r)) PAUSE_KEYWORDS)
    eqn:E.
  - assert (Hn : find (fun kw => includes (toLowerCase t) kw && negb (r_isPaused r))
                   PAUSE_KEYWORDS <> None) by congruence.
    apply find_pause_phrase in Hn. destruct Hn as [Hp Hph].
    destruct H as [H|[H|H]]; try congruence.
    unfold triggerPause. rewrite H. apply calmStep_refl.
  - destruct (find _ QUICK_KEYWORDS).
    + calm_by [(clock s, SendSessionSettings QUICK_CONTEXT)].
    + destruct (find _ DETAILED_KEYWORDS).
      * calm_by [(clock s, SendSessionSettings DETAILED_CONTEXT)].
      * apply calmStep_refl.
Qed.

Lemma detectKeywords_ref r t s :
  isInterruptingRef (detectKeywords r t s) = isInterruptingRef s.
Proof.
  unfold detectKeywords, triggerPause. cbv zeta.
  repeat match goal with |- context [match ?c with _ => _ end] => destruct c eqn:? end;
    cbn; congruence.
Qed.

Lemma messagesEffect_ref r s :
  isInterruptingRef (messagesEffect r s) = isInterruptingRef s.
Proof.
  unfold messagesEffect.
  destruct (lastOpt (messages s)) as [[c| |t e i|t|]|]; try reflexivity.
  - destruct (truthy c); reflexivity.
  - cbv zeta.
    repeat match goal with |- context [if ?c then _ else _] => destruct c end;
      cbn; rewrite ?callLLMJudge_ref, ?detectKeywords_ref; destruct (turnStartTimeRef s =? 0);
      reflexivity.
  - cbv zeta. destruct (truthy t); reflexivity.
Qed.

Lemma resumeEffect_ref r s :
  isInterruptingRef (resumeEffect r s) = isInterruptingRef s.
Proof.
  unfold resumeEffect, handleResume.
  repeat match goal with |- context [match ?c with _ => _ end] => destruct c eqn:? end;
    cbn; congruence.
Qed.

(** The effect on [messages] for a user message that cannot pause. *)
Lemma messagesEffect_calm r s t p i :
  lastOpt (messages s) = Some (user_message t p i) ->
  isInterruptingRef s = true \/ r_isPaused r = true \/ isPausePhrase t = false ->
  calmStep (fun a => negb (isAudioAction a)) s (messagesEffect r s) /\
  (i = false \/ isInterruptingRef s = true ->
   calmStep isModeSwitch s (messagesEffect r s)).
Proof.
  intros Hl H. unfold messagesEffect. rewrite Hl. cbv zeta.
  match goal with
  | |- context [detectKeywords r t ?s0] =>
      assert (H0 : calmStep isModeSwitch s s0 /\ isInterruptingRef s0 = isInterruptingRef s)
        by (destruct (i && (turnStartTimeRef s =? 0)); split; try reflexivity;
            calm_by (@nil (Z * Action)));
      assert (H1 : calmStep isModeSwitch s0 (detectKeywords r t s0))
        by (apply detectKeywords_calm; destruct H0 as [_ ->]; exact H);
      pose proof (detectKeywords_ref r t s0) as Hr1;
      generalize dependent (detectKeywords r t s0)
  end.
  intros s1 H1 Hr1.
  match goal with
  | H0 : calmStep _ s ?s0 /\ _ |- _ =>
      destruct H0 as [H0 Hr0]; rewrite Hr0 in Hr1;
      assert (H01 : calmStep isModeSwitch s s1) by (eapply calmStep_trans; eassumption);
      clear H0 H1 Hr0
  end.
  assert (Hfin : forall s2, calmStep isModeSwitch s2
            (if negb i && truthy t
             then set_turnStartTimeRef 0 (pushHistory user t s2) else s2)).
  { intros s2. destruct (negb i && truthy t); [calm_by (@nil (Z * Action))|apply calmStep_refl]. }
  assert (Hw : forall a, isModeSwitch a = true -> negb (isAudioAction a) = true)
    by (intros [] Ha; try discriminate; reflexivity).
  split.
  - eapply calmStep_trans; [|eapply calmStep_weaken; [exact Hw|apply Hfin]].
    eapply calmStep_trans; [eapply calmStep_weaken; [exact Hw|exact H01]|].
    destruct (i && negb (isInterruptingRef s1)); [apply callLLMJudge_calm|apply calmStep_refl].
  - intros Hi. eapply calmStep_trans; [|apply Hfin].
    eapply calmStep_trans; [exact H01|].
    assert (E : i && negb (isInterruptingRef s1) = false).
    { destruct Hi as [->|Hi]; [reflexivity|]. rewrite Hr1, Hi. apply andb_false_r. }
    rewrite E. apply calmStep_refl.
Qed.

Lemma rerender_keeps (P : State -> Prop) :
  (forall s, P s -> P (commit s)) -> forall n s, P s -> P (rerender n s).
Proof.
  intros Hc n. induction n as [|n IH]; intros s H; cbn; [assumption|].
  destruct (stable s); [assumption|]. apply IH, Hc, H.
Qed.

(** One render, as the three effects it may run. *)
Lemma commit_effects s :
  exists b1 b2 b3 : bool,
    commit s =
      (let r := snapshot s in
       let s0 := set_rendered r s in
       let s1 := if b1 then set_isInterruptingRef (isInterrupting s) s0 else s0 in
       let s2 := if b2 then messagesEffect r s1 else s1 in
       if b3 then resumeEffect r s2 else s2) /\
    (stable s = true -> b1 = false /\ b2 = false /\ b3 = false) /\
    (r_messages (rendered s) <> List.length (messages s) -> b2 = true /\ b3 = true) /\
    (r_isInterrupting (rendered s) = isInterrupting s -> b1 = false).
Proof.
  unfold commit. cbv zeta. cbn [snapshot r_messages r_isPaused r_isMuted r_isInterrupting].
  eexists _, _, _. split; [reflexivity|]. split; [|split].
  - intros H. apply stable_rendered in H. rewrite H. cbn.
    rewrite Nat.eqb_refl, !Bool.eqb_reflx. repeat split.
  - intros H. apply not_eq_sym in H. apply Nat.eqb_neq in H. rewrite H. repeat split.
  - intros H. rewrite H, Bool.eqb_reflx. reflexivity.
Qed.

(** ** While an interruption is in progress *)

Lemma resumeEffect_interrupting r s : isInterruptingRef s = true -> resumeEffect r s = s.
Proof.
  intros H. unfold resumeEffect, handleResume. rewrite H.
  repeat match goal with |- context [match ?c with _ => _ end] => destruct c end; reflexivity.
Qed.

Lemma messagesEffect_frame r s :
  messages (messagesEffect r s) = messages s /\
  isInterrupting (messagesEffect r s) = isInterrupting s.
Proof. destruct (messagesEffect_flags r s) as [(H1 & H2 & _) _]. split; assumption. Qed.

Lemma interrupting_commit s0 t p i s :
  (isInterruptingRef s = true /\ isInterrupting s = true /\
   lastOpt (messages s) = Some (user_message t p i) /\ calmStep isModeSwitch s0 s) ->
  (isInterruptingRef (commit s) = true /\ isInterrupting (commit s) = true /\
   lastOpt (messages (commit s)) = Some (user_message t p i) /\
   calmStep isModeSwitch s0 (commit s)).
Proof.
  intros (Href & Hint & Hl & Hc).
  destruct (commit_effects s) as (b1 & b2 & b3 & -> & _). cbv zeta.
  set (s1 := if b1 then set_isInterruptingRef (isInterrupting s) (set_rendered (snapshot s) s)
             else set_rendered (snapshot s) s).
  assert (H1 : isInterruptingRef s1 = true /\ isInterrupting s1 = true /\
               messages s1 = messages s /\ calmStep isModeSwitch s s1).
  { subst s1. destruct b1; cbn;
      (split; [assumption|split; [assumption|split; [reflexivity|]]]);
      calm_by (@nil (Z * Action)). }
  destruct H1 as (Href1 & Hint1 & Hm1 & Hc1).
  set (s2 := if b2 then messagesEffect (snapshot s) s1 else s1).
  assert (H2 : isInterruptingRef s2 = true /\ isInterrupting s2 = true /\
               messages s2 = messages s /\ calmStep isModeSwitch s1 s2).
  { subst s2. destruct b2;
      [|split; [assumption|split; [assumption|split; [assumption|apply calmStep_refl]]]].
    rewrite messagesEffect_ref.
    destruct (messagesEffect_frame (snapshot s) s1) as [-> ->].
    split; [assumption|split; [assumption|split; [assumption|]]].
    eapply messagesEffect_calm; [rewrite Hm1; exact Hl|left; assumption|right; assumption]. }
  destruct H2 as (Href2 & Hint2 & Hm2 & Hc2).
  assert (E : (if b3 then resumeEffect (snapshot s) s2 else s2) = s2)
    by (destruct b3; [apply resumeEffect_interrupting; assumption|reflexivity]).
  rewrite E. split; [assumption|split; [assumption|split]].
  - rewrite Hm2. exact Hl.
  - eauto using calmStep_trans.
Qed.

(** C1 (amended): while [isInterruptingRef] is set (the Interrupting state)
    no user message, whatever keywords it contains, makes the pause
    controller act: [isPaused], both mute flags and the timers stay as they
    are and the only calls made are mode switches ([sendSessionSettings]). *)
Theorem C1_no_pause_while_interrupting s text prosody interim s' :
  reachable s -> isInterruptingRef s = true ->
  step s (E_message (user_message text prosody interim)) = Some s' ->
  isPaused s' = isPaused s /\ isMuted s' = isMuted s /\
  isAudioMuted s' = isAudioMuted s /\ timers s' = timers s /\
  micUnmuteTimeoutRef s' = micUnmuteTimeoutRef s /\ clock s' = clock s /\
  exists added, trace s' = (trace s ++ added)%list /\
                Forall (fun p => isModeSwitch (snd p) = true) added.
Proof.
  intros Hr Href. cbn [step]. intros [= <-].
  pose proof (reachable_Inv s Hr) as Hinv. destruct Hinv as [_ Hsync _ _ _ _].
  unfold settle.
  apply (rerender_keeps
           (fun x => isInterruptingRef x = true /\ isInterrupting x = true /\
                     lastOpt (messages x) = Some (user_message text prosody interim) /\
                     calmStep isModeSwitch s x)
           (interrupting_commit s text prosody interim)).
  cbn [isInterruptingRef isInterrupting messages set_messages].
  split; [assumption|split; [congruence|split]].
  - apply lastOpt_snoc.
  - calm_by (@nil (Z * Action)).
Qed.

Lemma demoInterrupting_reachable : reachable demoInterrupting.
Proof.
  exists 1000000,
    (demoStart ++ [E_judgeResponse 1 (J_ok true (Some demoVerdict))])%list.
  split; [lia|]. vm_compute. reflexivity.
Qed.

Lemma C1_witness :
  reachable demoInterrupting /\ isInterruptingRef demoInterrupting = true /\
  exists s',
    step demoInterrupting (E_message (user_message "hold on" [] false)) = Some s' /\
    isPaused s' = isPaused demoInterrupting.
Proof.
  assert (H2 : isInterruptingRef demoInterrupting = true) by (vm_compute; reflexivity).
  split; [exact demoInterrupting_reachable|]. split; [exact H2|].
  eexists. split; [reflexivity|].
  exact (proj1 (C1_no_pause_while_interrupting demoInterrupting "hold on" [] false _
                  demoInterrupting_reachable H2 eq_refl)).
Defined.

(** C1, as stated, fails twice.  During the interruption of the demo
    session (both flags set) the final utterance "make it quick" switches
    the mode; and 12 s in, while the cooldown flag is still set, the
    utterance "hold on" pauses the conversation. *)
Lemma C1_counterexample :
  (isInterruptingRef demoInterrupting = true /\
   interruptCooldownRef demoInterrupting = true /\
   option_map (fun s => (mode s, trace s))
     (step demoInterrupting (E_message (user_message "make it quick" [] false))) =
   Some (quick,
         trace demoInterrupting ++ [(1001800, SendSessionSettings QUICK_CONTEXT)])%list) /\
  (interruptCooldownRef demoCooling = true /\
   option_map (fun s => (isPaused s, trace s))
     (step demoCooling (E_message (user_message "hold on" [] false))) =
   Some (true, trace demoCooling ++ [(1013800, MuteAudio); (1013800, Mute)])%list).
Proof. vm_compute. repeat split. Qed.

(** ** Renders after a user message *)

(** A render none of whose dependencies changed runs no effect. *)
Lemma commit_noop s :
  r_messages (rendered s) = List.length (messages s) ->
  r_isPaused (rendered s) = isPaused s ->
  r_isMuted (rendered s) = isMuted s ->
  r_isInterrupting (rendered s) = isInterrupting s ->
  commit s = set_rendered (snapshot s) s.
Proof.
  intros H1 H2 H3 H4. unfold commit. cbn.
  rewrite H1, H2, H3, H4, Nat.eqb_refl, !Bool.eqb_reflx. reflexivity.
Qed.

Lemma resumeEffect_skip r s t p i :
  lastOpt (messages s) = Some (user_message t p i) ->
  isInterruptingRef s = true \/ r_isPaused r = false \/ r_isMuted r = true \/
  isPausePhrase t = true \/ Nat.ltb 3 (String.length t) = false ->
  resumeEffect r s = s.
Proof.
  intros Hl H. destruct H as [H|H]; [apply resumeEffect_interrupting; assumption|].
  unfold resumeEffect. rewrite Hl.
  destruct (r_isPaused r), (r_isMuted r); cbn [negb orb]; try reflexivity.
  destruct H as [H|[H|[H|H]]]; try discriminate; rewrite H; cbn [negb andb];
    rewrite ?andb_false_r; reflexivity.
Qed.

(** A render for a user message that neither pauses nor resumes. *)
Lemma commit_calm s t p i :
  lastOpt (messages s) = Some (user_message t p i) ->
  r_isInterrupting (rendered s) = isInterrupting s ->
  isInterruptingRef s = true \/ isPaused s = true \/ isPausePhrase t = false ->
  isInterruptingRef s = true \/ isPaused s = false \/ isMuted s = true \/
  isPausePhrase t = true \/ Nat.ltb 3 (String.length t) = false ->
  calmStep (fun a => negb (isAudioAction a)) s (commit s) /\
  (i = false \/ isInterruptingRef s = true -> calmStep isModeSwitch s (commit s)) /\
  isInterruptingRef (commit s) = isInterruptingRef s.
Proof.
  intros Hl Hint Hp Hr.
  destruct (commit_effects s) as (b1 & b2 & b3 & -> & _ & _ & Hb1).
  rewrite (Hb1 Hint). cbv zeta.
  set (s0 := set_rendered (snapshot s) s).
  assert (H0 : forall ok, calmStep ok s s0) by (intros ok; calm_by (@nil (Z * Action))).
  set (s2 := if b2 then messagesEffect (snapshot s) s0 else s0).
  assert (H2 : calmStep (fun a => negb (isAudioAction a)) s0 s2 /\
               (i = false \/ isInterruptingRef s = true -> calmStep isModeSwitch s0 s2) /\
               isInterruptingRef s2 = isInterruptingRef s /\ messages s2 = messages s).
  { subst s2. destruct b2.
    - destruct (messagesEffect_calm (snapshot s) s0 t p i Hl Hp) as [Ha Hb].
      split; [exact Ha|]. split; [exact Hb|]. rewrite messagesEffect_ref.
      destruct (messagesEffect_frame (snapshot s) s0) as [-> _]. split; reflexivity.
    - split; [apply calmStep_refl|]. split; [intros _; apply calmStep_refl|].
      split; reflexivity. }
  destruct H2 as (Ha & Hb & Href2 & Hm2).
  assert (E : (if b3 then resumeEffect (snapshot s) s2 else s2) = s2).
  { destruct b3; [|reflexivity]. eapply resumeEffect_skip; [rewrite Hm2; exact Hl|].
    rewrite Href2. exact Hr. }
  rewrite E. split; [|split; [|exact Href2]].
  - eapply calmStep_trans; [apply H0|exact Ha].
  - intros Hi. eapply calmStep_trans; [apply H0|exact (Hb Hi)].
Qed.

(** ** The conversation history *)

Lemma callLLMJudge_history sp s :
  conversationHistoryRef (callLLMJudge sp s) = conversationHistoryRef s.
Proof.
  unfold callLLMJudge, dispatchJudge.
  repeat match goal with |- context [if ?c then _ else _] => destruct c end;
    try reflexivity.
  cbv zeta. cbn. destruct (judgeAbortControllerRef s); reflexivity.
Qed.

Lemma detectKeywords_history r t s :
  conversationHistoryRef (detectKeywords r t s) = conversationHistoryRef s.
Proof.
  unfold detectKeywords, triggerPause. cbv zeta.
  repeat match goal with |- context [match ?c with _ => _ end] => destruct c eqn:? end;
    cbn; congruence.
Qed.

Lemma messagesEffect_history r s t p i :
  lastOpt (messages s) = Some (user_message t p i) ->
  conversationHistoryRef (messagesEffect r s) =
  if negb i && truthy t
  then (conversationHistoryRef s ++ [{| h_role := user; h_content := t |}])%list
  else conversationHistoryRef s.
Proof.
  intros Hl. unfold messagesEffect. rewrite Hl. cbv zeta.
  destruct (negb i && truthy t); unfold pushHistory;
    cbn [conversationHistoryRef set_turnStartTimeRef set_conversationHistoryRef];
    repeat match goal with |- context [if ?c then _ else _] => destruct c end;
    rewrite ?callLLMJudge_history, ?detectKeywords_history; reflexivity.
Qed.

Lemma resumeEffect_history r s :
  conversationHistoryRef (resumeEffect r s) = conversationHistoryRef s.
Proof.
  unfold resumeEffect, handleResume.
  repeat match goal with |- context [match ?c with _ => _ end] => destruct c eqn:? end;
    cbn; congruence.
Qed.

(** The history after one render for a user message: the message effect,
    when it runs, appends a final non-empty text. *)
Lemma commit_history s t p i :
  lastOpt (messages s) = Some (user_message t p i) ->
  exists b2 : bool,
    conversationHistoryRef (commit s) =
      (if b2 && (negb i && truthy t)
       then (conversationHistoryRef s ++ [{| h_role := user; h_content := t |}])%list
       else conversationHistoryRef s) /\
    (r_messages (rendered s) <> List.length (messages s) -> b2 = true).
Proof.
  intros Hl. destruct (commit_effects s) as (b1 & b2 & b3 & -> & _ & Hm & _).
  exists b2. cbv zeta. split; [|intros H; apply Hm; exact H].
  set (s1 := if b1 then _ else _).
  assert (H1 : conversationHistoryRef s1 = conversationHistoryRef s /\
               messages s1 = messages s) by (subst s1; destruct b1; split; reflexivity).
  destruct H1 as [Hh1 Hm1].
  assert (E : conversationHistoryRef (if b3 then resumeEffect (snapshot s)
                 (if b2 then messagesEffect (snapshot s) s1 else s1)
               else if b2 then messagesEffect (snapshot s) s1 else s1) =
              conversationHistoryRef (if b2 then messagesEffect (snapshot s) s1 else s1))
    by (destruct b3; [apply resumeEffect_history|reflexivity]).
  rewrite E. destruct b2; cbn [andb]; [|exact Hh1].
  rewrite (messagesEffect_history _ _ t p i) by (rewrite Hm1; exact Hl).
  rewrite Hh1. reflexivity.
Qed.

(** ** One history entry per user turn *)

Lemma interim_commit_history h t p s :
  lastOpt (messages s) = Some (user_message t p true) /\ conversationHistoryRef s = h ->
  lastOpt (messages (commit s)) = Some (user_message t p true) /\
  conversationHistoryRef (commit s) = h.
Proof.
  intros [Hl Hh]. split.
  - destruct (commit_outcome s) as (_ & -> & _). exact Hl.
  - destruct (commit_history s t p true Hl) as (b2 & -> & _).
    cbn [negb andb]. rewrite andb_false_r. exact Hh.
Qed.

Lemma interim_keeps_history s t p s' :
  step s (E_message (user_message t p true)) = Some s' ->
  conversationHistoryRef s' = conversationHistoryRef s.
Proof.
  cbn [step]. intros [= <-]. unfold settle.
  apply (rerender_keeps
           (fun x => lastOpt (messages x) = Some (user_message t p true) /\
                     conversationHistoryRef x = conversationHistoryRef s)
           (interim_commit_history (conversationHistoryRef s) t p)).
  cbn. split; [apply lastOpt_snoc|reflexivity].
Qed.

Lemma togglesPause_false s t :
  togglesPause s t = false ->
  (isInterruptingRef s = true \/ isPaused s = true \/ isPausePhrase t = false) /\
  (isInterruptingRef s = true \/ isPaused s = false \/ isMuted s = true \/
   isPausePhrase t = true \/ Nat.ltb 3 (String.length t) = false).
Proof.
  unfold togglesPause.
  destruct (isInterruptingRef s), (isPaused s), (isMuted s), (isPausePhrase t),
    (Nat.ltb 3 (String.length t)); cbn; intros H; try discriminate; split; auto 6.
Qed.

(** After a message has arrived in a stable state, one render that leaves
    the pause flags alone is the only one that runs effects. *)
Lemma settle_after_calm s :
  stable s = false ->
  sameFlags s (commit s) ->
  settle s = commit s \/ settle s = set_rendered (snapshot (commit s)) (commit s).
Proof.
  intros Hs [Hp Hm]. unfold settle. cbn [rerender]. rewrite Hs.
  destruct (stable (commit s)) eqn:E1; [left; reflexivity|]. right.
  destruct (commit_outcome s) as (Hr & Hmsg & Hint & _).
  rewrite (commit_noop (commit s)) by (rewrite Hr; cbn; congruence).
  assert (E2 : stable (set_rendered (snapshot (commit s)) (commit s)) = true)
    by (unfold stable; apply Render_eqb_eq; reflexivity).
  rewrite E2. reflexivity.
Qed.

Lemma arrival_unstable s m :
  stable s = true -> stable (set_messages (messages s ++ [m]) s) = false.
Proof.
  intros H. apply stable_rendered in H. unfold stable, Render_eqb. cbn. rewrite H. cbn.
  rewrite length_app. cbn.
  assert (E : Nat.eqb (List.length (messages s) + 1) (List.length (messages s)) = false)
    by (apply Nat.eqb_neq; lia).
  rewrite E. reflexivity.
Qed.

Lemma arrival_rendered s m :
  stable s = true ->
  r_messages (rendered (set_messages (messages s ++ [m]) s)) <>
  List.length (messages (set_messages (messages s ++ [m]) s)) /\
  r_isInterrupting (rendered (set_messages (messages s ++ [m]) s)) =
  isInterrupting (set_messages (messages s ++ [m]) s).
Proof.
  intros H. apply stable_rendered in H. cbn. rewrite H. cbn. rewrite length_app. cbn.
  split; [lia|reflexivity].
Qed.

(** C8 (amended): processing an interim user event never appends to the
    history; the final event that follows appends exactly one entry, with
    the final content, when that content is not empty and the event does not
    pause or resume the conversation. *)
Theorem C8_one_entry_per_turn s c1 p1 c2 p2 s1 s2 :
  step s (E_message (user_message c1 p1 true)) = Some s1 ->
  step s1 (E_message (user_message c2 p2 false)) = Some s2 ->
  truthy c2 = true -> togglesPause s1 c2 = false ->
  conversationHistoryRef s1 = conversationHistoryRef s /\
  conversationHistoryRef s2 =
    (conversationHistoryRef s ++ [{| h_role := user; h_content := c2 |}])%list.
Proof.
  intros E1 E2 Hc Ht.
  pose proof (interim_keeps_history _ _ _ _ E1) as H1. split; [exact H1|].
  assert (Hst : stable s1 = true)
    by (cbn [step] in E1; injection E1 as <-; apply settle_stable).
  cbn [step] in E2. injection E2 as <-.
  set (a := set_messages (messages s1 ++ [user_message c2 p2 false]) s1).
  assert (Hl : lastOpt (messages a) = Some (user_message c2 p2 false)) by apply lastOpt_snoc.
  destruct (arrival_rendered s1 (user_message c2 p2 false) Hst) as [Hne Hint].
  destruct (togglesPause_false s1 c2 Ht) as [Hp Hr].
  destruct (commit_calm a c2 p2 false Hl Hint Hp Hr) as ((Hcp & Hcm & _) & _ & _).
  destruct (commit_history a c2 p2 false Hl) as (b2 & Hh & Hb).
  rewrite (Hb Hne), Hc in Hh. cbn in Hh.
  destruct (settle_after_calm a (arrival_unstable s1 _ Hst) (conj Hcp Hcm)) as [->| ->];
    cbn; rewrite Hh, H1; reflexivity.
Qed.

Lemma C8_witness :
  step (init 1000000) (E_message (user_message "how are" [] true)) = Some demoTurn1 /\
  step demoTurn1 (E_message (user_message "how are you today" [] false)) = Some demoTurn2 /\
  truthy "how are you today" = true /\ togglesPause demoTurn1 "how are you today" = false /\
  conversationHistoryRef demoTurn2 =
    (conversationHistoryRef (init 1000000) ++
     [{| h_role := user; h_content := "how are you today" |}])%list.
Proof.
  assert (H1 : step (init 1000000) (E_message (user_message "how are" [] true))
               = Some demoTurn1) by (vm_compute; reflexivity).
  assert (H2 : step demoTurn1 (E_message (user_message "how are you today" [] false))
               = Some demoTurn2) by (vm_compute; reflexivity).
  assert (H3 : truthy "how are you today" = true) by reflexivity.
  assert (H4 : togglesPause demoTurn1 "how are you today" = false)
    by (vm_compute; reflexivity).
  split; [exact H1|]. split; [exact H2|]. split; [exact H3|]. split; [exact H4|].
  exact (proj2 (C8_one_entry_per_turn (init 1000000) "how are" [] "how are you today" []
                  demoTurn1 demoTurn2 H1 H2 H3 H4)).
Defined.

(** C8, as stated, fails for a final event without text: line 257 appends
    only when [content] is not empty, so the turn leaves no entry. *)
Lemma C8_counterexample :
  option_map conversationHistoryRef
    (run (init 1000000)
       [E_message (user_message "how are" [] true);
        E_message (user_message EmptyString [] false)]) = Some [].
Proof. vm_compute. reflexivity. Qed.

(** ** Pausing and resuming *)

Lemma triggerPause_enters x :
  isInterruptingRef x = false ->
  trace (triggerPause x) = (trace x ++ [(clock x, MuteAudio); (clock x, Mute)])%list /\
  isPaused (triggerPause x) = true /\ isMuted (triggerPause x) = true /\
  isAudioMuted (triggerPause x) = true /\
  micUnmuteTimeoutRef (triggerPause x) = Some (nextId x) /\
  In {| tid := nextId x; due := clock x + 2000; task := T_micUnmute |}
     (timers (triggerPause x)).
Proof.
  intros H. unfold triggerPause. rewrite H. cbv zeta. cbn.
  destruct (micUnmuteTimeoutRef x); prims; cbn; rewrite <- app_assoc;
    repeat split; apply in_or_app; right; left; reflexivity.
Qed.

Lemma micUnmute_reopens x :
  isInterruptingRef x = false ->
  trace (runTask T_micUnmute x) = (trace x ++ [(clock x, Unmute)])%list /\
  isMuted (runTask T_micUnmute x) = false /\
  isAudioMuted (runTask T_micUnmute x) = isAudioMuted x /\
  isPaused (runTask T_micUnmute x) = isPaused x.
Proof. intros H. cbn [runTask]. rewrite H. cbn. repeat split. Qed.

Lemma handleResume_acts x :
  isInterruptingRef x = false -> micTimersTracked x ->
  trace (handleResume x) = (trace x ++ [(clock x, UnmuteAudio); (clock x, Unmute)])%list /\
  isPaused (handleResume x) = false /\ isMuted (handleResume x) = false /\
  isAudioMuted (handleResume x) = false /\ clock (handleResume x) = clock x /\
  (forall tm, In tm (timers (handleResume x)) -> task tm <> T_micUnmute) /\
  messages (handleResume x) = messages x /\
  isInterrupting (handleResume x) = isInterrupting x /\
  rendered (handleResume x) = rendered x.
Proof.
  intros H Hmic. unfold handleResume. rewrite H. cbv zeta.
  destruct (micUnmuteTimeoutRef x) as [t|] eqn:E; prims; cbn; rewrite <- app_assoc;
    repeat split; intros tm Hin Ht.
  - apply filter_In in Hin. destruct Hin as [Hin Hne].
    specialize (Hmic tm Hin Ht). rewrite E in Hmic. injection Hmic as ->.
    rewrite Nat.eqb_refl in Hne. discriminate.
  - specialize (Hmic tm Hin Ht). congruence.
Qed.

Lemma resumed_commit c text prosody x :
  isPausePhrase text = false -> isPaused c = false ->
  (lastOpt (messages x) = Some (user_message text prosody false) /\
   r_isInterrupting (rendered x) = isInterrupting x /\ calmStep isModeSwitch c x) ->
  (lastOpt (messages (commit x)) = Some (user_message text prosody false) /\
   r_isInterrupting (rendered (commit x)) = isInterrupting (commit x) /\
   calmStep isModeSwitch c (commit x)).
Proof.
  intros Hph Hc (Hl & Hint & Hcalm).
  destruct (commit_outcome x) as (Hr & Hm & Hi & _).
  split; [rewrite Hm; exact Hl|]. split; [rewrite Hr, Hi; reflexivity|].
  eapply calmStep_trans; [exact Hcalm|].
  assert (Hp : isPaused x = false) by (destruct Hcalm as (-> & _); exact Hc).
  apply (commit_calm x text prosody false Hl Hint); auto.
Qed.

(** C5: a final user utterance that is no pause phrase and longer than 3
    characters, arriving while paused with the microphone open, ends the
    pause: [isPaused] is cleared, microphone and agent audio are re-opened
    ([unmuteAudio], then [unmute]), and no microphone timer stays pending.
    Entering the pause ([triggerPause] outside an interruption) mutes agent
    audio and microphone at once and arms a timer due 2000 ms later; that
    timer, firing outside an interruption, re-opens the microphone only. *)
Theorem C5_pause_and_resume s text prosody s' :
  reachable s -> isPaused s = true -> isMuted s = false ->
  isPausePhrase text = false -> (3 < String.length text)%nat ->
  step s (E_message (user_message text prosody false)) = Some s' ->
  (isPaused s' = false /\ isMuted s' = false /\ isAudioMuted s' = false /\
   (forall tm, In tm (timers s') -> task tm <> T_micUnmute) /\
   exists a b,
     trace s' = (trace s ++ a ++ [(clock s, UnmuteAudio); (clock s, Unmute)] ++ b)%list /\
     Forall (fun p => isModeSwitch (snd p) = true) a /\
     Forall (fun p => isModeSwitch (snd p) = true) b) /\
  (forall x, isInterruptingRef x = false ->
     trace (triggerPause x) = (trace x ++ [(clock x, MuteAudio); (clock x, Mute)])%list /\
     isPaused (triggerPause x) = true /\ isMuted (triggerPause x) = true /\
     isAudioMuted (triggerPause x) = true /\
     micUnmuteTimeoutRef (triggerPause x) = Some (nextId x) /\
     In {| tid := nextId x; due := clock x + 2000; task := T_micUnmute |}
        (timers (triggerPause x))) /\
  (forall x, isInterruptingRef x = false ->
     trace (runTask T_micUnmute x) = (trace x ++ [(clock x, Unmute)])%list /\
     isMuted (runTask T_micUnmute x) = false /\
     isAudioMuted (runTask T_micUnmute x) = isAudioMuted x /\
     isPaused (runTask T_micUnmute x) = isPaused x).
Proof.
  intros Hreach Hp Hm Hph Hlen. cbn [step]. intros [= <-].
  split; [|split; [exact triggerPause_enters|exact micUnmute_reopens]].
  pose proof (reachable_stable s Hreach) as Hst.
  destruct (reachable_Inv s Hreach) as [Hmuted _ Hmic _ _ _].
  assert (Href : isInterruptingRef s = false)
    by (destruct (isInterruptingRef s); [rewrite Hmuted in Hm by reflexivity; discriminate
                                        |reflexivity]).
  set (m := user_message text prosody false).
  set (a := set_messages (messages s ++ [m]) s).
  assert (Hl : lastOpt (messages a) = Some m) by apply lastOpt_snoc.
  destruct (arrival_rendered s m Hst) as [Hne Hint].
  assert (Hu : stable a = false) by (apply arrival_unstable; exact Hst).
  unfold settle.
  change (rerender 3 a) with (if stable a then a else rerender 2 (commit a)).
  rewrite Hu.
  (* the first render *)
  destruct (commit_effects a) as (b1 & b2 & b3 & Ec & _ & Hb23 & Hb1).
  destruct (Hb23 Hne) as [-> ->]. rewrite (Hb1 Hint) in Ec. cbv zeta in Ec.
  set (s0 := set_rendered (snapshot a) a) in Ec.
  assert (Hr0 : r_isPaused (snapshot a) = true /\ r_isMuted (snapshot a) = false)
    by (cbn; split; assumption).
  destruct Hr0 as [Hrp Hrm].
  destruct (messagesEffect_calm (snapshot a) s0 text prosody false Hl
              (or_intror (or_introl Hrp))) as [_ Hcalm].
  specialize (Hcalm (or_introl eq_refl)).
  pose proof (messagesEffect_ref (snapshot a) s0) as Href2.
  destruct (messagesEffect_frame (snapshot a) s0) as [Hmsg2 Hint2].
  set (s2 := messagesEffect (snapshot a) s0) in *.
  assert (Er : resumeEffect (snapshot a) s2 = handleResume s2).
  { unfold resumeEffect. rewrite Hrp, Hrm, Hmsg2. cbn [negb orb].
    change (messages s0) with (messages a). rewrite Hl. subst m. cbv iota beta.
    rewrite Hph. apply Nat.ltb_lt in Hlen. rewrite Hlen. reflexivity. }
  rewrite Er in Ec.
  destruct Hcalm as (Hp2 & Hm2 & Ham2 & Htm2 & Hmr2 & Hclk2 & pre & Htr2 & Fpre).
  assert (Hmic2 : micTimersTracked s2).
  { unfold micTimersTracked. rewrite Htm2, Hmr2. exact Hmic. }
  destruct (handleResume_acts s2) as (Htr & Hp' & Hm' & Ha' & Hclk' & Hnomic & Hmsg' & Hint' & Hren');
    [rewrite Href2; exact Href|exact Hmic2|].
  rewrite <- Ec in *.
  (* the renders that follow *)
  pose proof (rerender_keeps _
                (fun x => resumed_commit (commit a) text prosody x Hph Hp') 2
                (commit a)) as Hk.
  destruct Hk as (_ & _ & Hq & Hmq & Haq & Htq & _ & _ & post & Htrq & Fpost).
  { destruct (commit_outcome a) as (Hr & Hma & Hia & _).
    split; [rewrite Hma; exact Hl|]. split; [|apply calmStep_refl].
    rewrite Hr, Hia. reflexivity. }
  split; [congruence|]. split; [congruence|]. split; [congruence|]. split.
  - intros tm Hin. rewrite Htq in Hin. exact (Hnomic tm Hin).
  - exists pre, post. split; [|split; assumption].
    rewrite Htrq, Htr, Htr2, Hclk2. cbn. rewrite <- !app_assoc. reflexivity.
Qed.

Lemma demoPaused_reachable : reachable demoPaused.
Proof.
  exists 1000000,
    [E_message (chat_metadata "chat-1"); E_message (user_message "hold on" [] false);
     E_timer].
  split; [lia|]. vm_compute. reflexivity.
Qed.

Lemma C5_witness :
  reachable demoPaused /\ isPaused demoPaused = true /\ isMuted demoPaused = false /\
  isPausePhrase "I am back now" = false /\ (3 < String.length "I am back now")%nat /\
  step demoPaused (E_message (user_message "I am back now" [] false)) = Some demoResumed /\
  isPaused demoResumed = false /\ isMuted demoResumed = false /\
  isAudioMuted demoResumed = false.
Proof.
  assert (H1 : isPaused demoPaused = true) by (vm_compute; reflexivity).
  assert (H2 : isMuted demoPaused = false) by (vm_compute; reflexivity).
  assert (H3 : isPausePhrase "I am back now" = false) by (vm_compute; reflexivity).
  assert (H4 : (3 < String.length "I am back now")%nat) by (vm_compute; lia).
  assert (H5 : step demoPaused (E_message (user_message "I am back now" [] false))
               = Some demoResumed) by (vm_compute; reflexivity).
  split; [exact demoPaused_reachable|]. split; [exact H1|]. split; [exact H2|].
  split; [exact H3|]. split; [exact H4|]. split; [exact H5|].
  destruct (C5_pause_and_resume demoPaused "I am back now" [] demoResumed
              demoPaused_reachable H1 H2 H3 H4 H5) as [(Ha & Hb & Hc & _) _].
  split; [exact Ha|]. split; [exact Hb|exact Hc].
Defined.

(** ** Judge calls: spacing and supersession *)

Lemma dispatchJudge_supersedes speech c s :
  (forall id, In id (judgeInFlight s) ->
     judgeInFlight s = [id] /\ judgeAbortControllerRef s = Some id) ->
  judgeAbortControllerRef s = Some c ->
  In (clock s, AbortJudge c) (trace (dispatchJudge speech s)) /\
  judgeInFlight (dispatchJudge speech s) = [nextId s].
Proof.
  intros Hfl Hc. unfold dispatchJudge. cbv zeta. cbn. rewrite Hc. prims. cbn. split.
  - apply in_or_app. left. apply in_or_app. right. left. reflexivity.
  - destruct (flight_empty_or_current s Hfl c) as [->|[Hne _]]; [reflexivity|congruence].
Qed.

(** C4 (amended): in every reachable state any two judge calls that went
    out are at least 400 ms apart, at most one call is outstanding and it
    is the one [judgeAbortControllerRef] holds; a new call aborts the
    previous one and is then the only one outstanding; and the response to
    a call that is not outstanding (an aborted one) changes nothing. *)
Theorem C4_judge_calls_spaced_and_superseded s :
  reachable s ->
  StronglySorted (fun a b => a + JUDGE_DEBOUNCE_MS <= b) (judgeTimes (trace s)) /\
  (forall id, In id (judgeInFlight s) ->
     judgeInFlight s = [id] /\ judgeAbortControllerRef s = Some id) /\
  (forall speech c, judgeAbortControllerRef s = Some c ->
     In (clock s, AbortJudge c) (trace (dispatchJudge speech s)) /\
     judgeInFlight (dispatchJudge speech s) = [nextId s]) /\
  (forall id r, ~ In id (judgeInFlight s) -> step s (E_judgeResponse id r) = Some s).
Proof.
  intros Hr. pose proof (reachable_stable s Hr) as Hst.
  destruct (reachable_Inv s Hr) as [_ _ _ Hfl Hsp _].
  split; [exact Hsp|]. split; [exact Hfl|]. split.
  - intros speech c Hc. apply dispatchJudge_supersedes; assumption.
  - intros id r Hn. cbn [step]. unfold judgeResponded.
    destruct (existsb (Nat.eqb id) (judgeInFlight s)) eqn:E.
    + apply existsb_exists in E. destruct E as (x & Hx & Hid).
      apply Nat.eqb_eq in Hid. subst x. contradiction.
    + rewrite settle_of_stable by exact Hst. reflexivity.
Qed.

Lemma demoState_reachable : reachable demoState.
Proof. exists 1000000, demoStart. split; [lia|]. vm_compute. reflexivity. Qed.

Lemma C4_witness :
  reachable demoState /\
  StronglySorted (fun a b => a + JUDGE_DEBOUNCE_MS <= b) (judgeTimes (trace demoState)).
Proof.
  split; [exact demoState_reachable|].
  exact (proj1 (C4_judge_calls_spaced_and_superseded demoState demoState_reachable)).
Defined.

(** C4, as stated, fails: of two judge submissions 100 ms apart the first
    goes out and the second is dropped by the debounce, so the call that is
    not cancelled is the first one; no abort happens, and the verdict of the
    first call is applied (mute, pause). *)
Lemma C4_counterexample :
  option_map trace (run (init 1000000) demoBurst) =
  Some [(1001500, FetchJudge 1 demoSpeech [] (1500 # 1000));
        (1001800, Mute); (1001800, PauseAssistant)].
Proof. vm_compute. reflexivity. Qed.

(** * Further properties of the component *)

(** ** The render after a message arrives *)

Abbreviation arrived s m := (set_messages (messages s ++ [m]) s).

Lemma commit_arrival s m :
  stable s = true ->
  commit (arrived s m) =
  resumeEffect (snapshot (arrived s m))
    (messagesEffect (snapshot (arrived s m))
       (set_rendered (snapshot (arrived s m)) (arrived s m))).
Proof.
  intros Hst.
  destruct (arrival_rendered s m Hst) as [Hne Hint].
  destruct (commit_effects (arrived s m)) as (b1 & b2 & b3 & Ec & _ & Hb23 & Hb1).
  destruct (Hb23 Hne) as [-> ->]. rewrite (Hb1 Hint) in Ec. exact Ec.
Qed.

(** When the first render after a message leaves the pause flags alone, the
    state after the event is that render's, up to the [rendered] field. *)
Lemma step_message_calm s m :
  stable s = true ->
  sameFlags (arrived s m) (commit (arrived s m)) ->
  step s (E_message m) = Some (commit (arrived s m)) \/
  step s (E_message m) =
    Some (set_rendered (snapshot (commit (arrived s m))) (commit (arrived s m))).
Proof.
  intros Hst Hs. cbn [step].
  destruct (settle_after_calm _ (arrival_unstable s m Hst) Hs) as [-> | ->]; auto.
Qed.

(** ** The transport's notice that the user interrupted the agent *)

Lemma interruption_commit s :
  stable s = true ->
  commit (arrived s user_interruption) =
  setTimeout T_unmuteAudio 100
    (muteAudio (set_rendered (snapshot (arrived s user_interruption))
                  (arrived s user_interruption))).
Proof.
  intros Hst. rewrite (commit_arrival s user_interruption Hst).
  set (r := snapshot (arrived s user_interruption)).
  set (a0 := set_rendered r (arrived s user_interruption)).
  assert (Hl : lastOpt (messages a0) = Some user_interruption) by apply lastOpt_snoc.
  unfold messagesEffect. rewrite Hl.
  unfold resumeEffect.
  destruct (negb (r_isPaused r) || r_isMuted r); [reflexivity|].
  assert (Hl2 : lastOpt (messages (setTimeout T_unmuteAudio 100 (muteAudio a0)))
                = Some user_interruption) by apply lastOpt_snoc.
  rewrite Hl2. reflexivity.
Qed.

(** X1: a [user_interruption] notice mutes the agent audio at once and arms
    a timer that re-opens it 100 ms later, whatever the state of the pause
    controller and of the orchestrator; nothing else changes.  With no other
    timer pending the audio is open again 100 ms later, also when the
    conversation is paused. *)
Theorem X1_user_interruption s s1 :
  stable s = true -> step s (E_message user_interruption) = Some s1 ->
  trace s1 = (trace s ++ [(clock s, MuteAudio)])%list /\
  isAudioMuted s1 = true /\
  timers s1 = (timers s ++
               [{| tid := nextId s; due := clock s + 100; task := T_unmuteAudio |}])%list /\
  isPaused s1 = isPaused s /\ isMuted s1 = isMuted s /\ mode s1 = mode s /\
  isInterruptingRef s1 = isInterruptingRef s /\
  interruptCooldownRef s1 = interruptCooldownRef s /\
  (timers s = [] ->
   exists s2, step s1 E_timer = Some s2 /\
     trace s2 = (trace s ++ [(clock s, MuteAudio); (clock s + 100, UnmuteAudio)])%list /\
     isAudioMuted s2 = false /\ isPaused s2 = isPaused s /\ timers s2 = []).
Proof.
  intros Hst E.
  pose proof (interruption_commit s Hst) as Hc.
  assert (Hs1 : stable s1 = true) by (cbn [step] in E; injection E as <-; apply settle_stable).
  assert (Hcase : s1 = commit (arrived s user_interruption) \/
                  s1 = set_rendered (snapshot (commit (arrived s user_interruption)))
                         (commit (arrived s user_interruption))).
  { destruct (step_message_calm s user_interruption Hst) as [E'|E'];
      [rewrite Hc; split; reflexivity| |]; rewrite E' in E; injection E as <-; auto. }
  rewrite Hc in Hcase.
  assert (Hfields :
    trace s1 = (trace s ++ [(clock s, MuteAudio)])%list /\
    isAudioMuted s1 = true /\
    timers s1 = (timers s ++
                 [{| tid := nextId s; due := clock s + 100; task := T_unmuteAudio |}])%list /\
    isPaused s1 = isPaused s /\ isMuted s1 = isMuted s /\ mode s1 = mode s /\
    isInterruptingRef s1 = isInterruptingRef s /\
    interruptCooldownRef s1 = interruptCooldownRef s /\ clock s1 = clock s)
    by (destruct Hcase as [-> | ->]; repeat split).
  destruct Hfields as (H1 & H2 & H3 & H4 & H5 & H6 & H7 & H8 & H9).
  repeat (split; [assumption|]).
  intros Ht. rewrite Ht in H3. cbn [app] in H3.
  eexists. split.
  - cbn [step]. unfold nextTimer. rewrite H3. cbn [earliest task tid due runTask].
    rewrite settle_of_stable; [reflexivity|]. unfold stable in *. exact Hs1.
  - prims. cbn. rewrite H1, H3, H4, H9. cbn. rewrite Nat.eqb_refl. cbn.
    rewrite Z.max_r by lia. rewrite <- app_assoc. repeat split.
Qed.

(** ** One interruption at a time *)

Lemma countTask_app p l1 l2 :
  countTask p (l1 ++ l2) = (countTask p l1 + countTask p l2)%nat.
Proof. unfold countTask. rewrite filter_app, length_app. reflexivity. Qed.

Lemma countTask_clear_other p t l :
  (forall tm, In tm l -> tid tm = t -> p (task tm) = false) ->
  countTask p (filter (fun tm => negb (Nat.eqb (tid tm) t)) l) = countTask p l.
Proof.
  unfold countTask. induction l as [|x l IH]; intros H; [reflexivity|]. cbn.
  destruct (Nat.eqb_spec (tid x) t) as [E|E]; cbn.
  - rewrite (H x (or_introl eq_refl) E). apply IH. intros tm Hin. apply H. right. exact Hin.
  - destruct (p (task x)); cbn; rewrite IH; auto; intros tm Hin; apply H; right; exact Hin.
Qed.

Lemma countTask_clear_one p tm l :
  NoDup (map tid l) -> In tm l ->
  countTask p l =
  (countTask p (filter (fun x => negb (Nat.eqb (tid x) (tid tm))) l) +
   if p (task tm) then 1 else 0)%nat.
Proof.
  unfold countTask. induction l as [|x l IH]; intros Hnd Hin; [destruct Hin|].
  cbn in Hnd. inversion Hnd as [|? ? Hx Hnd']; subst. cbn.
  destruct Hin as [->|Hin].
  - rewrite Nat.eqb_refl. cbn.
    assert (E : filter (fun x => negb (Nat.eqb (tid x) (tid tm))) l = l).
    { apply forallb_filter_id. apply forallb_forall. intros y Hy.
      apply negb_true_iff, Nat.eqb_neq. intros Heq. apply Hx. rewrite <- Heq.
      apply in_map. exact Hy. }
    rewrite E. destruct (p (task tm)); cbn; lia.
  - assert (Hne : Nat.eqb (tid x) (tid tm) = false).
    { apply Nat.eqb_neq. intros Heq. apply Hx. rewrite Heq. apply in_map. exact Hin. }
    rewrite Hne. cbn. specialize (IH Hnd' Hin).
    destruct (p (task x)); cbn; lia.
Qed.

Lemma NoDup_tid_filter f (l : list Timer) :
  NoDup (map tid l) -> NoDup (map tid (filter f l)).
Proof.
  induction l as [|x l IH]; intros H; [constructor|]. cbn in *.
  inversion H as [|? ? Hx Hnd]; subst. destruct (f x); cbn; [|auto].
  constructor; [|auto]. intros Hin. apply Hx.
  apply in_map_iff in Hin. destruct Hin as (y & Hy & Hin). apply filter_In in Hin.
  rewrite <- Hy. apply in_map. tauto.
Qed.

Lemma NoDup_tid_snoc (l : list Timer) x :
  NoDup (map tid l) -> (forall tm, In tm l -> (tid tm < tid x)%nat) ->
  NoDup (map tid (l ++ [x])).
Proof.
  intros Hnd Hlt. rewrite map_app. cbn. apply NoDup_app; [exact Hnd|constructor; [intros []|constructor]|].
  intros a Ha [<-|[]]. apply in_map_iff in Ha. destruct Ha as (y & Hy & Hin).
  specialize (Hlt y Hin). lia.
Qed.

Lemma earliest_In tm l : In (earliest tm l) (tm :: l).
Proof.
  revert tm. induction l as [|x l IH]; intros tm; cbn; [left; reflexivity|].
  destruct (due x <? due tm).
  - destruct (IH x) as [H|H]; [right; left; exact H|right; right; exact H].
  - destruct (IH tm) as [H|H]; [left; exact H|right; right; exact H].
Qed.

Lemma nextTimer_In s tm : nextTimer s = Some tm -> In tm (timers s).
Proof.
  unfold nextTimer. destruct (timers s) as [|x l]; [discriminate|].
  intros [= <-]. apply earliest_In.
Qed.

Arguments countTask : simpl never.

Lemma countTask_nil p : countTask p [] = 0%nat.
Proof. reflexivity. Qed.

Lemma countTask_single p x : countTask p [x] = if p (task x) then 1%nat else 0%nat.
Proof. unfold countTask. cbn. destruct (p (task x)); reflexivity. Qed.

Ltac orch_intro H :=
  destruct H as [Hcar Hcool Hcd Hquiet Hchat Hids Hnd Hmic]; unfold carriers in Hcar.

Ltac orch_goal :=
  constructor; unfold carriers; prims; cbn;
  rewrite ?countTask_app, ?length_app, ?countTask_single, ?countTask_nil; cbn.

(** Membership in a timer list built with [++], [filter] and literals. *)
Ltac in_split Hin :=
  repeat (rewrite ?in_app_iff, ?filter_In in Hin; cbn in Hin);
  repeat match goal with
         | H : _ \/ _ |- _ => destruct H
         | H : _ /\ _ |- _ => destruct H
         | H : False |- _ => destruct H
         | H : {| tid := _; due := _; task := _ |} = _ |- _ => subst; cbn in *
         end.

Ltac orch_ids :=
  let tm := fresh "tm" in let Hin := fresh "Hin" in
  intros tm Hin; in_split Hin;
  try match goal with
      | Hi : In ?x (timers ?s), Hids : forall y, In y (timers ?s) -> (tid y < _)%nat |- _ =>
          specialize (Hids x Hi)
      end; lia.

Ltac orch_nodup :=
  repeat first
    [ assumption
    | apply NoDup_tid_filter
    | apply NoDup_tid_snoc; [|cbn; orch_ids] ].

Ltac orch_mic :=
  let t := fresh "t" in let Ht := fresh "Ht" in
  let tm := fresh "tm" in let Hin := fresh "Hin" in let Heq := fresh "Heq" in
  let Hl := fresh "Hl" in let Ha := fresh "Ha" in
  intros t Ht;
  match goal with
  | Hmic : forall t, micUnmuteTimeoutRef ?s = Some t -> _ |- _ =>
      destruct (Hmic t Ht) as [Hl Ha]
  end;
  split; [lia|];
  intros tm Hin Heq; in_split Hin;
  first [ lia | eauto ].

Ltac orch_close :=
  cbn [negb] in *; rewrite ?andb_false_r, ?andb_true_r in *; cbn [negb andb] in *;
  auto; try lia; try orch_ids; try orch_nodup; try orch_mic.

Lemma Orch_triggerInterrupt m s :
  judgeInFlight s = [] -> interruptCooldownRef s = false ->
  Orch s -> Orch (triggerInterrupt m s).
Proof.
  intros Hfl Hc H. unfold triggerInterrupt.
  destruct (truthyOpt (chatIdRef s)) eqn:Echat; cbn [negb orb]; [|assumption].
  destruct (isInterruptingRef s) eqn:Eref; [assumption|].
  cbv zeta. orch_intro H. rewrite Hc, Eref in *. cbn in Hcool.
  orch_goal; auto; try lia; try orch_ids; try orch_nodup; try orch_mic.
Qed.

Lemma Orch_judgeResponded id r s : Inv s -> Orch s -> Orch (judgeResponded id r s).
Proof.
  intros Hinv H. unfold judgeResponded.
  destruct (existsb (Nat.eqb id) (judgeInFlight s)) eqn:E; [|assumption].
  apply existsb_exists in E. destruct E as (x & Hx & Hid). apply Nat.eqb_eq in Hid. subst x.
  destruct (inv_flight s Hinv id Hx) as [Hl _].
  assert (Hc : interruptCooldownRef s = false).
  { destruct (interruptCooldownRef s) eqn:Ec; [|reflexivity].
    rewrite (orch_quiet s H Ec) in Hx. destruct Hx. }
  cbv zeta.
  assert (Hf : filter (fun i => negb (Nat.eqb i id)) (judgeInFlight s) = [])
    by (rewrite Hl; cbn; rewrite Nat.eqb_refl; reflexivity).
  rewrite Hf.
  assert (H' : Orch (set_judgeInFlight [] s)).
  { orch_intro H. orch_goal; auto. }
  destruct r as [| |i [m|]]; try assumption.
  destruct (i && truthy m && truthyOpt (chatIdRef (set_judgeInFlight [] s))); [|assumption].
  apply Orch_triggerInterrupt; [reflexivity|exact Hc|exact H'].
Qed.

Lemma Orch_inputResponded id r s : Orch s -> Orch (inputResponded id r s).
Proof.
  intros H. unfold inputResponded.
  destruct (find (fun p => Nat.eqb (fst p) id) (inputInFlight s)) as [[i m]|] eqn:E;
    [|assumption].
  apply find_some in E. destruct E as [Hin Hid]. cbn in Hid. apply Nat.eqb_eq in Hid. subst i.
  orch_intro H.
  destruct (inputInFlight s) as [|p l] eqn:El; [destruct Hin|].
  destruct (isInterruptingRef s) eqn:Eref; cbn [List.length] in Hcar; [|lia].
  assert (l = []) by (destruct l; [reflexivity|cbn in Hcar; lia]). subst l.
  destruct Hin as [->|[]]. cbn [List.length] in Hcar.
  unfold interruptInjected. cbv zeta.
  orch_goal; rewrite ?Nat.eqb_refl, ?El, ?Eref; cbn; rewrite ?Nat.eqb_refl; cbn;
    orch_close.
Qed.

Lemma Orch_clear_mic s t :
  micUnmuteTimeoutRef s = Some t -> Orch s -> Orch (clearTimeout t s).
Proof.
  intros Ht H. orch_intro H. destruct (Hmic t Ht) as [Hlt Hall].
  assert (Hc : forall p, p T_micUnmute = false ->
             countTask p (filter (fun tm => negb (Nat.eqb (tid tm) t)) (timers s))
             = countTask p (timers s)).
  { intros p Hp. apply countTask_clear_other. intros tm Hin Heq.
    rewrite (Hall tm Hin Heq). exact Hp. }
  orch_goal; rewrite ?Hc by reflexivity; orch_close.
Qed.

Lemma Orch_triggerPause s : Orch s -> Orch (triggerPause s).
Proof.
  intros H. unfold triggerPause. destruct (isInterruptingRef s) eqn:Eref; [assumption|].
  cbv zeta.
  assert (H1 : Orch (set_isPaused true (mute (muteAudio s))))
    by (orch_intro H; orch_goal; orch_close).
  revert H1. generalize (set_isPaused true (mute (muteAudio s))). intros s1 H1.
  assert (H2 : Orch (match micUnmuteTimeoutRef s1 with
                     | Some t => clearTimeout t s1
                     | None => s1
                     end))
    by (destruct (micUnmuteTimeoutRef s1) eqn:E; [apply Orch_clear_mic|]; assumption).
  revert H2. generalize (match micUnmuteTimeoutRef s1 with
                         | Some t => clearTimeout t s1
                         | None => s1
                         end). intros s2 H2.
  orch_intro H2. orch_goal; orch_close.
  intros t [= <-]. split; [lia|]. intros tm Hin Heq. in_split Hin; [|reflexivity].
  match goal with Hi : In tm (timers s2) |- _ => specialize (Hids tm Hi); lia end.
Qed.

Lemma Orch_handleResume s : Orch s -> Orch (handleResume s).
Proof.
  intros H. unfold handleResume. destruct (isInterruptingRef s) eqn:Eref; [assumption|].
  cbv zeta.
  assert (H2 : Orch (match micUnmuteTimeoutRef s with
                     | Some t => clearTimeout t s
                     | None => s
                     end))
    by (destruct (micUnmuteTimeoutRef s) eqn:E; [apply Orch_clear_mic|]; assumption).
  revert H2. generalize (match micUnmuteTimeoutRef s with
                         | Some t => clearTimeout t s
                         | None => s
                         end). intros s2 H2.
  orch_intro H2. orch_goal; orch_close.
Qed.

Lemma Orch_callLLMJudge sp s : Orch s -> Orch (callLLMJudge sp s).
Proof.
  intros H. unfold callLLMJudge.
  destruct (interruptCooldownRef s) eqn:Ec; [assumption|].
  destruct (isInterruptingRef s) eqn:Er; [assumption|]. cbn [orb].
  repeat match goal with |- Orch (if ?c then _ else _) => destruct c; [assumption|] end.
  unfold dispatchJudge. cbv zeta. cbn.
  orch_intro H. rewrite Ec, Er in *.
  destruct (judgeAbortControllerRef s); orch_goal; rewrite ?Ec, ?Er; orch_close;
    try discriminate.
Qed.

Lemma Orch_detectKeywords r t s : Orch s -> Orch (detectKeywords r t s).
Proof.
  intros H. unfold detectKeywords. cbv zeta.
  repeat match goal with |- Orch (match ?c with _ => _ end) => destruct c end;
    try assumption; try (apply Orch_triggerPause; assumption);
    orch_intro H; orch_goal; orch_close.
Qed.

Lemma Orch_messagesEffect r s : Orch s -> Orch (messagesEffect r s).
Proof.
  intros H. unfold messagesEffect.
  destruct (lastOpt (messages s)) as [[c| |t e i|t|]|]; try assumption.
  - destruct (truthy c) eqn:Ec; [|assumption]. orch_intro H. orch_goal; orch_close.
  - orch_intro H. orch_goal; orch_close.
  - cbv zeta.
    match goal with
    | |- context [detectKeywords r t ?s0] =>
        assert (H0 : Orch s0)
          by (destruct (i && (turnStartTimeRef s =? 0));
              orch_intro H; orch_goal; orch_close);
        generalize (Orch_detectKeywords r t s0 H0); generalize (detectKeywords r t s0)
    end.
    intros s1 H1.
    match goal with
    | |- context [if negb i && truthy t then _ (_ _ _ ?s2) else _] =>
        assert (H2 : Orch s2)
          by (destruct (i && negb (isInterruptingRef s1));
              [apply Orch_callLLMJudge|]; assumption);
        generalize dependent s2
    end.
    intros s2 H2. destruct (negb i && truthy t); [|assumption].
    orch_intro H2. orch_goal; orch_close.
  - cbv zeta. destruct (truthy t); orch_intro H; orch_goal; orch_close.
Qed.

Lemma Orch_resumeEffect r s : Orch s -> Orch (resumeEffect r s).
Proof.
  intros H. unfold resumeEffect.
  destruct (negb (r_isPaused r) || r_isMuted r); [assumption|].
  destruct (lastOpt (messages s)) as [[c| |t e i|t|]|]; try assumption.
  destruct (_ && _); [|assumption]. apply Orch_handleResume. assumption.
Qed.

Lemma Orch_commit s : Inv s -> Orch s -> Orch (commit s).
Proof.
  intros Hinv H. destruct (commit_effects s) as (b1 & b2 & b3 & -> & _). cbv zeta.
  assert (H1 : Orch (if b1 then set_isInterruptingRef (isInterrupting s)
                                  (set_rendered (snapshot s) s)
                     else set_rendered (snapshot s) s)).
  { rewrite (inv_sync s Hinv). destruct b1; orch_intro H; orch_goal; orch_close. }
  revert H1. generalize (if b1 then set_isInterruptingRef (isInterrupting s)
                                      (set_rendered (snapshot s) s)
                         else set_rendered (snapshot s) s). intros s1 H1.
  assert (H2 : Orch (if b2 then messagesEffect (snapshot s) s1 else s1))
    by (destruct b2; [apply Orch_messagesEffect|]; assumption).
  revert H2. generalize (if b2 then messagesEffect (snapshot s) s1 else s1). intros s2 H2.
  destruct b3; [apply Orch_resumeEffect|]; assumption.
Qed.

Lemma Orch_rerender n : forall s, Inv s -> Orch s -> Orch (rerender n s).
Proof.
  induction n as [|n IH]; intros s Hi H; cbn; [assumption|].
  destruct (stable s); [assumption|]. apply IH; [apply Inv_commit|apply Orch_commit]; assumption.
Qed.

Lemma Orch_fire c s tm :
  Orch s -> In tm (timers s) ->
  Orch (runTask (task tm) (set_clock c (clearTimeout (tid tm) s))).
Proof.
  intros H Hin. orch_intro H.
  pose proof (countTask_clear_one isSettledTask tm (timers s) Hnd Hin) as C1.
  pose proof (countTask_clear_one isUnmuteUserTask tm (timers s) Hnd Hin) as C2.
  pose proof (countTask_clear_one isCooldownTask tm (timers s) Hnd Hin) as C3.
  rewrite C1, C2 in Hcar. rewrite C3 in Hcool. clear C1 C2 C3.
  destruct (task tm) eqn:Et; cbn [isSettledTask isUnmuteUserTask isCooldownTask] in *;
    unfold clearTimeout; cbn [runTask isInterruptingRef set_clock set_timers];
    unfold interruptSettled; cbv zeta;
    destruct (isInterruptingRef s) eqn:Er; destruct (interruptCooldownRef s) eqn:Ec;
    cbn [negb andb] in *; try lia;
    try (specialize (Hcd eq_refl); discriminate);
    orch_goal; rewrite ?Er, ?Ec; orch_close.
Qed.

Lemma Orch_step s e s' : Inv s -> Orch s -> step s e = Some s' -> Orch s'.
Proof.
  intros Hi H. destruct e as [m|id r|id r| |d]; cbn [step].
  - intros [= <-]. unfold settle. apply Orch_rerender.
    + destruct Hi. constructor; auto.
    + orch_intro H. orch_goal; orch_close.
  - intros [= <-]. unfold settle. apply Orch_rerender.
    + apply Inv_judgeResponded, Hi.
    + apply Orch_judgeResponded; assumption.
  - intros [= <-]. unfold settle. apply Orch_rerender.
    + apply Inv_inputResponded, Hi.
    + apply Orch_inputResponded; assumption.
  - destruct (nextTimer s) as [tm|] eqn:E; [|discriminate]. intros [= <-].
    unfold settle. apply Orch_rerender.
    + apply Inv_runTask. destruct Hi. prims. constructor; cbn; auto.
      unfold micTimersTracked in *. cbn. intros x Hx. apply filter_In in Hx.
      destruct Hx as [Hx _]. auto.
    + apply Orch_fire; [assumption|]. apply nextTimer_In. exact E.
  - destruct (_ && _); [|discriminate]. intros [= <-]. orch_intro H. orch_goal; orch_close.
Qed.

Lemma Orch_init t0 : Orch (init t0).
Proof.
  constructor; cbn; try reflexivity; try discriminate.
  - intros tm [].
  - constructor.
Qed.

Lemma reachable_Orch s : reachable s -> Orch s /\ Inv s.
Proof.
  intros (t0 & es & _ & H).
  assert (G : forall es s0 s1, Inv s0 -> Orch s0 -> run s0 es = Some s1 -> Orch s1 /\ Inv s1).
  { clear. induction es as [|e es IH]; intros s0 s1 Hi Ho; cbn.
    - intros [= <-]. split; assumption.
    - destruct (step s0 e) as [s2|] eqn:E; [|discriminate].
      apply IH; [eapply Inv_step|eapply Orch_step]; eassumption. }
  eapply G; [apply Inv_init|apply Orch_init|exact H].
Qed.

(** X2: the orchestrator never runs two interruptions at once.  In every
    reachable state exactly one of the three things that carry an
    interruption (the 200 ms timer, the awaited assistant-input call, the
    4 s timer) is pending while [isInterruptingRef] is set and none
    otherwise, and exactly one cooldown timer is pending while cooling and
    none otherwise; while interrupting, the cooldown flag is set, the
    microphone is muted and the chat id is known. *)
Theorem X2_one_interruption_at_a_time s :
  reachable s ->
  carriers s = (if isInterruptingRef s then 1%nat else 0%nat) /\
  countTask isCooldownTask (timers s) =
    (if interruptCooldownRef s && negb (isInterruptingRef s) then 1%nat else 0%nat) /\
  (isInterruptingRef s = true ->
   interruptCooldownRef s = true /\ isMuted s = true /\ truthyOpt (chatIdRef s) = true).
Proof.
  intros Hr. destruct (reachable_Orch s Hr) as [Ho Hi].
  split; [apply orch_carriers; exact Ho|]. split; [apply orch_cooling; exact Ho|].
  intros Href. pose proof (orch_cooldown s Ho Href) as Hc.
  split; [exact Hc|]. split; [apply (inv_muted s Hi Href)|apply (orch_chat s Ho Hc)].
Qed.

Lemma X2_witness :
  reachable demoInterrupting /\
  carriers demoInterrupting = (if isInterruptingRef demoInterrupting then 1%nat else 0%nat).
Proof.
  split; [exact demoInterrupting_reachable|].
  exact (proj1 (X2_one_interruption_at_a_time demoInterrupting demoInterrupting_reachable)).
Defined.

(** X3: from the start of an interruption to the end of its cooldown no
    judge call is outstanding, [callLLMJudge] issues none, and a judge
    response, whatever it says, changes nothing: an interruption starts
    only when the cooldown flag is clear. *)
Theorem X3_no_judge_during_cooldown s :
  reachable s -> interruptCooldownRef s = true ->
  judgeInFlight s = [] /\
  (forall speech, callLLMJudge speech s = s) /\
  (forall id r, step s (E_judgeResponse id r) = Some s).
Proof.
  intros Hr Hc. destruct (reachable_Orch s Hr) as [Ho Hi].
  pose proof (orch_quiet s Ho Hc) as Hq.
  split; [exact Hq|]. split.
  - intros speech. unfold callLLMJudge. rewrite Hc. reflexivity.
  - intros id r. cbn [step]. unfold judgeResponded. rewrite Hq. cbn [existsb].
    rewrite settle_of_stable by (apply reachable_stable; exact Hr). reflexivity.
Qed.

Lemma demoCooling_reachable : reachable demoCooling.
Proof.
  exists 1000000,
    (demoStart ++
     [E_judgeResponse 1 (J_ok true (Some demoVerdict)); E_timer;
      E_inputResponse 3 I_ok; E_timer; E_timer; E_wait 7800])%list.
  split; [lia|]. vm_compute. reflexivity.
Qed.

Lemma X3_witness :
  reachable demoCooling /\ interruptCooldownRef demoCooling = true /\
  judgeInFlight demoCooling = [].
Proof.
  assert (H : interruptCooldownRef demoCooling = true) by (vm_compute; reflexivity).
  split; [exact demoCooling_reachable|]. split; [exact H|].
  exact (proj1 (X3_no_judge_during_cooldown demoCooling demoCooling_reachable H)).
Defined.

(** X10: rendering always settles.  From any state three renders at most
    reach a state in which no effect has a changed dependency, so the
    effects on [messages], [isPaused] and [isMuted] cannot re-trigger each
    other for ever; every state the component reaches is settled. *)
Theorem X10_rendering_settles :
  (forall s, stable (settle s) = true) /\
  (forall s, stable (commit (commit (commit s))) = true \/
             stable (commit (commit s)) = true \/ stable (commit s) = true \/
             stable s = true) /\
  (forall s, reachable s -> stable s = true).
Proof.
  split; [exact settle_stable|]. split; [|exact reachable_stable].
  intros s. pose proof (settle_stable s) as H. unfold settle in H. cbn [rerender] in H.
  destruct (stable s) eqn:E0; [auto|].
  destruct (stable (commit s)) eqn:E1; [auto|].
  destruct (stable (commit (commit s))) eqn:E2; auto.
Qed.

(** ** The mode controller *)

Arguments mentions : simpl never.

Lemma find_guard {A B : Type} (f : A -> bool) (b : bool) (l : list A) (X Y : B) :
  match find (fun k => f k && b) l with Some _ => X | None => Y end =
  if existsb f l && b then X else Y.
Proof.
  destruct b.
  - induction l as [|a l IH]; cbn; [reflexivity|].
    destruct (f a); cbn; [reflexivity|exact IH].
  - rewrite andb_false_r.
    induction l as [|a l IH]; cbn; [reflexivity|]. rewrite andb_false_r. exact IH.
Qed.

Lemma detectKeywords_switch r t s :
  isPausePhrase t = false \/ r_isPaused r = true ->
  detectKeywords r t s =
  if mentions QUICK_KEYWORDS t && negb (Mode_eqb (r_mode r) quick)
  then sendSessionSettings QUICK_CONTEXT (set_mode quick s)
  else if mentions DETAILED_KEYWORDS t && negb (Mode_eqb (r_mode r) detailed)
       then sendSessionSettings DETAILED_CONTEXT (set_mode detailed s)
       else s.
Proof.
  intros H. unfold detectKeywords. cbv zeta.
  rewrite (find_guard (fun kw => includes (toLowerCase t) kw) (negb (r_isPaused r))
             PAUSE_KEYWORDS).
  assert (E : existsb (fun kw => includes (toLowerCase t) kw) PAUSE_KEYWORDS
              && negb (r_isPaused r) = false).
  { destruct H as [H| ->]; [|apply andb_false_r].
    unfold isPausePhrase in H. rewrite H. reflexivity. }
  rewrite E.
  rewrite (find_guard (fun kw => includes (toLowerCase t) kw)
             (negb (Mode_eqb (r_mode r) quick)) QUICK_KEYWORDS).
  rewrite (find_guard (fun kw => includes (toLowerCase t) kw)
             (negb (Mode_eqb (r_mode r) detailed)) DETAILED_KEYWORDS).
  reflexivity.
Qed.

Lemma callLLMJudge_modes sp s :
  mode (callLLMJudge sp s) = mode s /\
  calmStep (fun a => negb (isModeSwitch a)) s (callLLMJudge sp s).
Proof.
  unfold callLLMJudge, dispatchJudge.
  repeat match goal with |- context [if ?c then _ else _] => destruct c end;
    try (split; [reflexivity|apply calmStep_refl]).
  cbv zeta. cbn. destruct (judgeAbortControllerRef s) as [c|]; (split; [reflexivity|]).
  - calm_by [(clock s, AbortJudge c);
             (clock s, FetchJudge (nextId s) sp (sliceLast 4 (conversationHistoryRef s))
                         (speakingTime s))].
  - calm_by [(clock s, FetchJudge (nextId s) sp (sliceLast 4 (conversationHistoryRef s))
                         (speakingTime s))].
Qed.

(** The calls by which a render's mode controller answers [text]. *)
Lemma messagesEffect_modes r s t p i :
  lastOpt (messages s) = Some (user_message t p i) ->
  isPausePhrase t = false \/ r_isPaused r = true ->
  let q := mentions QUICK_KEYWORDS t && negb (Mode_eqb (r_mode r) quick) in
  let d := mentions DETAILED_KEYWORDS t && negb (Mode_eqb (r_mode r) detailed) in
  mode (messagesEffect r s) = (if q then quick else if d then detailed else mode s) /\
  isPaused (messagesEffect r s) = isPaused s /\ isMuted (messagesEffect r s) = isMuted s /\
  timers (messagesEffect r s) = timers s /\
  exists rest,
    trace (messagesEffect r s) =
      (trace s ++
       (if q then [(clock s, SendSessionSettings QUICK_CONTEXT)]
        else if d then [(clock s, SendSessionSettings DETAILED_CONTEXT)] else []) ++
       rest)%list /\
    Forall (fun a => isModeSwitch (snd a) = false) rest /\
    (i = false -> rest = []).
Proof.
  intros Hl Hp q d. unfold messagesEffect. rewrite Hl. cbv zeta.
  rewrite (detectKeywords_switch r t _ Hp). fold q d.
  match goal with
  | |- context [if q then ?a else if d then ?b else ?c] =>
      assert (H1 : mode (if q then a else if d then b else c) =
                   (if q then quick else if d then detailed else mode s) /\
                   isPaused (if q then a else if d then b else c) = isPaused s /\
                   isMuted (if q then a else if d then b else c) = isMuted s /\
                   timers (if q then a else if d then b else c) = timers s /\
                   trace (if q then a else if d then b else c) =
                     (trace s ++
                      (if q then [(clock s, SendSessionSettings QUICK_CONTEXT)]
                       else if d then [(clock s, SendSessionSettings DETAILED_CONTEXT)]
                            else []))%list)
        by (destruct q; [|destruct d]; destruct (i && (turnStartTimeRef s =? 0));
            cbn; rewrite ?app_nil_r; repeat split);
      generalize dependent (if q then a else if d then b else c)
  end.
  intros s1 (Hm & Hpa & Hmu & Htm & Htr).
  match goal with
  | |- context [if ?c then callLLMJudge t s1 else s1] =>
      assert (H2 : mode (if c then callLLMJudge t s1 else s1) = mode s1 /\
                   calmStep (fun a => negb (isModeSwitch a)) s1
                     (if c then callLLMJudge t s1 else s1) /\
                   (i = false -> trace (if c then callLLMJudge t s1 else s1) = trace s1))
        by (destruct i; cbn [andb];
            [destruct (negb (isInterruptingRef s1));
               [destruct (callLLMJudge_modes t s1) as [HA HB];
                split; [exact HA|split; [exact HB|intros; discriminate]]
               |split; [reflexivity|split; [apply calmStep_refl|intros; discriminate]]]
            |split; [reflexivity|split; [apply calmStep_refl|reflexivity]]]);
      generalize dependent (if c then callLLMJudge t s1 else s1)
  end.
  intros s2 (Hm2 & (Hpa2 & Hmu2 & _ & Htm2 & _ & _ & rest & Htr2 & Frest) & Hi2).
  assert (Hfin : forall x,
            mode (if negb i && truthy t then set_turnStartTimeRef 0 (pushHistory user t x)
                  else x) = mode x /\
            isPaused (if negb i && truthy t then set_turnStartTimeRef 0 (pushHistory user t x)
                  else x) = isPaused x /\
            isMuted (if negb i && truthy t then set_turnStartTimeRef 0 (pushHistory user t x)
                  else x) = isMuted x /\
            timers (if negb i && truthy t then set_turnStartTimeRef 0 (pushHistory user t x)
                  else x) = timers x /\
            trace (if negb i && truthy t then set_turnStartTimeRef 0 (pushHistory user t x)
                  else x) = trace x)
    by (intros x; destruct (negb i && truthy t); repeat split).
  destruct (Hfin s2) as (-> & -> & -> & -> & ->).
  rewrite Hm2, Hm, Hpa2, Hpa, Hmu2, Hmu, Htm2, Htm. repeat (split; [reflexivity|]).
  exists rest. split; [rewrite Htr2, Htr, <- app_assoc; reflexivity|]. split.
  - eapply Forall_impl; [|exact Frest]. intros a Ha. apply negb_true_iff. exact Ha.
  - intros Hi. specialize (Hi2 Hi). rewrite Htr2 in Hi2.
    rewrite <- (app_nil_r (trace s1)) in Hi2 at 2. apply app_inv_head in Hi2. exact Hi2.
Qed.

(** X4: the mode controller.  A user transcript that is no pause phrase,
    arriving while the conversation is not paused, switches the mode by
    priority: to quick when it mentions a brevity keyword and the mode is
    not quick already, otherwise to detailed when it mentions an elaboration
    keyword and the mode is not detailed already, otherwise not at all.  One
    [sendSessionSettings] call goes out per switch and none without; pause
    flags and timers stay as they are, and a final transcript causes no
    other call.  (So a transcript that mentions both kinds of keyword flips
    the mode at every event that carries it.) *)
Theorem X4_mode_switch s text prosody interim s1 :
  stable s = true -> isPaused s = false -> isPausePhrase text = false ->
  step s (E_message (user_message text prosody interim)) = Some s1 ->
  let q := mentions QUICK_KEYWORDS text && negb (Mode_eqb (mode s) quick) in
  let d := mentions DETAILED_KEYWORDS text && negb (Mode_eqb (mode s) detailed) in
  mode s1 = (if q then quick else if d then detailed else mode s) /\
  isPaused s1 = false /\ isMuted s1 = isMuted s /\ timers s1 = timers s /\
  exists rest,
    trace s1 =
      (trace s ++
       (if q then [(clock s, SendSessionSettings QUICK_CONTEXT)]
        else if d then [(clock s, SendSessionSettings DETAILED_CONTEXT)] else []) ++
       rest)%list /\
    Forall (fun a => isModeSwitch (snd a) = false) rest /\
    (interim = false -> rest = []).
Proof.
  intros Hst Hp Hph E q d.
  set (m := user_message text prosody interim) in *.
  pose proof (commit_arrival s m Hst) as Hc.
  set (r := snapshot (arrived s m)) in *.
  set (a0 := set_rendered r (arrived s m)) in *.
  assert (Hl : lastOpt (messages a0) = Some m) by apply lastOpt_snoc.
  assert (Hrp : r_isPaused r = false) by exact Hp.
  assert (Hres : forall x, resumeEffect r x = x)
    by (intros x; unfold resumeEffect; rewrite Hrp; reflexivity).
  rewrite Hres in Hc.
  destruct (messagesEffect_modes r a0 text prosody interim Hl (or_introl Hph))
    as (Hm & Hpa & Hmu & Htm & rest & Htr & Frest & Hi).
  change (r_mode r) with (mode s) in Hm, Htr. fold q d in Hm, Htr.
  rewrite <- Hc in Hm, Hpa, Hmu, Htm, Htr.
  change (mode a0) with (mode s) in Hm. change (isPaused a0) with (isPaused s) in Hpa.
  change (isMuted a0) with (isMuted s) in Hmu. change (timers a0) with (timers s) in Htm.
  change (trace a0) with (trace s) in Htr. change (clock a0) with (clock s) in Htr.
  assert (Hflags : sameFlags (arrived s m) (commit (arrived s m)))
    by (split; [rewrite Hpa|rewrite Hmu]; reflexivity).
  assert (Hfields :
    mode s1 = mode (commit (arrived s m)) /\ isPaused s1 = isPaused (commit (arrived s m)) /\
    isMuted s1 = isMuted (commit (arrived s m)) /\
    timers s1 = timers (commit (arrived s m)) /\ trace s1 = trace (commit (arrived s m))).
  { destruct (step_message_calm s m Hst Hflags) as [E'|E']; rewrite E' in E;
      injection E as <-; repeat split. }
  destruct Hfields as (-> & -> & -> & -> & ->).
  rewrite Hm, Hpa, Hmu, Htm, Hp. repeat (split; [reflexivity|]).
  exists rest. split; [exact Htr|]. split; assumption.
Qed.


(** ** The history of what the agent said *)

(** After a message whose first render leaves the pause flags alone, the
    state is that render's up to the [rendered] field. *)
Lemma step_message_render s m s1 :
  stable s = true ->
  sameFlags (arrived s m) (commit (arrived s m)) ->
  step s (E_message m) = Some s1 ->
  exists rd, s1 = set_rendered rd (commit (arrived s m)).
Proof.
  intros Hst Hf E. destruct (step_message_calm s m Hst Hf) as [E'|E']; rewrite E' in E;
    injection E as <-.
  - exists (rendered (commit (arrived s m))). unfold set_rendered. symmetry. apply state_eta.
  - eexists. reflexivity.
Qed.

Lemma assistant_commit s text :
  stable s = true ->
  commit (arrived s (assistant_message text)) =
  messagesEffect (snapshot (arrived s (assistant_message text)))
    (set_rendered (snapshot (arrived s (assistant_message text)))
       (arrived s (assistant_message text))).
Proof.
  intros Hst. rewrite (commit_arrival s _ Hst).
  set (r := snapshot _). set (a0 := set_rendered r _).
  assert (Hm : messages (messagesEffect r a0) = messages a0)
    by (destruct (messagesEffect_frame r a0) as [H _]; exact H).
  unfold resumeEffect. rewrite Hm.
  assert (Hl : lastOpt (messages a0) = Some (assistant_message text)) by apply lastOpt_snoc.
  rewrite Hl. destruct (negb (r_isPaused r) || r_isMuted r); reflexivity.
Qed.

Lemma assistant_step s text s1 :
  stable s = true -> step s (E_message (assistant_message text)) = Some s1 ->
  conversationHistoryRef s1 =
    (if truthy text then trackAssistant text (conversationHistoryRef s)
     else conversationHistoryRef s) /\
  trace s1 = trace s /\ timers s1 = timers s /\
  isPaused s1 = isPaused s /\ isMuted s1 = isMuted s /\ stable s1 = true.
Proof.
  intros Hst E.
  assert (Hs1 : stable s1 = true) by (cbn [step] in E; injection E as <-; apply settle_stable).
  pose proof (assistant_commit s text Hst) as Hc.
  assert (Hl : lastOpt (messages (set_rendered (snapshot (arrived s (assistant_message text)))
                                    (arrived s (assistant_message text))))
               = Some (assistant_message text)) by apply lastOpt_snoc.
  unfold messagesEffect in Hc. rewrite Hl in Hc. cbv zeta in Hc.
  assert (Hf : sameFlags (arrived s (assistant_message text))
                 (commit (arrived s (assistant_message text))))
    by (rewrite Hc; destruct (truthy text); split; reflexivity).
  destruct (step_message_render s _ s1 Hst Hf E) as [rd ->].
  rewrite Hc in *. destruct (truthy text); repeat split; exact Hs1.
Qed.

Lemma lastOpt_None {A} (l : list A) : lastOpt l = None -> l = [].
Proof.
  unfold lastOpt. destruct (rev l) eqn:E; [|discriminate]. intros _.
  apply (f_equal (@rev A)) in E. rewrite rev_involutive in E. exact E.
Qed.

Lemma lastOpt_Some {A} (l : list A) x : lastOpt l = Some x -> l = (removelast l ++ [x])%list.
Proof.
  unfold lastOpt. destruct (rev l) as [|y r] eqn:E; [discriminate|]. intros [= ->].
  apply (f_equal (@rev A)) in E. rewrite rev_involutive in E. cbn in E.
  rewrite E at 1. rewrite E. rewrite removelast_last. reflexivity.
Qed.

Lemma fragment_append_assoc (c a b : string) :
  (c ++ " " ++ a) ++ " " ++ b = c ++ " " ++ a ++ " " ++ b.
Proof. induction c as [|x c IH]; [reflexivity|]. cbn. f_equal. exact IH. Qed.

Lemma trackAssistant_twice a b h :
  trackAssistant b (trackAssistant a h) = trackAssistant (a ++ " " ++ b) h.
Proof.
  unfold trackAssistant at 2 3. destruct (lastOpt h) as [x|] eqn:E.
  - destruct (Role_eqb (h_role x) assistant) eqn:Er.
    + unfold trackAssistant. rewrite lastOpt_snoc. cbn [h_role h_content]. rewrite Er.
      rewrite removelast_last, fragment_append_assoc. reflexivity.
    + unfold trackAssistant. rewrite lastOpt_snoc. cbn [h_role h_content Role_eqb].
      rewrite removelast_last. reflexivity.
  - unfold trackAssistant. rewrite lastOpt_snoc. cbn [h_role h_content Role_eqb].
    rewrite removelast_last. reflexivity.
Qed.

Lemma trackAssistant_length c h :
  (List.length h <= List.length (trackAssistant c h) <= S (List.length h))%nat /\
  exists e, lastOpt (trackAssistant c h) = Some e /\ h_role e = assistant.
Proof.
  unfold trackAssistant. destruct (lastOpt h) as [x|] eqn:E.
  - destruct (Role_eqb (h_role x) assistant) eqn:Er.
    + split.
      * pose proof (f_equal (@List.length _) (lastOpt_Some h x E)) as Hn.
        rewrite length_app in Hn. rewrite length_app. cbn in *. lia.
      * eexists. split; [apply lastOpt_snoc|]. cbn. destruct (h_role x); [discriminate|reflexivity].
    + split; [rewrite length_app; cbn; lia|]. eexists. split; [apply lastOpt_snoc|reflexivity].
  - split; [rewrite length_app; cbn; lia|]. eexists. split; [apply lastOpt_snoc|reflexivity].
Qed.

(** X6: what the agent says is kept as one history entry per run of
    fragments.  An [assistant_message] with text extends the last history
    entry when that entry is the agent's (also one left by an interruption)
    and starts a new entry otherwise; without text it leaves the history
    alone.  Two fragments in a row leave the history that the single
    fragment "a b" would, so the length grows by one at most; no call is
    made and no timer is set. *)
Theorem X6_assistant_fragments s a b s1 s2 :
  stable s = true ->
  step s (E_message (assistant_message a)) = Some s1 ->
  step s1 (E_message (assistant_message b)) = Some s2 ->
  conversationHistoryRef s1 =
    (if truthy a then trackAssistant a (conversationHistoryRef s)
     else conversationHistoryRef s) /\
  (truthy a = true -> truthy b = true ->
   conversationHistoryRef s2 = trackAssistant (a ++ " " ++ b) (conversationHistoryRef s) /\
   List.length (conversationHistoryRef s2) = List.length (conversationHistoryRef s1) /\
   (List.length (conversationHistoryRef s2) <= S (List.length (conversationHistoryRef s)))%nat /\
   exists e, lastOpt (conversationHistoryRef s2) = Some e /\ h_role e = assistant) /\
  trace s2 = trace s /\ timers s2 = timers s.
Proof.
  intros Hst E1 E2.
  destruct (assistant_step s a s1 Hst E1) as (H1 & T1 & M1 & _ & _ & Hst1).
  destruct (assistant_step s1 b s2 Hst1 E2) as (H2 & T2 & M2 & _).
  split; [exact H1|]. split; [|split; congruence].
  intros Ha Hb. rewrite Ha in H1. rewrite Hb in H2. rewrite H1 in H2.
  rewrite trackAssistant_twice in H2.
  destruct (trackAssistant_length (a ++ " " ++ b) (conversationHistoryRef s)) as [Hlen Hlast].
  destruct (trackAssistant_length a (conversationHistoryRef s)) as [Hlen1 (e & He & Hr)].
  split; [exact H2|]. split; [|split; [rewrite H2; lia|rewrite H2; exact Hlast]].
  rewrite H2, H1, <- trackAssistant_twice.
  unfold trackAssistant at 1. rewrite He.
  assert (Er : Role_eqb (h_role e) assistant = true) by (rewrite Hr; reflexivity).
  rewrite Er. pose proof (f_equal (@List.length _) (lastOpt_Some _ e He)) as Hn.
  rewrite length_app in Hn. rewrite length_app. cbn in *. lia.
Qed.

(** ** A final utterance that pauses the conversation *)

Lemma pausePhrase_truthy t : isPausePhrase t = true -> truthy t = true.
Proof. destruct t; [vm_compute; discriminate|reflexivity]. Qed.

Lemma detectKeywords_pause r t s :
  isPausePhrase t = true -> r_isPaused r = false -> detectKeywords r t s = triggerPause s.
Proof.
  intros H Hp. unfold detectKeywords. cbv zeta.
  rewrite (find_guard (fun kw => includes (toLowerCase t) kw) (negb (r_isPaused r))
             PAUSE_KEYWORDS).
  unfold isPausePhrase in H. rewrite H, Hp. reflexivity.
Qed.

(** A render in which only [isPaused] or [isMuted] changed: the effect on
    [messages] runs again when [isPaused] changed. *)
Lemma commit_repaused s :
  r_messages (rendered s) = List.length (messages s) ->
  r_isInterrupting (rendered s) = isInterrupting s ->
  r_isPaused (rendered s) = negb (isPaused s) ->
  commit s =
  resumeEffect (snapshot s) (messagesEffect (snapshot s) (set_rendered (snapshot s) s)).
Proof.
  intros H1 H2 H3. unfold commit. cbv zeta.
  cbn [snapshot r_messages r_isPaused r_isMuted r_isInterrupting].
  rewrite H1, H2, H3, Nat.eqb_refl, Bool.eqb_reflx.
  destruct (isPaused s); reflexivity.
Qed.

(** X7: a final utterance with a pause phrase is recorded twice.  When it
    arrives while the conversation is neither paused nor interrupted, the
    effect on [messages] pauses the conversation and appends the utterance
    to the history; [isPaused] is one of that effect's dependencies, so it
    runs again on the same message and appends the utterance once more. *)
Theorem X7_pause_phrase_recorded_twice s text prosody s1 :
  stable s = true -> isPaused s = false -> isInterruptingRef s = false ->
  isPausePhrase text = true ->
  step s (E_message (user_message text prosody false)) = Some s1 ->
  isPaused s1 = true /\ isMuted s1 = true /\
  conversationHistoryRef s1 =
    (conversationHistoryRef s ++
     [{| h_role := user; h_content := text |}; {| h_role := user; h_content := text |}])%list.
Proof.
  intros Hst Hp Href Hph E.
  pose proof (pausePhrase_truthy text Hph) as Htr.
  set (m := user_message text prosody false) in *.
  cbn [step] in E. injection E as <-.
  assert (Hu : stable (arrived s m) = false) by (apply arrival_unstable; exact Hst).
  unfold settle.
  change (rerender 3 (arrived s m))
    with (if stable (arrived s m) then arrived s m else rerender 2 (commit (arrived s m))).
  rewrite Hu.
  (* the first render pauses *)
  pose proof (commit_arrival s m Hst) as Hc.
  set (r := snapshot (arrived s m)) in *.
  set (a0 := set_rendered r (arrived s m)) in *.
  assert (Hl : lastOpt (messages a0) = Some m) by apply lastOpt_snoc.
  assert (Hrp : r_isPaused r = false) by exact Hp.
  assert (Hres : forall x, resumeEffect r x = x)
    by (intros x; unfold resumeEffect; rewrite Hrp; reflexivity).
  rewrite Hres in Hc. unfold messagesEffect in Hc. rewrite Hl in Hc. subst m.
  cbv iota beta zeta in Hc. rewrite (detectKeywords_pause r text _ Hph Hrp) in Hc.
  rewrite Htr in Hc. cbn [andb negb] in Hc.
  set (c1 := commit (arrived s (user_message text prosody false))) in *.
  assert (F1 : isPaused c1 = true /\ isMuted c1 = true /\
               conversationHistoryRef c1 =
                 (conversationHistoryRef s ++ [{| h_role := user; h_content := text |}])%list /\
               messages c1 = (messages s ++ [user_message text prosody false])%list /\
               rendered c1 = r /\ isInterrupting c1 = isInterrupting s /\
               isInterruptingRef c1 = isInterruptingRef s).
  { rewrite Hc. unfold triggerPause.
    match goal with
    | |- context [if isInterruptingRef ?x then _ else _] =>
        change (isInterruptingRef x) with (isInterruptingRef s); rewrite Href
    end.
    cbv zeta. destruct (micUnmuteTimeoutRef _); cbn; repeat split; assumption. }
  clearbody c1. clear Hc.
  destruct F1 as (P1 & M1 & H1 & L1 & R1 & I1 & Ref1).
  assert (Hu1 : stable c1 = false).
  { unfold stable, Render_eqb. rewrite R1. cbn. rewrite P1, Hp. cbn.
    rewrite !andb_false_r. reflexivity. }
  change (rerender 2 c1) with (if stable c1 then c1 else rerender 1 (commit c1)).
  rewrite Hu1.
  (* the second render runs the effect on the same message *)
  (* the second render runs the effect on the same message *)
  assert (L1' : lastOpt (messages c1) = Some (user_message text prosody false))
    by (rewrite L1; apply lastOpt_snoc).
  assert (Hc2 : commit c1 =
                messagesEffect (snapshot c1) (set_rendered (snapshot c1) c1)).
  { rewrite commit_repaused.
    - unfold resumeEffect. cbn [snapshot r_isPaused r_isMuted]. rewrite M1.
      rewrite orb_true_r. reflexivity.
    - rewrite R1, L1. reflexivity.
    - rewrite R1, I1. reflexivity.
    - rewrite R1, P1. exact Hrp. }
  set (r1 := snapshot c1) in *. set (c1' := set_rendered r1 c1) in *.
  assert (Hl1 : lastOpt (messages c1') = Some (user_message text prosody false)) by exact L1'.
  assert (Hrp1 : r_isPaused r1 = true) by exact P1.
  destruct (messagesEffect_modes r1 c1' text prosody false Hl1 (or_intror Hrp1))
    as (_ & Hpa & Hmu & _).
  pose proof (messagesEffect_history r1 c1' text prosody false Hl1) as Hh.
  rewrite Htr in Hh. cbn [negb andb] in Hh.
  rewrite <- Hc2 in Hpa, Hmu, Hh.
  change (isPaused c1') with (isPaused c1) in Hpa. change (isMuted c1') with (isMuted c1) in Hmu.
  change (conversationHistoryRef c1') with (conversationHistoryRef c1) in Hh.
  rewrite H1, <- app_assoc in Hh. cbn [app] in Hh. rewrite P1 in Hpa. rewrite M1 in Hmu.
  destruct (commit_outcome c1) as (Hr2 & Hm2 & Hi2 & _).
  set (c2 := commit c1) in *. clearbody c2.
  cbn [rerender]. destruct (stable c2); [repeat split; assumption|].
  rewrite (commit_noop c2) by (rewrite Hr2; cbn; congruence).
  repeat split; assumption.
Qed.

(** ** The requests the component sends *)

Lemma Forall_filter_keeps {A} (P : A -> Prop) f (l : list A) :
  Forall P l -> Forall P (filter f l).
Proof.
  intros H. apply Forall_forall. intros x Hx. apply filter_In in Hx.
  rewrite Forall_forall in H. apply H. tauto.
Qed.

Lemma sliceLast_length {A} n (l : list A) : (List.length (sliceLast n l) <= n)%nat.
Proof. unfold sliceLast. rewrite length_skipn. lia. Qed.

Ltac audit_intro H := destruct H as [Atr Atm].

Ltac audit_goal :=
  constructor; prims; cbn; rewrite ?Forall_app; repeat split;
  try assumption; try (apply Forall_filter_keeps; assumption);
  repeat (constructor; cbn); auto.

Lemma Audit_triggerInterrupt m s : truthy m = true -> Audit s -> Audit (triggerInterrupt m s).
Proof.
  intros Hm H. unfold triggerInterrupt. destruct (_ || _); [assumption|].
  audit_intro H. cbv zeta. audit_goal.
Qed.

Lemma Audit_judgeResponded id r s : Audit s -> Audit (judgeResponded id r s).
Proof.
  intros H. unfold judgeResponded. destruct (existsb _ _); [|assumption].
  assert (H' : Audit (set_judgeInFlight
                        (filter (fun i => negb (Nat.eqb i id)) (judgeInFlight s)) s))
    by (audit_intro H; audit_goal).
  cbv zeta. destruct r as [| |i [m|]]; try assumption.
  destruct (i && truthy m && _) eqn:E; [|assumption].
  apply Audit_triggerInterrupt; [|assumption].
  destruct i, (truthy m); cbn in E; try discriminate. reflexivity.
Qed.

Lemma Audit_inputResponded id r s : Audit s -> Audit (inputResponded id r s).
Proof.
  intros H. unfold inputResponded. destruct (find _ _) as [[k m]|]; [|assumption].
  unfold interruptInjected. cbv zeta. audit_intro H. audit_goal.
Qed.

Lemma Audit_triggerPause s : Audit s -> Audit (triggerPause s).
Proof.
  intros H. unfold triggerPause. destruct (isInterruptingRef s); [assumption|].
  cbv zeta. audit_intro H. cbn. destruct (micUnmuteTimeoutRef s); audit_goal.
Qed.

Lemma Audit_handleResume s : Audit s -> Audit (handleResume s).
Proof.
  intros H. unfold handleResume. destruct (isInterruptingRef s); [assumption|].
  cbv zeta. audit_intro H. destruct (micUnmuteTimeoutRef s); audit_goal.
Qed.

Lemma Audit_callLLMJudge sp s : Audit s -> Audit (callLLMJudge sp s).
Proof.
  intros H. unfold callLLMJudge.
  destruct (_ || _); [assumption|].
  destruct (Nat.ltb (wordCount sp) MIN_WORDS_FOR_JUDGE) eqn:Ew; [assumption|].
  destruct (Qlt_bool (speakingTime s) MIN_SPEAKING_TIME_S) eqn:Et; [assumption|].
  destruct (_ <? _); [assumption|].
  assert (Hreq : requestOk (FetchJudge (nextId s) sp (sliceLast 4 (conversationHistoryRef s))
                              (speakingTime s)) = true).
  { cbn [requestOk]. apply Nat.ltb_ge in Ew. apply Nat.leb_le in Ew. rewrite Ew.
    assert (El : Nat.leb (List.length (sliceLast 4 (conversationHistoryRef s))) 4 = true)
      by (apply Nat.leb_le, sliceLast_length).
    rewrite El. unfold Qlt_bool in Et. apply negb_false_iff in Et. rewrite Et. reflexivity. }
  unfold dispatchJudge. cbv zeta. audit_intro H. cbn.
  destruct (judgeAbortControllerRef s); constructor; prims; cbn;
    rewrite ?Forall_app; repeat split; try assumption;
    repeat (constructor; try exact Hreq); auto.
Qed.

Lemma Audit_detectKeywords r t s : Audit s -> Audit (detectKeywords r t s).
Proof.
  intros H. unfold detectKeywords. cbv zeta.
  destruct (find _ PAUSE_KEYWORDS); [apply Audit_triggerPause, H|].
  destruct (find _ QUICK_KEYWORDS); [audit_intro H; audit_goal|].
  destruct (find _ DETAILED_KEYWORDS); [audit_intro H; audit_goal|assumption].
Qed.

Lemma Audit_unchanged s s' : trace s' = trace s -> timers s' = timers s -> Audit s -> Audit s'.
Proof. intros Ht Hm [A B]. constructor; [rewrite Ht|rewrite Hm]; assumption. Qed.

Lemma Audit_messagesEffect r s : Audit s -> Audit (messagesEffect r s).
Proof.
  intros H. unfold messagesEffect.
  destruct (lastOpt (messages s)) as [[c| |t e i|t|]|]; try assumption.
  - destruct (truthy c); [|assumption]. eapply Audit_unchanged; [| |exact H]; reflexivity.
  - audit_intro H. audit_goal.
  - cbv zeta.
    match goal with
    | |- context [detectKeywords r t ?s0] =>
        assert (H0 : Audit s0)
          by (destruct (i && (turnStartTimeRef s =? 0));
              (eapply Audit_unchanged; [| |exact H]; reflexivity));
        pose proof (Audit_detectKeywords r t s0 H0) as H1;
        generalize dependent (detectKeywords r t s0)
    end.
    intros s1 H1.
    assert (H2 : Audit (if i && negb (isInterruptingRef s1) then callLLMJudge t s1 else s1))
      by (destruct (i && negb (isInterruptingRef s1)); [apply Audit_callLLMJudge|]; assumption).
    destruct (negb i && truthy t); [|assumption].
    eapply Audit_unchanged; [| |exact H2]; reflexivity.
  - cbv zeta. destruct (truthy t); (eapply Audit_unchanged; [| |exact H]; reflexivity).
Qed.

Lemma Audit_resumeEffect r s : Audit s -> Audit (resumeEffect r s).
Proof.
  intros H. unfold resumeEffect. destruct (_ || _); [assumption|].
  destruct (lastOpt (messages s)) as [[c| |t e i|t|]|]; try assumption.
  destruct (_ && _); [apply Audit_handleResume|]; assumption.
Qed.

Lemma Audit_commit s : Audit s -> Audit (commit s).
Proof.
  intros H. destruct (commit_effects s) as (b1 & b2 & b3 & -> & _). cbv zeta.
  assert (H1 : Audit (if b1 then set_isInterruptingRef (isInterrupting s)
                                  (set_rendered (snapshot s) s)
                      else set_rendered (snapshot s) s))
    by (destruct b1; (eapply Audit_unchanged; [| |exact H]; reflexivity)).
  generalize dependent (if b1 then set_isInterruptingRef (isInterrupting s)
                                     (set_rendered (snapshot s) s)
                        else set_rendered (snapshot s) s).
  intros s1 H1.
  assert (H2 : Audit (if b2 then messagesEffect (snapshot s) s1 else s1))
    by (destruct b2; [apply Audit_messagesEffect|]; assumption).
  destruct b3; [apply Audit_resumeEffect|]; assumption.
Qed.

Lemma Audit_settle s : Audit s -> Audit (settle s).
Proof. unfold settle. apply (rerender_keeps Audit Audit_commit). Qed.

Lemma countTask_In p tm l : In tm l -> p (task tm) = true -> (1 <= countTask p l)%nat.
Proof.
  intros Hin Hp. unfold countTask.
  assert (H : In tm (filter (fun x => p (task x)) l)) by (apply filter_In; split; assumption).
  destruct (filter _ l); [destruct H|cbn; lia].
Qed.

(** The 200 ms timer of an interruption fires with the chat id known. *)
Lemma settled_chat s tm m :
  Orch s -> In tm (timers s) -> task tm = T_interruptSettled m ->
  truthyOpt (chatIdRef s) = true.
Proof.
  intros Ho Hin Ht. apply (orch_chat s Ho). apply (orch_cooldown s Ho).
  pose proof (orch_carriers s Ho) as Hc. unfold carriers in Hc.
  assert (H1 : (1 <= countTask isSettledTask (timers s))%nat)
    by (apply (countTask_In _ tm); [assumption|rewrite Ht; reflexivity]).
  destruct (isInterruptingRef s); [reflexivity|lia].
Qed.

Lemma Audit_fire c s tm :
  Orch s -> Audit s -> In tm (timers s) ->
  Audit (runTask (task tm) (set_clock c (clearTimeout (tid tm) s))).
Proof.
  intros Ho H Hin. audit_intro H.
  assert (Htm : carriesText (task tm) = true)
    by (rewrite Forall_forall in Atm; apply Atm; exact Hin).
  destruct (task tm) as [m| | | | |] eqn:Et; cbn [runTask].
  - pose proof (settled_chat s tm m Ho Hin Et) as Hchat. cbn in Htm.
    unfold interruptSettled. cbv zeta. constructor; prims; cbn; rewrite ?Forall_app.
    + split; [assumption|]. repeat constructor. cbn. rewrite Hchat, Htm. reflexivity.
    + apply Forall_filter_keeps. assumption.
  - audit_goal.
  - audit_goal.
  - audit_goal.
  - unfold clearTimeout. cbn [isInterruptingRef set_clock set_timers].
    destruct (negb (isInterruptingRef s)); audit_goal.
  - audit_goal.
Qed.

Lemma Audit_step s e s' : Orch s -> Audit s -> step s e = Some s' -> Audit s'.
Proof.
  intros Ho H. destruct e as [m|id r|id r| |d]; cbn [step].
  - intros [= <-]. apply Audit_settle. eapply Audit_unchanged; [| |exact H]; reflexivity.
  - intros [= <-]. apply Audit_settle, Audit_judgeResponded, H.
  - intros [= <-]. apply Audit_settle, Audit_inputResponded, H.
  - destruct (nextTimer s) as [tm|] eqn:E; [|discriminate]. intros [= <-].
    apply Audit_settle, Audit_fire; [assumption|assumption|]. apply nextTimer_In. exact E.
  - destruct (_ && _); [|discriminate]. intros [= <-].
    eapply Audit_unchanged; [| |exact H]; reflexivity.
Qed.

Lemma reachable_Audit s : reachable s -> Audit s.
Proof.
  intros (t0 & es & _ & H).
  assert (G : forall es s0 s1, Inv s0 -> Orch s0 -> Audit s0 -> run s0 es = Some s1 ->
                               Audit s1).
  { clear. induction es as [|e es IH]; intros s0 s1 Hi Ho Ha; cbn.
    - intros [= <-]. assumption.
    - destruct (step s0 e) as [s2|] eqn:E; [|discriminate].
      apply IH; [eapply Inv_step|eapply Orch_step|eapply Audit_step]; eassumption. }
  apply (G es (init t0) s); [apply Inv_init|apply Orch_init| |exact H].
  constructor; constructor.
Qed.

(** X11: every assistant-input request the component has sent carries a
    chat id and a text, neither of them empty. *)
Theorem X11_input_requests s t id chatId message :
  reachable s -> In (t, FetchAssistantInput id chatId message) (trace s) ->
  truthyOpt chatId = true /\ truthy message = true.
Proof.
  intros Hr Hin. destruct (reachable_Audit s Hr) as [Atr _].
  rewrite Forall_forall in Atr. specialize (Atr _ Hin). cbn [snd requestOk] in Atr.
  apply andb_true_iff in Atr. exact Atr.
Qed.

(** ** The emotions shown with a user message *)

Lemma insertDesc_In e x l : In x (insertDesc e l) <-> x = e \/ In x l.
Proof.
  induction l as [|y l IH]; cbn.
  - split; intros [H|H]; auto.
  - destruct (Qle_bool (score y) (score e)); cbn; [split; intros [H|H]; auto|].
    rewrite IH. tauto.
Qed.

Lemma sortDesc_In x l : In x (sortDesc l) <-> In x l.
Proof.
  induction l as [|y l IH]; cbn; [tauto|]. rewrite insertDesc_In, IH.
  split; intros [H|H]; auto.
Qed.

Lemma insertDesc_sorted e l :
  StronglySorted (fun a b => Qle (score b) (score a)) l ->
  StronglySorted (fun a b => Qle (score b) (score a)) (insertDesc e l).
Proof.
  induction l as [|y l IH]; intros H; cbn.
  - constructor; constructor.
  - inversion H as [|? ? Hs Hf]; subst.
    destruct (Qle_bool (score y) (score e)) eqn:E.
    + apply Qle_bool_iff in E. constructor; [exact H|]. constructor; [exact E|].
      eapply Forall_impl; [|exact Hf]. intros a Ha. cbv beta in *.
      eapply Qle_trans; eassumption.
    + constructor; [apply IH; exact Hs|].
      apply Forall_forall. intros a Ha. apply insertDesc_In in Ha. destruct Ha as [->|Ha].
      * destruct (Qlt_le_dec (score e) (score y)) as [Hlt|Hle].
        -- apply Qlt_le_weak. exact Hlt.
        -- apply Qle_bool_iff in Hle. congruence.
      * rewrite Forall_forall in Hf. apply Hf. exact Ha.
Qed.

Lemma sortDesc_sorted l : StronglySorted (fun a b => Qle (score b) (score a)) (sortDesc l).
Proof. induction l as [|y l IH]; cbn; [constructor|apply insertDesc_sorted, IH]. Qed.

Lemma StronglySorted_split {A} (R : A -> A -> Prop) n (l : list A) :
  StronglySorted R l ->
  StronglySorted R (firstn n l) /\
  forall a b, In a (firstn n l) -> In b (skipn n l) -> R a b.
Proof.
  revert l. induction n as [|n IH]; intros l H.
  - cbn. split; [constructor|intros a b []].
  - destruct l as [|x l]; cbn; [split; [constructor|intros a b []]|].
    inversion H as [|? ? Hs Hf]; subst. destruct (IH l Hs) as [IH1 IH2]. split.
    + constructor; [exact IH1|]. rewrite Forall_forall in *. intros a Ha.
      apply Hf. rewrite <- (firstn_skipn n l). apply in_or_app. left. exact Ha.
    + intros a b [<-|Ha] Hb; [|apply IH2; assumption].
      rewrite Forall_forall in Hf. apply Hf. rewrite <- (firstn_skipn n l).
      apply in_or_app. right. exact Hb.
Qed.

(** X8: [extractEmotions] returns the highest scores above 0.1, three at
    most, highest first.  Each returned emotion is an entry of the scores
    with a score above the threshold; the result is sorted by descending
    score; an entry above the threshold that is left out is left out
    because three entries with scores at least as high were returned; and
    without scores the result is empty. *)
Theorem X8_extractEmotions scores :
  (List.length (extractEmotions scores) <= 3)%nat /\
  StronglySorted (fun a b => Qle (score b) (score a)) (extractEmotions scores) /\
  (forall e, In e (extractEmotions scores) ->
     Qlt EMOTION_THRESHOLD (score e) /\
     exists entries, scores = Some entries /\ In (name e, score e) entries) /\
  (forall entries n q,
     scores = Some entries -> In (n, q) entries -> Qlt EMOTION_THRESHOLD q ->
     In {| name := n; score := q |} (extractEmotions scores) \/
     (List.length (extractEmotions scores) = 3%nat /\
      forall e, In e (extractEmotions scores) -> Qle q (score e))) /\
  (scores = None -> extractEmotions scores = []).
Proof.
  destruct scores as [entries|]; cbn [extractEmotions].
  2:{ split; [cbn; lia|]. split; [constructor|]. split; [intros e []|].
      split; [discriminate|reflexivity]. }
  set (kept := filter (fun e => Qlt_bool EMOTION_THRESHOLD (score e))
                 (map (fun p => {| name := fst p; score := snd p |}) entries)).
  assert (Hkept : forall e, In e kept <->
            In (name e, score e) entries /\ Qlt EMOTION_THRESHOLD (score e)).
  { intros e. unfold kept. rewrite filter_In, in_map_iff. unfold Qlt_bool.
    rewrite negb_true_iff. split.
    - intros [([n q] & <- & Hin) Hq]. cbn in *. split; [exact Hin|].
      destruct (Qlt_le_dec EMOTION_THRESHOLD q) as [Hlt|Hle]; [exact Hlt|].
      apply Qle_bool_iff in Hle. congruence.
    - intros [Hin Hq]. split.
      + exists (name e, score e). split; [destruct e; reflexivity|exact Hin].
      + destruct (Qle_bool (score e) EMOTION_THRESHOLD) eqn:E; [|reflexivity].
        apply Qle_bool_iff in E. exfalso. apply (Qlt_not_le _ _ Hq E). }
  destruct (StronglySorted_split (fun a b => Qle (score b) (score a)) 3 (sortDesc kept)
              (sortDesc_sorted kept)) as [Hs Hcut].
  split; [apply firstn_le_length|]. split; [exact Hs|]. split; [|split; [|discriminate]].
  - intros e He.
    assert (He' : In e (sortDesc kept))
      by (rewrite <- (firstn_skipn 3 (sortDesc kept)); apply in_or_app; left; exact He).
    apply sortDesc_In, Hkept in He'. rename He' into Hk. clear He. rename Hk into He.
    destruct He as [Hin Hq]. split; [exact Hq|]. exists entries. split; [reflexivity|exact Hin].
  - intros entries' n q [= <-] Hin Hq.
    assert (Hk : In {| name := n; score := q |} (sortDesc kept))
      by (apply sortDesc_In, Hkept; split; assumption).
    rewrite <- (firstn_skipn 3 (sortDesc kept)) in Hk. apply in_app_or in Hk.
    destruct Hk as [Hk|Hk]; [left; exact Hk|right]. split.
    + apply firstn_length_le.
      destruct (le_lt_dec 3 (List.length (sortDesc kept))) as [Hl|Hl]; [exact Hl|].
      rewrite skipn_all2 in Hk by lia. destruct Hk.
    + intros e He. apply (Hcut e _ He Hk).
Qed.

(** ** Counting words *)

Lemma truthy_snoc cur c : truthy (cur ++ String c EmptyString) = true.
Proof. destruct cur; reflexivity. Qed.

Lemma splitWs_sep_irrelevant s b1 b2 :
  List.length (filter truthy (splitWs s EmptyString b1)) =
  List.length (filter truthy (splitWs s EmptyString b2)).
Proof.
  destruct s as [|c r]; [reflexivity|]. cbn [splitWs].
  destruct (isSpace c); [|reflexivity]. destruct b1, b2; reflexivity.
Qed.

Lemma splitWs_join c a b : isSpace c = true -> forall cur inSep,
  (inSep = true -> cur = EmptyString) ->
  List.length (filter truthy (splitWs (a ++ String c b) cur inSep)) =
  (List.length (filter truthy (splitWs a cur inSep)) + wordCount b)%nat.
Proof.
  intros Hc. unfold wordCount, split_spaces.
  induction a as [|d r IH]; intros cur inSep Hinv.
  - change (EmptyString ++ String c b) with (String c b). cbn [splitWs].
    rewrite Hc. destruct inSep.
    + rewrite (Hinv eq_refl). cbn [filter truthy List.length].
      apply splitWs_sep_irrelevant.
    + cbn [filter]. destruct (truthy cur); cbn [List.length];
        rewrite (splitWs_sep_irrelevant b true false); reflexivity.
  - change (String d r ++ String c b) with (String d (r ++ String c b)). cbn [splitWs].
    destruct (isSpace d).
    + destruct inSep.
      * apply IH. exact Hinv.
      * cbn [filter]. destruct (truthy cur); cbn [List.length]; rewrite IH; auto.
    + apply IH. discriminate.
Qed.

Lemma splitWs_bound s : forall cur inSep,
  (inSep = true -> cur = EmptyString) ->
  (2 * List.length (filter truthy (splitWs s cur inSep)) <=
   String.length s + (if truthy cur then 2 else 1))%nat.
Proof.
  induction s as [|c r IH]; intros cur inSep Hinv.
  - cbn. destruct (truthy cur); cbn; lia.
  - cbn [splitWs String.length]. destruct (isSpace c).
    + destruct inSep.
      * specialize (IH cur true Hinv). rewrite (Hinv eq_refl) in *. cbn [truthy] in *. lia.
      * specialize (IH EmptyString true (fun _ => eq_refl)). cbn [truthy] in IH.
        cbn [filter]. destruct (truthy cur); cbn [List.length]; lia.
    + specialize (IH (cur ++ String c EmptyString) false).
      rewrite truthy_snoc in IH. specialize (IH ltac:(discriminate)).
      destruct (truthy cur); lia.
Qed.

(** A no-break space separates words as a space does. *)
Lemma wordCount_no_break_space :
  wordCount ("un deux trois quatre cinq six sept" ++ String (ascii_of_nat 160) "?") = 8%nat /\
  wordCount ("one" ++ String (ascii_of_nat 160) "two three") = 3%nat.
Proof. split; vm_compute; reflexivity. Qed.

(** X12: the word count that gates the judge.  Two texts joined by one
    white-space character (a space, a line break or a no-break space, for
    instance) have the words of both, and n words take at least 2n - 1
    characters; so a transcript of fewer than 15 characters never reaches
    the judge. *)
Theorem X12_wordCount a b s speech :
  (forall c, isSpace c = true ->
     wordCount (a ++ String c b) = (wordCount a + wordCount b)%nat) /\
  wordCount (a ++ " " ++ b) = (wordCount a + wordCount b)%nat /\
  (2 * wordCount speech <= String.length speech + 1)%nat /\
  ((String.length speech < 15)%nat -> callLLMJudge speech s = s).
Proof.
  assert (Hjoin : forall c, isSpace c = true ->
            wordCount (a ++ String c b) = (wordCount a + wordCount b)%nat).
  { intros c Hc. unfold wordCount at 1 2, split_spaces.
    apply splitWs_join; [exact Hc|discriminate]. }
  split; [exact Hjoin|]. split; [|split].
  - change (a ++ " " ++ b) with (a ++ String " " b). apply Hjoin. reflexivity.
  - unfold wordCount, split_spaces.
    pose proof (splitWs_bound speech EmptyString false ltac:(discriminate)) as H.
    cbn [truthy] in H. exact H.
  - intros Hlen. unfold callLLMJudge.
    destruct (_ || _); [reflexivity|].
    assert (Hw : Nat.ltb (wordCount speech) MIN_WORDS_FOR_JUDGE = true).
    { apply Nat.ltb_lt. unfold MIN_WORDS_FOR_JUDGE, wordCount, split_spaces.
      pose proof (splitWs_bound speech EmptyString false ltac:(discriminate)) as H.
      cbn [truthy] in H. lia. }
    rewrite Hw. reflexivity.
Qed.

(** ** What does and what does not end a pause *)

(** X5: while the conversation is paused, a user transcript does not end
    the pause when it is a pause phrase, when it has 3 characters at most,
    or when the microphone is still muted: the pause flags and the timers
    stay as they are and no call is made on the microphone or on the agent
    audio. *)
Theorem X5_pause_holds s text prosody interim s1 :
  stable s = true -> isPaused s = true ->
  isPausePhrase text = true \/ (String.length text <= 3)%nat \/ isMuted s = true ->
  step s (E_message (user_message text prosody interim)) = Some s1 ->
  isPaused s1 = true /\ isMuted s1 = isMuted s /\ isAudioMuted s1 = isAudioMuted s /\
  timers s1 = timers s /\
  exists added, trace s1 = (trace s ++ added)%list /\
                Forall (fun p => isAudioAction (snd p) = false) added.
Proof.
  intros Hst Hp Hwhy E.
  set (m := user_message text prosody interim) in *.
  assert (Hl : lastOpt (messages (arrived s m)) = Some m) by apply lastOpt_snoc.
  destruct (arrival_rendered s m Hst) as [_ Hint].
  assert (H2 : isInterruptingRef (arrived s m) = true \/ isPaused (arrived s m) = false \/
               isMuted (arrived s m) = true \/ isPausePhrase text = true \/
               Nat.ltb 3 (String.length text) = false).
  { destruct Hwhy as [H|[H|H]]; auto.
    right. right. right. right. apply Nat.ltb_ge. exact H. }
  destruct (commit_calm (arrived s m) text prosody interim Hl Hint
              (or_intror (or_introl Hp)) H2) as (Hcalm & _ & _).
  assert (Hf : sameFlags (arrived s m) (commit (arrived s m)))
    by (destruct Hcalm as (Ha & Hb & _); split; assumption).
  destruct (step_message_render s m s1 Hst Hf E) as [rd ->].
  destruct Hcalm as (Ha & Hb & Hc & Hd & _ & _ & added & Htr & Fa).
  cbn. rewrite Ha, Hb, Hc, Hd, Htr. repeat (split; [assumption || reflexivity|]).
  exists added. split; [reflexivity|].
  eapply Forall_impl; [|exact Fa]. intros a Hna. apply negb_true_iff. exact Hna.
Qed.

Lemma resumed_render c text prosody interim x :
  isPausePhrase text = false -> isPaused c = false ->
  (lastOpt (messages x) = Some (user_message text prosody interim) /\
   r_isInterrupting (rendered x) = isInterrupting x /\
   calmStep (fun a => negb (isAudioAction a)) c x) ->
  (lastOpt (messages (commit x)) = Some (user_message text prosody interim) /\
   r_isInterrupting (rendered (commit x)) = isInterrupting (commit x) /\
   calmStep (fun a => negb (isAudioAction a)) c (commit x)).
Proof.
  intros Hph Hc (Hl & Hint & Hcalm).
  destruct (commit_outcome x) as (Hr & Hm & Hi & _).
  split; [rewrite Hm; exact Hl|]. split; [rewrite Hr, Hi; reflexivity|].
  eapply calmStep_trans; [exact Hcalm|].
  assert (Hp : isPaused x = false) by (destruct Hcalm as (-> & _); exact Hc).
  apply (commit_calm x text prosody interim Hl Hint); auto.
Qed.

(** X18: a pause ends on the first transcript that qualifies, interim or
    final.  In a reachable state that is paused with the microphone open, a
    user transcript that is no pause phrase and longer than 3 characters
    clears [isPaused] and re-opens agent audio and microphone
    ([unmuteAudio], then [unmute]), whether or not the transcript is
    interim; no microphone timer stays pending, and the other calls made
    while it is processed are none on the two audio paths. *)
Theorem X18_any_transcript_resumes s text prosody interim s' :
  reachable s -> isPaused s = true -> isMuted s = false ->
  isPausePhrase text = false -> (3 < String.length text)%nat ->
  step s (E_message (user_message text prosody interim)) = Some s' ->
  isPaused s' = false /\ isMuted s' = false /\ isAudioMuted s' = false /\
  (forall tm, In tm (timers s') -> task tm <> T_micUnmute) /\
  exists a b,
    trace s' = (trace s ++ a ++ [(clock s, UnmuteAudio); (clock s, Unmute)] ++ b)%list /\
    Forall (fun p => isAudioAction (snd p) = false) a /\
    Forall (fun p => isAudioAction (snd p) = false) b.
Proof.
  intros Hreach Hp Hm Hph Hlen. cbn [step]. intros [= <-].
  pose proof (reachable_stable s Hreach) as Hst.
  destruct (reachable_Inv s Hreach) as [Hmuted _ Hmic _ _ _].
  assert (Href : isInterruptingRef s = false)
    by (destruct (isInterruptingRef s); [rewrite Hmuted in Hm by reflexivity; discriminate
                                        |reflexivity]).
  set (m := user_message text prosody interim).
  assert (Hl : lastOpt (messages (arrived s m)) = Some m) by apply lastOpt_snoc.
  destruct (arrival_rendered s m Hst) as [Hne Hint].
  assert (Hu : stable (arrived s m) = false) by (apply arrival_unstable; exact Hst).
  unfold settle.
  change (rerender 3 (arrived s m))
    with (if stable (arrived s m) then arrived s m else rerender 2 (commit (arrived s m))).
  rewrite Hu.
  (* the first render *)
  pose proof (commit_arrival s m Hst) as Ec.
  set (r := snapshot (arrived s m)) in *. set (s0 := set_rendered r (arrived s m)) in *.
  assert (Hl0 : lastOpt (messages s0) = Some m) by exact Hl.
  assert (Hrp : r_isPaused r = true) by exact Hp.
  assert (Hrm : r_isMuted r = false) by exact Hm.
  destruct (messagesEffect_calm r s0 text prosody interim Hl0 (or_intror (or_introl Hrp)))
    as [Hcalm _].
  pose proof (messagesEffect_ref r s0) as Href2.
  destruct (messagesEffect_frame r s0) as [Hmsg2 Hint2].
  set (s2 := messagesEffect r s0) in *.
  assert (Er : resumeEffect r s2 = handleResume s2).
  { unfold resumeEffect. rewrite Hrp, Hrm, Hmsg2. cbn [negb orb].
    rewrite Hl0. subst m. cbv iota beta.
    rewrite Hph. apply Nat.ltb_lt in Hlen. rewrite Hlen. reflexivity. }
  rewrite Er in Ec.
  destruct Hcalm as (Hp2 & Hm2 & Ham2 & Htm2 & Hmr2 & Hclk2 & pre & Htr2 & Fpre).
  assert (Hmic2 : micTimersTracked s2).
  { unfold micTimersTracked. rewrite Htm2, Hmr2. exact Hmic. }
  destruct (handleResume_acts s2)
    as (Htr & Hp' & Hm' & Ha' & Hclk' & Hnomic & Hmsg' & Hint' & Hren');
    [rewrite Href2; exact Href|exact Hmic2|].
  rewrite <- Ec in *.
  (* the renders that follow *)
  pose proof (rerender_keeps _
                (fun x => resumed_render (commit (arrived s m)) text prosody interim x Hph Hp') 2
                (commit (arrived s m))) as Hk.
  destruct Hk as (_ & _ & Hq & Hmq & Haq & Htq & _ & _ & post & Htrq & Fpost).
  { destruct (commit_outcome (arrived s m)) as (Hr & Hma & Hia & _).
    split; [rewrite Hma; exact Hl|]. split; [|apply calmStep_refl].
    rewrite Hr, Hia. reflexivity. }
  split; [congruence|]. split; [congruence|]. split; [congruence|]. split.
  - intros tm Hin. rewrite Htq in Hin. exact (Hnomic tm Hin).
  - exists pre, post. split; [|split].
    + rewrite Htrq, Htr, Htr2, Hclk2. cbn. rewrite <- !app_assoc. reflexivity.
    + eapply Forall_impl; [|exact Fpre]. intros a Hna. apply negb_true_iff. exact Hna.
    + eapply Forall_impl; [|exact Fpost]. intros a Hna. apply negb_true_iff. exact Hna.
Qed.

(** ** The microphone timer of a pause *)

Lemma NoDup_tid_same (l : list Timer) a b :
  NoDup (map tid l) -> In a l -> In b l -> tid a = tid b -> a = b.
Proof.
  induction l as [|x l IH]; intros Hnd Ha Hb Heq; [destruct Ha|].
  cbn in Hnd. inversion Hnd as [|? ? Hx Hnd']; subst.
  destruct Ha as [->|Ha], Hb as [->|Hb]; auto.
  - exfalso. apply Hx. rewrite Heq. apply in_map. exact Hb.
  - exfalso. apply Hx. rewrite <- Heq. apply in_map. exact Ha.
Qed.

(** X19: pausing again replaces the timer that re-opens the microphone
    ([clearTimeout] before [setTimeout]): in every reachable state at most
    one such timer is pending, and it is the one [micUnmuteTimeoutRef]
    holds. *)
Theorem X19_one_microphone_timer s tm1 tm2 :
  reachable s -> In tm1 (timers s) -> In tm2 (timers s) ->
  task tm1 = T_micUnmute -> task tm2 = T_micUnmute ->
  tm1 = tm2 /\ micUnmuteTimeoutRef s = Some (tid tm1).
Proof.
  intros Hr H1 H2 T1 T2. destruct (reachable_Orch s Hr) as [Ho Hi].
  pose proof (inv_mic s Hi) as Hmic. unfold micTimersTracked in Hmic.
  pose proof (Hmic tm1 H1 T1) as E1. pose proof (Hmic tm2 H2 T2) as E2.
  split; [|exact E1].
  apply (NoDup_tid_same (timers s)); [apply (orch_nodup s Ho)|assumption|assumption|].
  congruence.
Qed.

(** ** The further properties on the demo sessions *)

Lemma X1_witness :
  stable (init 1000000) = true /\
  step (init 1000000) (E_message user_interruption) = Some demoBargeIn /\
  trace demoBargeIn = (trace (init 1000000) ++ [(clock (init 1000000), MuteAudio)])%list.
Proof.
  assert (H1 : stable (init 1000000) = true) by (vm_compute; reflexivity).
  assert (H2 : step (init 1000000) (E_message user_interruption) = Some demoBargeIn)
    by (vm_compute; reflexivity).
  split; [exact H1|]. split; [exact H2|].
  exact (proj1 (X1_user_interruption _ _ H1 H2)).
Defined.

Lemma X4_witness :
  stable (init 1000000) = true /\ isPaused (init 1000000) = false /\
  isPausePhrase "please be brief" = false /\
  step (init 1000000) (E_message (user_message "please be brief" [] false)) = Some demoQuick /\
  mode demoQuick = quick.
Proof.
  assert (H1 : stable (init 1000000) = true) by (vm_compute; reflexivity).
  assert (H2 : isPaused (init 1000000) = false) by reflexivity.
  assert (H3 : isPausePhrase "please be brief" = false) by (vm_compute; reflexivity).
  assert (H4 : step (init 1000000) (E_message (user_message "please be brief" [] false))
               = Some demoQuick) by (vm_compute; reflexivity).
  repeat (split; [assumption|]).
  rewrite (proj1 (X4_mode_switch _ _ _ _ _ H1 H2 H3 H4)). vm_compute. reflexivity.
Defined.

Lemma X5_witness :
  stable demoPaused = true /\ isPaused demoPaused = true /\
  (String.length "ok" <= 3)%nat /\
  step demoPaused (E_message (user_message "ok" [] false)) = Some demoShort /\
  isPaused demoShort = true.
Proof.
  assert (H1 : stable demoPaused = true) by (vm_compute; reflexivity).
  assert (H2 : isPaused demoPaused = true) by (vm_compute; reflexivity).
  assert (H3 : (String.length "ok" <= 3)%nat) by (cbn; lia).
  assert (H4 : step demoPaused (E_message (user_message "ok" [] false)) = Some demoShort)
    by (vm_compute; reflexivity).
  repeat (split; [assumption|]).
  exact (proj1 (X5_pause_holds _ _ _ _ _ H1 H2 (or_intror (or_introl H3)) H4)).
Defined.

Lemma X6_witness :
  stable (init 1000000) = true /\
  step (init 1000000) (E_message (assistant_message "Hello")) = Some demoSaid1 /\
  step demoSaid1 (E_message (assistant_message "there")) = Some demoSaid2 /\
  conversationHistoryRef demoSaid2 = [{| h_role := assistant; h_content := "Hello there" |}].
Proof.
  assert (H1 : stable (init 1000000) = true) by (vm_compute; reflexivity).
  assert (H2 : step (init 1000000) (E_message (assistant_message "Hello")) = Some demoSaid1)
    by (vm_compute; reflexivity).
  assert (H3 : step demoSaid1 (E_message (assistant_message "there")) = Some demoSaid2)
    by (vm_compute; reflexivity).
  repeat (split; [assumption|]).
  rewrite (proj1 (proj1 (proj2 (X6_assistant_fragments _ _ _ _ _ H1 H2 H3))
                    eq_refl eq_refl)).
  vm_compute. reflexivity.
Defined.

Lemma X7_witness :
  stable (init 1000000) = true /\ isPaused (init 1000000) = false /\
  isInterruptingRef (init 1000000) = false /\ isPausePhrase "hold on" = true /\
  step (init 1000000) (E_message (user_message "hold on" [] false)) = Some demoHeld /\
  conversationHistoryRef demoHeld =
    (conversationHistoryRef (init 1000000) ++
     [{| h_role := user; h_content := "hold on" |};
      {| h_role := user; h_content := "hold on" |}])%list.
Proof.
  assert (H1 : stable (init 1000000) = true) by (vm_compute; reflexivity).
  assert (H2 : isPaused (init 1000000) = false) by reflexivity.
  assert (H3 : isInterruptingRef (init 1000000) = false) by reflexivity.
  assert (H4 : isPausePhrase "hold on" = true) by (vm_compute; reflexivity).
  assert (H5 : step (init 1000000) (E_message (user_message "hold on" [] false))
               = Some demoHeld) by (vm_compute; reflexivity).
  repeat (split; [assumption|]).
  exact (proj2 (proj2 (X7_pause_phrase_recorded_twice _ _ _ _ H1 H2 H3 H4 H5))).
Defined.

Lemma X11_witness :
  reachable demoCooling /\
  In (1002000, FetchAssistantInput 3 (Some "chat-1") demoVerdict) (trace demoCooling) /\
  truthyOpt (Some "chat-1") = true /\ truthy demoVerdict = true.
Proof.
  assert (Hin : In (1002000, FetchAssistantInput 3 (Some "chat-1") demoVerdict)
                   (trace demoCooling))
    by (vm_compute; right; right; right; left; reflexivity).
  split; [exact demoCooling_reachable|]. split; [exact Hin|].
  exact (X11_input_requests _ _ _ _ _ demoCooling_reachable Hin).
Defined.

Lemma X18_witness :
  reachable demoPaused /\ isPaused demoPaused = true /\ isMuted demoPaused = false /\
  isPausePhrase "I am back now" = false /\ (3 < String.length "I am back now")%nat /\
  step demoPaused (E_message (user_message "I am back now" [] true))
    = Some demoResumedEarly /\
  isPaused demoResumedEarly = false.
Proof.
  assert (H2 : isPaused demoPaused = true) by (vm_compute; reflexivity).
  assert (H3 : isMuted demoPaused = false) by (vm_compute; reflexivity).
  assert (H4 : isPausePhrase "I am back now" = false) by (vm_compute; reflexivity).
  assert (H5 : (3 < String.length "I am back now")%nat) by (cbn; lia).
  assert (H6 : step demoPaused (E_message (user_message "I am back now" [] true))
               = Some demoResumedEarly) by (vm_compute; reflexivity).
  split; [exact demoPaused_reachable|]. repeat (split; [assumption|]).
  exact (proj1 (X18_any_transcript_resumes _ _ _ _ _ demoPaused_reachable H2 H3 H4 H5 H6)).
Defined.

Lemma demoHeld_reachable : reachable demoHeld.
Proof.
  exists 1000000, [E_message (user_message "hold on" [] false)].
  split; [lia|]. vm_compute. reflexivity.
Qed.

Lemma X19_witness :
  reachable demoHeld /\ In demoMicTimer (timers demoHeld) /\
  task demoMicTimer = T_micUnmute /\
  micUnmuteTimeoutRef demoHeld = Some (tid demoMicTimer).
Proof.
  assert (Hin : In demoMicTimer (timers demoHeld)) by (vm_compute; left; reflexivity).
  split; [exact demoHeld_reachable|]. split; [exact Hin|]. split; [reflexivity|].
  exact (proj2 (X19_one_microphone_timer _ _ _ demoHeld_reachable Hin Hin eq_refl eq_refl)).
Defined.

(** ** An interruption does not wait for a pause to end *)

(** A render in which [isInterrupting] changed while the microphone is
    muted: only the effect that copies it into the ref runs. *)
Lemma commit_sync x :
  r_messages (rendered x) = List.length (messages x) ->
  r_isPaused (rendered x) = isPaused x -> isMuted x = true ->
  r_isInterrupting (rendered x) = negb (isInterrupting x) ->
  commit x = set_isInterruptingRef (isInterrupting x) (set_rendered (snapshot x) x).
Proof.
  intros H1 H2 H3 H4. unfold commit. cbv zeta.
  cbn [snapshot r_messages r_isPaused r_isMuted r_isInterrupting].
  rewrite H1, H2, H3, H4, Nat.eqb_refl, Bool.eqb_reflx. cbn [negb orb].
  assert (E : negb (Bool.eqb (isInterrupting x) (negb (isInterrupting x))) = true)
    by (destruct (isInterrupting x); reflexivity).
  rewrite E. unfold resumeEffect. cbn [snapshot r_isMuted r_isPaused].
  rewrite H3, orb_true_r.
  destruct (negb (Bool.eqb true (r_isMuted (rendered x)))); reflexivity.
Qed.

(** X20: a pause does not hold back an interruption.  In every reachable
    state without an interruption in progress, paused or not, an accepted
    verdict (interrupt true, a message with text, chat id known, its call
    still outstanding) mutes the microphone and pauses the agent at once,
    sets the interruption and cooldown flags and arms the 200 ms timer of
    the injection; [isPaused], the agent audio and the other timers stay as
    they are. *)
Theorem X20_interruption_while_paused s id m s1 :
  reachable s -> isInterruptingRef s = false ->
  In id (judgeInFlight s) -> truthy m = true -> truthyOpt (chatIdRef s) = true ->
  step s (E_judgeResponse id (J_ok true (Some m))) = Some s1 ->
  trace s1 = (trace s ++ [(clock s, Mute); (clock s, PauseAssistant)])%list /\
  timers s1 = (timers s ++
               [{| tid := nextId s; due := clock s + 200; task := T_interruptSettled m |}])%list /\
  isInterruptingRef s1 = true /\ interruptCooldownRef s1 = true /\ isMuted s1 = true /\
  isPaused s1 = isPaused s /\ isAudioMuted s1 = isAudioMuted s /\ judgeInFlight s1 = [].
Proof.
  intros Hr Href Hfl Hm Hchat E.
  pose proof (reachable_stable s Hr) as Hst.
  pose proof (reachable_Inv s Hr) as Hinv.
  pose proof (inv_sync s Hinv) as Hsync. rewrite Href in Hsync.
  destruct (inv_flight s Hinv id Hfl) as [Hone _].
  pose proof (stable_rendered s Hst) as Hrd.
  cbn [step] in E. injection E as <-.
  unfold judgeResponded. rewrite (existsb_In_nat id _ Hfl). cbv zeta.
  cbn [chatIdRef set_judgeInFlight]. rewrite Hchat, Hm. cbn [andb].
  unfold triggerInterrupt. cbn [chatIdRef isInterruptingRef set_judgeInFlight].
  rewrite Hchat, Href. cbn [negb orb]. cbv zeta.
  rewrite Hone. cbn [filter]. rewrite Nat.eqb_refl. cbn [negb].
  match goal with |- context [settle ?x] => set (t := x) end.
  assert (Ft : (rendered t = snapshot s /\ messages t = messages s /\
                isPaused t = isPaused s /\ isMuted t = true /\ isInterrupting t = true) /\
               trace t = (trace s ++ [(clock s, Mute); (clock s, PauseAssistant)])%list /\
               timers t = (timers s ++
                           [{| tid := nextId s; due := clock s + 200;
                               task := T_interruptSettled m |}])%list /\
               isInterruptingRef t = true /\ interruptCooldownRef t = true /\
               isAudioMuted t = isAudioMuted s /\ judgeInFlight t = []).
  { subst t. unfold setTimeout, pauseAssistant, mute, emit. cbn. rewrite <- app_assoc.
    repeat split. exact Hrd. }
  clearbody t. destruct Ft as ((F1 & F2 & F3 & F4 & F5) & G1 & G2 & G3 & G4 & G5 & G6).
  assert (Hu : stable t = false).
  { unfold stable, Render_eqb. rewrite F1. cbn. rewrite F5, Hsync. cbn.
    rewrite !andb_false_r. reflexivity. }
  assert (Hc : commit t = set_isInterruptingRef true (set_rendered (snapshot t) t)).
  { rewrite commit_sync; rewrite ?F1, ?F5; cbn; auto. rewrite F2. reflexivity. }
  assert (Hs : stable (commit t) = true)
    by (rewrite Hc; unfold stable; apply Render_eqb_eq; reflexivity).
  unfold settle. cbn [rerender]. rewrite Hu, Hs, Hc. cbn.
  rewrite G1, G2, G4, G5, G6, F3, F4. repeat split.
Qed.

(** ** The transcript *)

Lemma upsertAssistant_last c p now prev :
  exists e, lastOpt (upsertAssistant c p now prev) = Some e /\ role e = assistant /\
            truthyFlag (hidden e) = p /\
            (List.length prev <= List.length (upsertAssistant c p now prev)
             <= S (List.length prev))%nat.
Proof.
  unfold upsertAssistant. cbv zeta. destruct (lastOpt prev) as [x|] eqn:E.
  - destruct (Role_eqb (role x) assistant && negb (truthyFlag (hidden x))) eqn:Eg.
    + apply andb_true_iff in Eg. destruct Eg as [Er Eh]. apply negb_true_iff in Eh.
      eexists. split; [apply lastOpt_snoc|]. cbn [role hidden].
      split; [destruct (role x); [discriminate|reflexivity]|]. split.
      * destruct p; [reflexivity|exact Eh].
      * pose proof (f_equal (@List.length _) (lastOpt_Some prev x E)) as Hn.
        rewrite length_app in Hn. rewrite length_app. cbn in *. lia.
    + eexists. split; [apply lastOpt_snoc|]. cbn [role hidden truthyFlag].
      split; [reflexivity|]. split; [reflexivity|]. rewrite length_app. cbn. lia.
  - eexists. split; [apply lastOpt_snoc|]. cbn [role hidden truthyFlag].
    split; [reflexivity|]. split; [reflexivity|]. rewrite length_app. cbn. lia.
Qed.

(** X21: what the agent says during a pause is hidden in the transcript.
    After an [assistant_message] the last transcript entry is the agent's,
    and it is hidden exactly when the conversation was paused: a fragment
    that arrives during a pause hides the visible entry it extends, and a
    fragment that arrives outside a pause starts a new entry after a hidden
    one.  The transcript grows by one entry at most. *)
Theorem X21_hidden_while_paused s text s1 :
  stable s = true -> step s (E_message (assistant_message text)) = Some s1 ->
  conversation s1 = upsertAssistant text (isPaused s) (clock s) (conversation s) /\
  exists e, lastOpt (conversation s1) = Some e /\ role e = assistant /\
            truthyFlag (hidden e) = isPaused s /\
            (List.length (conversation s) <= List.length (conversation s1)
             <= S (List.length (conversation s)))%nat.
Proof.
  intros Hst E.
  pose proof (assistant_commit s text Hst) as Hc.
  assert (Hl : lastOpt (messages (set_rendered (snapshot (arrived s (assistant_message text)))
                                    (arrived s (assistant_message text))))
               = Some (assistant_message text)) by apply lastOpt_snoc.
  unfold messagesEffect in Hc. rewrite Hl in Hc. cbv zeta in Hc.
  assert (Hf : sameFlags (arrived s (assistant_message text))
                 (commit (arrived s (assistant_message text))))
    by (rewrite Hc; destruct (truthy text); split; reflexivity).
  destruct (step_message_render s _ s1 Hst Hf E) as [rd ->].
  assert (Hconv : conversation (set_rendered rd (commit (arrived s (assistant_message text))))
                  = upsertAssistant text (isPaused s) (clock s) (conversation s))
    by (rewrite Hc; destruct (truthy text); reflexivity).
  split; [exact Hconv|]. rewrite Hconv. apply upsertAssistant_last.
Qed.

Lemma upsertUser_last c e now prev :
  exists x, lastOpt (upsertUser c e now prev) = Some x /\ role x = user /\
            content x = c /\ emotions x = Some e /\
            match lastOpt prev with
            | Some l => if Role_eqb (role l) user
                        then List.length (upsertUser c e now prev) = List.length prev /\
                             timestamp x = timestamp l
                        else List.length (upsertUser c e now prev) = S (List.length prev) /\
                             timestamp x = now
            | None => List.length (upsertUser c e now prev) = S (List.length prev) /\
                      timestamp x = now
            end.
Proof.
  unfold upsertUser. cbv zeta. destruct (lastOpt prev) as [l|] eqn:E.
  - destruct (Role_eqb (role l) user) eqn:Er.
    + eexists. split; [apply lastOpt_snoc|]. cbn [role content emotions timestamp].
      split; [destruct (role l); [reflexivity|discriminate]|]. repeat split.
      pose proof (f_equal (@List.length _) (lastOpt_Some prev l E)) as Hn.
      rewrite length_app in Hn. rewrite length_app. cbn in *. lia.
    + eexists. split; [apply lastOpt_snoc|]. cbn. repeat split.
      rewrite length_app. cbn. lia.
  - eexists. split; [apply lastOpt_snoc|]. cbn. repeat split.
    rewrite length_app. cbn. lia.
Qed.

(** Running the updater again on its own result changes nothing. *)
Lemma upsertUser_again c e now now' prev :
  upsertUser c e now' (upsertUser c e now prev) = upsertUser c e now prev.
Proof.
  destruct (upsertUser_last c e now prev) as (x & Hx & Hr & Hc & He & _).
  unfold upsertUser at 1. cbv zeta. rewrite Hx, Hr. cbn [Role_eqb].
  rewrite (lastOpt_Some _ x Hx) at 2. f_equal. f_equal.
  destruct x. cbn in *. subst. reflexivity.
Qed.

Lemma conversation_detectKeywords r t s :
  conversation (detectKeywords r t s) = conversation s.
Proof.
  unfold detectKeywords, triggerPause. cbv zeta.
  repeat match goal with |- context [match ?c with _ => _ end] => destruct c eqn:? end;
    cbn; congruence.
Qed.

Lemma conversation_callLLMJudge sp s : conversation (callLLMJudge sp s) = conversation s.
Proof.
  unfold callLLMJudge, dispatchJudge.
  repeat match goal with |- context [if ?c then _ else _] => destruct c end;
    try reflexivity.
  cbv zeta. cbn. destruct (judgeAbortControllerRef s); reflexivity.
Qed.

Lemma conversation_resumeEffect r s : conversation (resumeEffect r s) = conversation s.
Proof.
  unfold resumeEffect, handleResume.
  repeat match goal with |- context [match ?c with _ => _ end] => destruct c eqn:? end;
    cbn; congruence.
Qed.

Lemma conversation_messagesEffect r s t p i :
  lastOpt (messages s) = Some (user_message t p i) ->
  conversation (messagesEffect r s) = upsertUser t p (clock s) (conversation s).
Proof.
  intros Hl. unfold messagesEffect. rewrite Hl. cbv zeta.
  destruct (negb i && truthy t); unfold pushHistory;
    cbn [conversation set_turnStartTimeRef set_conversationHistoryRef];
    repeat match goal with |- context [if ?c then _ else _] => destruct c end;
    rewrite ?conversation_callLLMJudge, ?conversation_detectKeywords; reflexivity.
Qed.

(** One render for a user message runs the transcript updater or leaves the
    transcript alone; the first render after the message arrived runs it. *)
Lemma commit_conversation s t p i :
  lastOpt (messages s) = Some (user_message t p i) ->
  exists b2 : bool,
    conversation (commit s) =
      (if b2 then upsertUser t p (clock s) (conversation s) else conversation s) /\
    (r_messages (rendered s) <> List.length (messages s) -> b2 = true).
Proof.
  intros Hl. destruct (commit_effects s) as (b1 & b2 & b3 & -> & _ & Hm & _).
  exists b2. cbv zeta. split; [|intros H; apply Hm; exact H].
  set (s1 := if b1 then _ else _).
  assert (H1 : conversation s1 = conversation s /\ messages s1 = messages s /\
               clock s1 = clock s) by (subst s1; destruct b1; repeat split).
  destruct H1 as (Hc1 & Hm1 & Hk1).
  assert (E : conversation (if b3 then resumeEffect (snapshot s)
                 (if b2 then messagesEffect (snapshot s) s1 else s1)
               else if b2 then messagesEffect (snapshot s) s1 else s1) =
              conversation (if b2 then messagesEffect (snapshot s) s1 else s1))
    by (destruct b3; [apply conversation_resumeEffect|reflexivity]).
  rewrite E. destruct b2; [|exact Hc1].
  rewrite (conversation_messagesEffect _ s1 t p i) by (rewrite Hm1; exact Hl).
  rewrite Hc1, Hk1. reflexivity.
Qed.

Lemma clock_commit s : clock (commit s) = clock s.
Proof.
  destruct (commit_effects s) as (b1 & b2 & b3 & -> & _). cbv zeta.
  assert (Hm : forall r x, clock (messagesEffect r x) = clock x).
  { intros r x. unfold messagesEffect.
    destruct (lastOpt (messages x)) as [[c| |t e i|t|]|]; try reflexivity.
    - destruct (truthy c); reflexivity.
    - cbv zeta.
      assert (Hd : forall y, clock (detectKeywords r t y) = clock y).
      { intros y. unfold detectKeywords, triggerPause. cbv zeta.
        repeat match goal with |- context [match ?c with _ => _ end] => destruct c eqn:? end;
          cbn; congruence. }
      assert (Hj : forall y, clock (callLLMJudge t y) = clock y).
      { intros y. unfold callLLMJudge, dispatchJudge.
        repeat match goal with |- context [if ?c then _ else _] => destruct c end;
          try reflexivity.
        cbv zeta. cbn. destruct (judgeAbortControllerRef y); reflexivity. }
      destruct (negb i && truthy t); unfold pushHistory;
        cbn [clock set_turnStartTimeRef set_conversationHistoryRef];
        repeat match goal with |- context [if ?c then _ else _] => destruct c end;
        rewrite ?Hj, ?Hd; reflexivity.
    - cbv zeta. destruct (truthy t); reflexivity. }
  assert (Hr : forall r x, clock (resumeEffect r x) = clock x).
  { intros r x. unfold resumeEffect, handleResume.
    repeat match goal with |- context [match ?c with _ => _ end] => destruct c eqn:? end;
      cbn; congruence. }
  destruct b1, b2, b3; rewrite ?Hr, ?Hm; reflexivity.
Qed.

(** X22: one transcript entry per user turn.  After a user transcript,
    interim or final, the last transcript entry is the user's and carries
    the transcript's text and emotions: it replaces the last entry, keeping
    its timestamp, when that entry was the user's, and is a new entry
    otherwise.  This holds also when the transcript pauses or resumes the
    conversation and the effect runs again. *)
Theorem X22_user_transcript_entry s text prosody interim s1 :
  stable s = true ->
  step s (E_message (user_message text prosody interim)) = Some s1 ->
  conversation s1 = upsertUser text prosody (clock s) (conversation s) /\
  exists x, lastOpt (conversation s1) = Some x /\ role x = user /\
            content x = text /\ emotions x = Some prosody /\
            match lastOpt (conversation s) with
            | Some l => if Role_eqb (role l) user
                        then List.length (conversation s1) = List.length (conversation s) /\
                             timestamp x = timestamp l
                        else List.length (conversation s1) = S (List.length (conversation s)) /\
                             timestamp x = clock s
            | None => List.length (conversation s1) = S (List.length (conversation s)) /\
                      timestamp x = clock s
            end.
Proof.
  intros Hst E. set (m := user_message text prosody interim) in *.
  assert (Hconv : conversation s1 = upsertUser text prosody (clock s) (conversation s)).
  { cbn [step] in E. injection E as <-.
    assert (Hu : stable (arrived s m) = false) by (apply arrival_unstable; exact Hst).
    unfold settle.
    change (rerender 3 (arrived s m))
      with (if stable (arrived s m) then arrived s m else rerender 2 (commit (arrived s m))).
    rewrite Hu.
    apply (rerender_keeps
             (fun x => lastOpt (messages x) = Some m /\ clock x = clock s /\
                       conversation x = upsertUser text prosody (clock s) (conversation s))).
    - intros x (Hl & Hk & Hc).
      destruct (commit_outcome x) as (_ & Hm & _). split; [rewrite Hm; exact Hl|].
      split; [rewrite clock_commit; exact Hk|].
      destruct (commit_conversation x text prosody interim Hl) as (b2 & -> & _).
      destruct b2; [|exact Hc]. rewrite Hc. apply upsertUser_again.
    - assert (Hl : lastOpt (messages (arrived s m)) = Some m) by apply lastOpt_snoc.
      destruct (commit_outcome (arrived s m)) as (_ & Hm & _).
      split; [rewrite Hm; exact Hl|]. split; [rewrite clock_commit; reflexivity|].
      destruct (commit_conversation (arrived s m) text prosody interim Hl) as (b2 & -> & Hb).
      destruct (arrival_rendered s m Hst) as [Hne _]. rewrite (Hb Hne). reflexivity. }
  split; [exact Hconv|]. rewrite Hconv. apply upsertUser_last.
Qed.

Lemma X20_witness :
  reachable demoState /\ isInterruptingRef demoState = false /\
  In 1%nat (judgeInFlight demoState) /\ truthy demoVerdict = true /\
  truthyOpt (chatIdRef demoState) = true /\
  step demoState (E_judgeResponse 1 (J_ok true (Some demoVerdict))) = Some demoInterrupting /\
  isInterruptingRef demoInterrupting = true.
Proof.
  assert (H2 : isInterruptingRef demoState = false) by (vm_compute; reflexivity).
  assert (H3 : In 1%nat (judgeInFlight demoState)) by (vm_compute; left; reflexivity).
  assert (H4 : truthy demoVerdict = true) by reflexivity.
  assert (H5 : truthyOpt (chatIdRef demoState) = true) by (vm_compute; reflexivity).
  assert (H6 : step demoState (E_judgeResponse 1 (J_ok true (Some demoVerdict)))
               = Some demoInterrupting) by (vm_compute; reflexivity).
  split; [exact demoState_reachable|]. repeat (split; [assumption|]).
  exact (proj1 (proj2 (proj2
           (X20_interruption_while_paused _ _ _ _ demoState_reachable H2 H3 H4 H5 H6)))).
Defined.

Lemma X21_witness :
  stable (init 1000000) = true /\
  step (init 1000000) (E_message (assistant_message "Hello")) = Some demoSaid1 /\
  conversation demoSaid1 =
    upsertAssistant "Hello" (isPaused (init 1000000)) (clock (init 1000000))
      (conversation (init 1000000)).
Proof.
  assert (H1 : stable (init 1000000) = true) by (vm_compute; reflexivity).
  assert (H2 : step (init 1000000) (E_message (assistant_message "Hello")) = Some demoSaid1)
    by (vm_compute; reflexivity).
  split; [exact H1|]. split; [exact H2|].
  exact (proj1 (X21_hidden_while_paused _ _ _ H1 H2)).
Defined.

Lemma X22_witness :
  stable (init 1000000) = true /\
  step (init 1000000) (E_message (user_message "how are" [] true)) = Some demoTurn1 /\
  conversation demoTurn1 =
    upsertUser "how are" [] (clock (init 1000000)) (conversation (init 1000000)).
Proof.
  assert (H1 : stable (init 1000000) = true) by (vm_compute; reflexivity).
  assert (H2 : step (init 1000000) (E_message (user_message "how are" [] true))
               = Some demoTurn1) by (vm_compute; reflexivity).
  split; [exact H1|]. split; [exact H2|].
  exact (proj1 (X22_user_transcript_entry _ _ _ _ _ H1 H2)).
Defined.

(** ** The pause when the microphone re-opens *)

(** A render in which only [isMuted] changed runs the effect that listens
    for an answer, and no other. *)
Lemma commit_remuted x :
  r_messages (rendered x) = List.length (messages x) ->
  r_isPaused (rendered x) = isPaused x ->
  r_isInterrupting (rendered x) = isInterrupting x ->
  r_isMuted (rendered x) = negb (isMuted x) ->
  commit x = resumeEffect (snapshot x) (set_rendered (snapshot x) x).
Proof.
  intros H1 H2 H3 H4. unfold commit. cbv zeta.
  cbn [snapshot r_messages r_isPaused r_isMuted r_isInterrupting].
  rewrite H1, H2, H3, H4, Nat.eqb_refl, !Bool.eqb_reflx. cbn [negb orb].
  destruct (isMuted x); reflexivity.
Qed.

(** X23: the pause outlives the re-opening of the microphone.  When the
    2 s timer of a pause fires outside an interruption, the microphone is
    re-opened and nothing else happens, provided the last message is not a
    user transcript that would end a pause: the conversation stays paused
    and the agent audio stays as it is, although the effect that listens
    for an answer runs again because [isMuted] changed. *)
Theorem X23_pause_outlives_microphone_timer s tm s1 :
  reachable s -> isPaused s = true -> isInterruptingRef s = false ->
  nextTimer s = Some tm -> task tm = T_micUnmute -> keepsPause s = true ->
  step s E_timer = Some s1 ->
  isPaused s1 = true /\ isMuted s1 = false /\ isAudioMuted s1 = isAudioMuted s /\
  trace s1 = (trace s ++ [(Z.max (clock s) (due tm), Unmute)])%list /\
  timers s1 = filter (fun x => negb (Nat.eqb (tid x) (tid tm))) (timers s).
Proof.
  intros Hr Hp Href Hn Ht Hk E.
  pose proof (reachable_stable s Hr) as Hst.
  pose proof (stable_rendered s Hst) as Hrd.
  cbn [step] in E. rewrite Hn, Ht in E. injection E as <-.
  cbn [runTask]. unfold clearTimeout. cbn [isInterruptingRef set_clock set_timers].
  rewrite Href. cbn [negb].
  match goal with |- context [settle ?x] => set (t := x) end.
  assert (Ft : (rendered t = snapshot s /\ messages t = messages s /\
                isPaused t = isPaused s /\ isMuted t = false /\
                isInterrupting t = isInterrupting s /\ mode t = mode s) /\
               isAudioMuted t = isAudioMuted s /\
               trace t = (trace s ++ [(Z.max (clock s) (due tm), Unmute)])%list /\
               timers t = filter (fun x => negb (Nat.eqb (tid x) (tid tm))) (timers s)).
  { subst t. unfold unmute, emit. cbn. repeat split. exact Hrd. }
  clearbody t. destruct Ft as ((F1 & F2 & F3 & F4 & F5 & F6) & G1 & G2 & G3).
  assert (Hsnap : snapshot t =
                  {| r_messages := List.length (messages s); r_isPaused := true;
                     r_isMuted := false; r_isInterrupting := isInterrupting s;
                     r_mode := mode s |})
    by (unfold snapshot; rewrite F2, F3, F4, F5, F6, Hp; reflexivity).
  assert (Hc : settle t = t \/ settle t = set_rendered (snapshot t) t).
  { unfold settle. cbn [rerender]. destruct (stable t) eqn:Hu; [left; reflexivity|right].
    assert (Hm : isMuted s = true).
    { destruct (isMuted s) eqn:Em; [reflexivity|]. exfalso.
      assert (Hs : stable t = true).
      { unfold stable. apply Render_eqb_eq. rewrite Hsnap, F1. unfold snapshot.
        rewrite Hp, Em. reflexivity. }
      congruence. }
    assert (Ec : commit t = set_rendered (snapshot t) t).
    { rewrite commit_remuted.
      - unfold resumeEffect. rewrite Hsnap. cbn [r_isPaused r_isMuted negb orb].
        change (messages (set_rendered _ t)) with (messages t). rewrite F2.
        unfold keepsPause in Hk. destruct (lastOpt (messages s)) as [[c| |tx e i|tx|]|];
          try reflexivity.
        destruct (isPausePhrase tx); cbn [negb andb orb] in *; [reflexivity|].
        apply Nat.leb_le in Hk.
        assert (El : Nat.ltb 3 (String.length tx) = false) by (apply Nat.ltb_ge; exact Hk).
        rewrite El. reflexivity.
      - rewrite F1, F2. reflexivity.
      - rewrite F1, F3. reflexivity.
      - rewrite F1, F5. reflexivity.
      - rewrite F1, F4. cbn. exact Hm. }
    rewrite Ec.
    assert (Hs : stable (set_rendered (snapshot t) t) = true)
      by (unfold stable; apply Render_eqb_eq; reflexivity).
    rewrite Hs. reflexivity. }
  destruct Hc as [-> | ->]; cbn; rewrite F3, F4, G1, G2, G3, Hp; repeat split.
Qed.

Lemma X23_witness :
  reachable demoHeld /\ isPaused demoHeld = true /\ isInterruptingRef demoHeld = false /\
  nextTimer demoHeld = Some demoMicTimer /\ task demoMicTimer = T_micUnmute /\
  keepsPause demoHeld = true /\ step demoHeld E_timer = Some demoReopened /\
  isPaused demoReopened = true.
Proof.
  assert (H2 : isPaused demoHeld = true) by (vm_compute; reflexivity).
  assert (H3 : isInterruptingRef demoHeld = false) by (vm_compute; reflexivity).
  assert (H4 : nextTimer demoHeld = Some demoMicTimer) by (vm_compute; reflexivity).
  assert (H5 : task demoMicTimer = T_micUnmute) by reflexivity.
  assert (H6 : keepsPause demoHeld = true) by (vm_compute; reflexivity).
  assert (H7 : step demoHeld E_timer = Some demoReopened) by (vm_compute; reflexivity).
  split; [exact demoHeld_reachable|]. repeat (split; [assumption|]).
  exact (proj1 (X23_pause_outlives_microphone_timer _ _ _
                  demoHeld_reachable H2 H3 H4 H5 H6 H7)).
Defined.

(** ** Where a judge request comes from *)

Lemma quietStep_refl s : quietStep s s.
Proof.
  unfold quietStep. repeat split. exists []. split; [rewrite app_nil_r; reflexivity|constructor].
Qed.

Lemma quietStep_trans a b c : quietStep a b -> quietStep b c -> quietStep a c.
Proof.
  intros (H1 & H2 & H3 & H4 & l1 & T1 & F1) (G1 & G2 & G3 & G4 & l2 & T2 & F2).
  unfold quietStep. repeat split; try congruence.
  exists (l1 ++ l2)%list. split; [rewrite T2, T1, app_assoc; reflexivity|].
  apply Forall_app. split; assumption.
Qed.

Ltac quiet_by added :=
  unfold quietStep; prims; cbn; repeat split;
  exists added; split;
  [ rewrite ?app_nil_r, <- ?app_assoc; reflexivity
  | repeat constructor ].

Lemma quiet_sentAt h t0 c ms added :
  Forall (fun p => isFetchJudge (snd p) = false) added -> Forall (sentAt h t0 c ms) added.
Proof.
  intros H. eapply Forall_impl; [|exact H]. intros [t a] Ha. unfold sentAt.
  destruct a; try exact I. discriminate Ha.
Qed.

Lemma triggerPause_quiet s : quietStep s (triggerPause s).
Proof.
  unfold triggerPause. destruct (isInterruptingRef s); [apply quietStep_refl|].
  cbv zeta. cbn. destruct (micUnmuteTimeoutRef s);
    quiet_by [(clock s, MuteAudio); (clock s, Mute)].
Qed.

Lemma handleResume_quiet s : quietStep s (handleResume s).
Proof.
  unfold handleResume. destruct (isInterruptingRef s); [apply quietStep_refl|].
  cbv zeta. destruct (micUnmuteTimeoutRef s);
    quiet_by [(clock s, UnmuteAudio); (clock s, Unmute)].
Qed.

Lemma detectKeywords_quiet r t s : quietStep s (detectKeywords r t s).
Proof.
  unfold detectKeywords. cbv zeta.
  destruct (find _ PAUSE_KEYWORDS); [apply triggerPause_quiet|].
  destruct (find _ QUICK_KEYWORDS);
    [quiet_by [(clock s, SendSessionSettings QUICK_CONTEXT)]|].
  destruct (find _ DETAILED_KEYWORDS);
    [quiet_by [(clock s, SendSessionSettings DETAILED_CONTEXT)]|apply quietStep_refl].
Qed.

Lemma resumeEffect_quiet r s : quietStep s (resumeEffect r s).
Proof.
  unfold resumeEffect. destruct (_ || _); [apply quietStep_refl|].
  destruct (lastOpt (messages s)) as [[c| |t e i|t|]|]; try apply quietStep_refl.
  destruct (_ && _); [apply handleResume_quiet|apply quietStep_refl].
Qed.

(** What [callLLMJudge] adds to the trace. *)
Lemma callLLMJudge_sent speech s :
  conversationHistoryRef (callLLMJudge speech s) = conversationHistoryRef s /\
  turnStartTimeRef (callLLMJudge speech s) = turnStartTimeRef s /\
  clock (callLLMJudge speech s) = clock s /\
  messages (callLLMJudge speech s) = messages s /\
  exists added,
    trace (callLLMJudge speech s) = (trace s ++ added)%list /\
    Forall (fun p => match snd p with
                     | FetchJudge _ sp history time =>
                         sp = speech /\ history = sliceLast 4 (conversationHistoryRef s) /\
                         time = speakingTime s /\ fst p = clock s /\ Qle (3 # 2) time
                     | _ => True
                     end) added.
Proof.
  unfold callLLMJudge.
  destruct (_ || _);
    [repeat split; exists []; split; [rewrite app_nil_r; reflexivity|constructor]|].
  destruct (Nat.ltb _ _);
    [repeat split; exists []; split; [rewrite app_nil_r; reflexivity|constructor]|].
  destruct (Qlt_bool (speakingTime s) MIN_SPEAKING_TIME_S) eqn:Et;
    [repeat split; exists []; split; [rewrite app_nil_r; reflexivity|constructor]|].
  destruct (_ <? _);
    [repeat split; exists []; split; [rewrite app_nil_r; reflexivity|constructor]|].
  assert (Hq : Qle (3 # 2) (speakingTime s)).
  { unfold Qlt_bool in Et. apply negb_false_iff in Et. apply Qle_bool_iff in Et. exact Et. }
  unfold dispatchJudge. cbv zeta. cbn. destruct (judgeAbortControllerRef s) as [c|].
  - prims. cbn. repeat split.
    exists [(clock s, AbortJudge c);
            (clock s, FetchJudge (nextId s) speech (sliceLast 4 (conversationHistoryRef s))
                        (speakingTime s))].
    split; [rewrite <- app_assoc; reflexivity|].
    constructor; [exact I|]. constructor; [|constructor]. cbn. repeat split. exact Hq.
  - prims. cbn. repeat split.
    exists [(clock s, FetchJudge (nextId s) speech (sliceLast 4 (conversationHistoryRef s))
                        (speakingTime s))].
    split; [reflexivity|]. constructor; [|constructor]. cbn. repeat split. exact Hq.
Qed.

Lemma no_speaking_time c : ~ Qle (3 # 2) ((c - c) # 1000).
Proof. rewrite Z.sub_diag. intros H. unfold Qle in H. cbn in H. lia. Qed.

(** What the effect on [messages] adds to the trace: a judge request is
    built from the history, the turn start and the clock the effect found. *)
Lemma messagesEffect_sent r s :
  (clock (messagesEffect r s) = clock s /\
   forall t p, lastOpt (messages s) = Some (user_message t p true) ->
     conversationHistoryRef (messagesEffect r s) = conversationHistoryRef s /\
     (turnStartTimeRef (messagesEffect r s) = turnStartTimeRef s \/
      turnStartTimeRef (messagesEffect r s) = clock s)) /\
  exists added,
    trace (messagesEffect r s) = (trace s ++ added)%list /\
    Forall (sentAt (conversationHistoryRef s) (turnStartTimeRef s) (clock s) (messages s))
      added.
Proof.
  unfold messagesEffect.
  destruct (lastOpt (messages s)) as [[c| |t e i|t|]|] eqn:El.
  - destruct (truthy c); (split; [split; [reflexivity|discriminate]|]);
      exists []; (split; [rewrite app_nil_r; reflexivity|constructor]).
  - split; [split; [reflexivity|discriminate]|].
    exists [(clock s, MuteAudio)]. split; [reflexivity|]. repeat constructor.
  - cbv zeta.
    set (sa := if i && (turnStartTimeRef s =? 0) then set_turnStartTimeRef (clock s) s else s).
    assert (Ha : conversationHistoryRef sa = conversationHistoryRef s /\ clock sa = clock s /\
                 messages sa = messages s /\ trace sa = trace s /\
                 turnStartTimeRef sa =
                   (if i && (turnStartTimeRef s =? 0) then clock s else turnStartTimeRef s))
      by (subst sa; destruct (i && (turnStartTimeRef s =? 0)); repeat split).
    clearbody sa. destruct Ha as (Ha1 & Ha2 & Ha3 & Ha4 & Ha5).
    set (sb := set_conversation (upsertUser t e (clock sa) (conversation sa)) sa).
    destruct (detectKeywords_quiet r t sb) as (Hc1 & Hc2 & Hc3 & Hc4 & l1 & Hc5 & F1).
    change (conversationHistoryRef sb) with (conversationHistoryRef sa) in Hc1.
    change (turnStartTimeRef sb) with (turnStartTimeRef sa) in Hc2.
    change (clock sb) with (clock sa) in Hc3. change (messages sb) with (messages sa) in Hc4.
    change (trace sb) with (trace sa) in Hc5.
    set (sc := detectKeywords r t sb) in *. clearbody sc. clear sb.
    destruct i.
    + cbn [negb andb] in *.
      set (sd := if negb (isInterruptingRef sc) then callLLMJudge t sc else sc).
      assert (Hd : conversationHistoryRef sd = conversationHistoryRef sc /\
                   turnStartTimeRef sd = turnStartTimeRef sc /\ clock sd = clock sc /\
                   exists added,
                     trace sd = (trace sc ++ added)%list /\
                     Forall (fun p => match snd p with
                                      | FetchJudge _ sp history time =>
                                          sp = t /\
                                          history = sliceLast 4 (conversationHistoryRef sc) /\
                                          time = speakingTime sc /\ fst p = clock sc /\
                                          Qle (3 # 2) time
                                      | _ => True
                                      end) added).
      { subst sd. destruct (negb (isInterruptingRef sc)).
        - destruct (callLLMJudge_sent t sc) as (H1 & H2 & H3 & _ & H5). repeat split; assumption.
        - repeat split. exists []. split; [rewrite app_nil_r; reflexivity|constructor]. }
      clearbody sd. destruct Hd as (Hd1 & Hd2 & Hd3 & l2 & Hd4 & F2).
      split.
      * split; [congruence|]. intros t' p' _. split; [congruence|].
        rewrite Hd2, Hc2, Ha5. destruct (turnStartTimeRef s =? 0); auto.
      * exists (l1 ++ l2)%list. split; [rewrite Hd4, Hc5, Ha4, app_assoc; reflexivity|].
        apply Forall_app. split; [apply quiet_sentAt; exact F1|].
        eapply Forall_impl; [|exact F2]. intros [tt a] Hp. unfold sentAt.
        destruct a; try exact I. cbn [snd fst] in *.
        destruct Hp as (-> & -> & -> & -> & Hq).
        unfold speakingTime in *. rewrite Hc1, Ha1, Hc3, Ha2, Hc2, Ha5 in *.
        destruct (turnStartTimeRef s =? 0) eqn:E0.
        -- exfalso. exact (no_speaking_time _ Hq).
        -- repeat split; try assumption. exists e. exact El.
    + cbn [negb andb] in *.
      assert (Hfin : forall x,
                clock (if truthy t then set_turnStartTimeRef 0 (pushHistory user t x) else x)
                  = clock x /\
                trace (if truthy t then set_turnStartTimeRef 0 (pushHistory user t x) else x)
                  = trace x) by (intros x; destruct (truthy t); split; reflexivity).
      destruct (Hfin sc) as [-> ->].
      split; [split; [congruence|discriminate]|].
      exists l1. split; [rewrite Hc5, Ha4; reflexivity|apply quiet_sentAt; exact F1].
  - cbv zeta. destruct (truthy t); (split; [split; [reflexivity|discriminate]|]);
      exists []; (split; [rewrite app_nil_r; reflexivity|constructor]).
  - split; [split; [reflexivity|discriminate]|].
    exists []. split; [rewrite app_nil_r; reflexivity|constructor].
  - split; [split; [reflexivity|discriminate]|].
    exists []. split; [rewrite app_nil_r; reflexivity|constructor].
Qed.

Lemma commit_sent x :
  clock (commit x) = clock x /\ messages (commit x) = messages x /\
  (forall t p, lastOpt (messages x) = Some (user_message t p true) ->
     conversationHistoryRef (commit x) = conversationHistoryRef x /\
     (turnStartTimeRef (commit x) = turnStartTimeRef x \/
      turnStartTimeRef (commit x) = clock x)) /\
  exists added,
    trace (commit x) = (trace x ++ added)%list /\
    Forall (sentAt (conversationHistoryRef x) (turnStartTimeRef x) (clock x) (messages x))
      added.
Proof.
  destruct (commit_effects x) as (b1 & b2 & b3 & -> & _). cbv zeta.
  set (s1 := if b1 then _ else _).
  assert (H1 : conversationHistoryRef s1 = conversationHistoryRef x /\
               turnStartTimeRef s1 = turnStartTimeRef x /\ clock s1 = clock x /\
               messages s1 = messages x /\ trace s1 = trace x)
    by (subst s1; destruct b1; repeat split).
  clearbody s1. destruct H1 as (A1 & A2 & A3 & A4 & A5).
  set (s2 := if b2 then messagesEffect (snapshot x) s1 else s1).
  assert (H2 : (clock s2 = clock x /\ messages s2 = messages x /\
                forall t p, lastOpt (messages x) = Some (user_message t p true) ->
                  conversationHistoryRef s2 = conversationHistoryRef x /\
                  (turnStartTimeRef s2 = turnStartTimeRef x \/
                   turnStartTimeRef s2 = clock x)) /\
               exists added,
                 trace s2 = (trace x ++ added)%list /\
                 Forall (sentAt (conversationHistoryRef x) (turnStartTimeRef x) (clock x)
                           (messages x)) added).
  { subst s2. destruct b2.
    - destruct (messagesEffect_sent (snapshot x) s1) as ((Hk & Hi) & added & Ht & Fa).
      destruct (messagesEffect_frame (snapshot x) s1) as [Hm _].
      rewrite A1, A2, A3, A4, A5 in *. split.
      + split; [exact Hk|]. split; [exact Hm|]. exact Hi.
      + exists added. split; assumption.
    - split.
      + split; [exact A3|]. split; [exact A4|]. intros t p _. split; [exact A1|left; exact A2].
      + exists []. split; [rewrite app_nil_r; exact A5|constructor]. }
  clearbody s2. destruct H2 as ((B1 & B2 & B3) & l2 & B4 & F2).
  assert (H3 : quietStep s2 (if b3 then resumeEffect (snapshot x) s2 else s2))
    by (destruct b3; [apply resumeEffect_quiet|apply quietStep_refl]).
  destruct H3 as (C1 & C2 & C3 & C4 & l3 & C5 & F3).
  split; [congruence|]. split; [congruence|]. split.
  - intros t p Hl. destruct (B3 t p Hl) as [Hh Ht]. rewrite C1, C2. split; assumption.
  - exists (l2 ++ l3)%list. split; [rewrite C5, B4, app_assoc; reflexivity|].
    apply Forall_app. split; [exact F2|apply quiet_sentAt; exact F3].
Qed.

(** The renders after an event send a judge request only from what the
    first of them found. *)
Lemma settle_sent x0 :
  clock (settle x0) = clock x0 /\ messages (settle x0) = messages x0 /\
  exists added,
    trace (settle x0) = (trace x0 ++ added)%list /\
    Forall (sentAt (conversationHistoryRef x0) (turnStartTimeRef x0) (clock x0)
              (messages x0)) added.
Proof.
  unfold settle.
  set (P := fun x : State =>
              clock x = clock x0 /\ messages x = messages x0 /\
              (forall t p, lastOpt (messages x0) = Some (user_message t p true) ->
                 conversationHistoryRef x = conversationHistoryRef x0 /\
                 (turnStartTimeRef x = turnStartTimeRef x0 \/
                  turnStartTimeRef x = clock x0)) /\
              exists added,
                trace x = (trace x0 ++ added)%list /\
                Forall (sentAt (conversationHistoryRef x0) (turnStartTimeRef x0) (clock x0)
                          (messages x0)) added).
  cut (P (rerender 3 x0));
    [unfold P; intros (K1 & K2 & _ & K4); split; [exact K1|]; split; [exact K2|exact K4]|].
  apply (rerender_keeps P); unfold P.
  - intros x (P1 & P2 & P3 & l & P4 & F).
    destruct (commit_sent x) as (Q1 & Q2 & Q3 & l' & Q4 & F').
    split; [congruence|]. split; [congruence|]. split.
    + intros t p Hl. pose proof Hl as Hlx. rewrite <- P2 in Hlx.
      destruct (P3 t p Hl) as [Hh Ht]. destruct (Q3 t p Hlx) as [Hh' Ht'].
      split; [congruence|]. rewrite P1 in Ht'. destruct Ht' as [Ht'|Ht']; [|right; exact Ht'].
      rewrite Ht'. exact Ht.
    + exists (l ++ l')%list. split; [rewrite Q4, P4, app_assoc; reflexivity|].
      apply Forall_app. split; [exact F|].
      eapply Forall_impl; [|exact F']. intros [tt a] Hp. unfold sentAt in *.
      destruct a; try exact I. cbn [snd fst] in *.
      destruct Hp as (-> & -> & -> & Hq & pr & Hl).
      rewrite P2 in Hl. destruct (P3 _ _ Hl) as [Hh [Ht|Ht]].
      * rewrite Hh, Ht, P1 in *. repeat split; try assumption. exists pr. exact Hl.
      * exfalso. rewrite Ht, P1 in Hq. exact (no_speaking_time _ Hq).
  - split; [reflexivity|]. split; [reflexivity|]. split; [intros; split; auto|].
    exists []. split; [rewrite app_nil_r; reflexivity|constructor].
Qed.

Lemma judgeResponded_quiet id r s : quietStep s (judgeResponded id r s).
Proof.
  unfold judgeResponded. destruct (existsb _ _); [|apply quietStep_refl]. cbv zeta.
  assert (H0 : quietStep s (set_judgeInFlight
                              (filter (fun i => negb (Nat.eqb i id)) (judgeInFlight s)) s))
    by (quiet_by (@nil (Z * Action))).
  destruct r as [| |i [m|]]; try exact H0.
  destruct (i && truthy m && _); [|exact H0].
  eapply quietStep_trans; [exact H0|].
  unfold triggerInterrupt. destruct (_ || _); [apply quietStep_refl|]. cbv zeta.
  match goal with
  | |- quietStep ?a _ => set (y := a)
  end.
  quiet_by [(clock y, Mute); (clock y, PauseAssistant)].
Qed.

Lemma inputResponded_still id r s :
  stable (inputResponded id r s) = stable s /\ trace (inputResponded id r s) = trace s /\
  messages (inputResponded id r s) = messages s.
Proof.
  unfold inputResponded. destruct (find _ _) as [[k m]|]; repeat split.
Qed.

Lemma runTask_quiet t s : quietStep s (runTask t s).
Proof.
  destruct t as [m| | | | |]; cbn [runTask].
  - unfold interruptSettled. cbv zeta.
    quiet_by [(clock s, FetchAssistantInput (nextId s) (chatIdRef s) m)].
  - quiet_by [(clock s, ResumeAssistant)].
  - quiet_by [(clock s, Unmute)].
  - quiet_by [(clock s, LogCooldownEnded)].
  - destruct (negb (isInterruptingRef s)); [quiet_by [(clock s, Unmute)]|apply quietStep_refl].
  - quiet_by [(clock s, UnmuteAudio)].
Qed.

Lemma sentAt_from s x0 s' added :
  conversationHistoryRef x0 = conversationHistoryRef s ->
  turnStartTimeRef x0 = turnStartTimeRef s -> clock s <= clock x0 ->
  messages s' = messages x0 ->
  Forall (sentAt (conversationHistoryRef x0) (turnStartTimeRef x0) (clock x0) (messages x0))
    added ->
  Forall (sentFrom s s') added.
Proof.
  intros Hh Ht Hc Hm F. eapply Forall_impl; [|exact F]. intros [tt a] Hp.
  unfold sentAt, sentFrom in *. destruct a; try exact I. cbn [snd fst] in *.
  destruct Hp as (-> & -> & -> & _ & pr & Hl).
  rewrite Hh, Ht, Hm. repeat split; try assumption. exists pr. exact Hl.
Qed.

Lemma quiet_sentFrom s s' added :
  Forall (fun p => isFetchJudge (snd p) = false) added -> Forall (sentFrom s s') added.
Proof.
  intros H. eapply Forall_impl; [|exact H]. intros [t a] Ha. unfold sentFrom.
  destruct a; try exact I. discriminate Ha.
Qed.

(** Every event: what it adds to the trace, as far as the judge goes. *)
Lemma step_sent s e s' :
  stable s = true -> step s e = Some s' ->
  exists added, trace s' = (trace s ++ added)%list /\ Forall (sentFrom s s') added.
Proof.
  intros Hst. destruct e as [m|id r|id r| |d]; cbn [step].
  - intros [= <-]. destruct (settle_sent (arrived s m)) as (K1 & K2 & l & K3 & F).
    exists l. split; [exact K3|].
    apply (sentAt_from s (arrived s m) _ l eq_refl eq_refl); [cbn; lia|exact K2|exact F].
  - intros [= <-]. destruct (judgeResponded_quiet id r s) as (A1 & A2 & A3 & A4 & l1 & A5 & F1).
    destruct (settle_sent (judgeResponded id r s)) as (K1 & K2 & l & K3 & F).
    exists (l1 ++ l)%list. split; [rewrite K3, A5, app_assoc; reflexivity|].
    apply Forall_app. split; [apply quiet_sentFrom; exact F1|].
    apply (sentAt_from s (judgeResponded id r s)); try assumption. lia.
  - intros [= <-]. destruct (inputResponded_still id r s) as (A1 & A2 & A3).
    rewrite settle_of_stable by (rewrite A1; exact Hst).
    exists []. split; [rewrite app_nil_r; exact A2|constructor].
  - destruct (nextTimer s) as [tm|]; [|discriminate]. intros [= <-].
    set (y := set_clock (Z.max (clock s) (due tm)) (clearTimeout (tid tm) s)).
    destruct (runTask_quiet (task tm) y) as (A1 & A2 & A3 & A4 & l1 & A5 & F1).
    destruct (settle_sent (runTask (task tm) y)) as (K1 & K2 & l & K3 & F).
    exists (l1 ++ l)%list. split; [rewrite K3, A5, app_assoc; reflexivity|].
    apply Forall_app. split; [apply quiet_sentFrom; exact F1|].
    apply (sentAt_from s (runTask (task tm) y)); try assumption.
    rewrite A3. subst y. cbn. lia.
  - destruct (_ && _); [|discriminate]. intros [= <-].
    exists []. split; [rewrite app_nil_r; reflexivity|constructor].
Qed.

(** Every judge request in the trace of a run was sent while one of the
    run's events was processed. *)
Lemma run_sent es : forall s s' p,
  stable s = true -> run s es = Some s' -> In p (trace s') ->
  In p (trace s) \/
  exists es1 e es2 s0 s1,
    es = (es1 ++ e :: es2)%list /\ run s es1 = Some s0 /\ step s0 e = Some s1 /\
    sentFrom s0 s1 p.
Proof.
  induction es as [|e es IH]; intros s s' p Hst; cbn [run].
  - intros [= <-] Hin. left. exact Hin.
  - destruct (step s e) as [s1|] eqn:E; [|discriminate]. intros Hrun Hin.
    destruct (IH s1 s' p (stable_step s e s1 Hst E) Hrun Hin)
      as [Hin1|(es1 & e' & es2 & s0 & s2 & -> & Hr1 & Hs & Hp)].
    + destruct (step_sent s e s1 Hst E) as (added & Ht & F).
      rewrite Ht in Hin1. apply in_app_or in Hin1. destruct Hin1 as [Hin1|Hin1];
        [left; exact Hin1|right].
      exists [], e, es, s, s1. split; [reflexivity|]. split; [reflexivity|].
      split; [exact E|]. rewrite Forall_forall in F. apply F. exact Hin1.
    + right. exists (e :: es1), e', es2, s0, s2. split; [reflexivity|].
      split; [cbn [run]; rewrite E; exact Hr1|]. split; assumption.
Qed.

Lemma sliceLast_suffix {A} n (l : list A) :
  exists older, l = (older ++ sliceLast n l)%list /\
                (older = [] \/ List.length (sliceLast n l) = n).
Proof.
  unfold sliceLast. exists (firstn (List.length l - n) l).
  split; [symmetry; apply firstn_skipn|].
  destruct (le_lt_dec (List.length l) n) as [Hle|Hlt].
  - left. replace (List.length l - n)%nat with 0%nat by lia. reflexivity.
  - right. rewrite length_skipn. lia.
Qed.

(** X9: where every judge request comes from.  In every run of the
    component from its mounting, a judge request found in the trace was
    sent while one event of the run was processed, not before that event's
    time; it carries a speech of at least 8 words, which is the text of the
    interim user transcript that is then the last message; a speaking time
    of at least 1.5 s, which is the time since the turn start as it stood
    before the event; and as context the last four entries of the
    conversation history as it stood before the event, in their order, or
    the whole history when that has fewer than four entries. *)
Theorem X9_judge_requests t0 es s t id speech history time :
  0 < t0 -> run (init t0) es = Some s ->
  In (t, FetchJudge id speech history time) (trace s) ->
  (8 <= wordCount speech)%nat /\ (List.length history <= 4)%nat /\ Qle (3 # 2) time /\
  exists es1 e es2 s0 s1,
    es = (es1 ++ e :: es2)%list /\ run (init t0) es1 = Some s0 /\ step s0 e = Some s1 /\
    history = sliceLast 4 (conversationHistoryRef s0) /\
    (exists older, conversationHistoryRef s0 = (older ++ history)%list /\
                   (older = [] \/ List.length history = 4%nat)) /\
    time = (t - turnStartTimeRef s0) # 1000 /\ clock s0 <= t /\
    exists prosody, lastOpt (messages s1) = Some (user_message speech prosody true).
Proof.
  intros Ht0 Hrun Hin.
  assert (Hr : reachable s) by (exists t0, es; split; assumption).
  destruct (reachable_Audit s Hr) as [Atr _].
  rewrite Forall_forall in Atr. pose proof (Atr _ Hin) as Hreq. cbn [snd requestOk] in Hreq.
  apply andb_true_iff in Hreq. destruct Hreq as [Hreq Htime].
  apply andb_true_iff in Hreq. destruct Hreq as [Hw Hl].
  apply Nat.leb_le in Hw. apply Nat.leb_le in Hl. apply Qle_bool_iff in Htime.
  split; [exact Hw|]. split; [exact Hl|]. split; [exact Htime|].
  assert (Hst : stable (init t0) = true) by reflexivity.
  destruct (run_sent es (init t0) s _ Hst Hrun Hin)
    as [[]|(es1 & e & es2 & s0 & s1 & -> & Hr1 & Hs & Hp)].
  unfold sentFrom in Hp. cbn [snd fst] in Hp. destruct Hp as (Hh & Htm & Hc & pr & Hlast).
  exists es1, e, es2, s0, s1. repeat (split; [assumption || reflexivity|]).
  split; [|split; [exact Htm|split; [exact Hc|exists pr; exact Hlast]]].
  rewrite Hh. apply sliceLast_suffix.
Qed.

Lemma X9_witness :
  0 < 1000000 /\ run (init 1000000) demoStart = Some demoState /\
  In (1001500, FetchJudge 1 demoSpeech [] (1500 # 1000)) (trace demoState) /\
  (8 <= wordCount demoSpeech)%nat.
Proof.
  assert (H1 : 0 < 1000000) by lia.
  assert (H2 : run (init 1000000) demoStart = Some demoState) by (vm_compute; reflexivity).
  assert (Hin : In (1001500, FetchJudge 1 demoSpeech [] (1500 # 1000)) (trace demoState))
    by (vm_compute; left; reflexivity).
  split; [exact H1|]. split; [exact H2|]. split; [exact Hin|].
  exact (proj1 (X9_judge_requests _ _ _ _ _ _ _ _ H1 H2 Hin)).
Defined.

(** ** The judge-speech route *)

Import Route.

Lemma toLowerCase_app a b : toLowerCase (a ++ b) = toLowerCase a ++ toLowerCase b.
Proof.
  induction a as [|c a IH]; [reflexivity|].
  change (String (lowerChar c) (toLowerCase (a ++ b)) =
          String (lowerChar c) (toLowerCase a ++ toLowerCase b)).
  rewrite IH. reflexivity.
Qed.

Lemma prefix_app p s : String.prefix p (p ++ s) = true.
Proof.
  induction p as [|c p IH]; cbn; [destruct s; reflexivity|].
  destruct (ascii_dec c c); [exact IH|contradiction].
Qed.

Lemma string_app_assoc (a b c : string) : (a ++ b) ++ c = a ++ (b ++ c).
Proof. induction a as [|x a IH]; cbn; [reflexivity|]. rewrite IH. reflexivity. Qed.

Lemma prefixed_starts m :
  startsWith (toLowerCase (PREFIX ++ m)) "sorry to interrupt" = true.
Proof.
  unfold startsWith. rewrite toLowerCase_app.
  change (toLowerCase PREFIX) with ("sorry to interrupt" ++ ", but ").
  rewrite string_app_assoc. apply prefix_app.
Qed.

Lemma respond_prefix result st reason m stats :
  respond result st =
    Ok {| status := 200; body := B_verdict true reason (Some (JStr m)) stats |} ->
  truthy m = true ->
  startsWith (toLowerCase m) "sorry to interrupt" = true.
Proof.
  unfold respond.
  destruct (getProp result "message") as [fm|]; [|discriminate].
  destruct (getProp result "interrupt") as [i|]; [|discriminate].
  destruct (getProp result "reason") as [r|]; [|discriminate].
  assert (Hi : i = Some (JBool true) \/
               (match i with Some (JBool true) => true | _ => false end) = false).
  { destruct i as [[| [|] | | | |]|]; auto. }
  destruct Hi as [->|Hi].
  - cbn [truthyValue andb]. destruct (truthyValue fm) eqn:Et.
    + destruct fm as [[| | |m0| |]|]; try discriminate.
      intros H Hm. injection H as _ Hx _. subst m.
      destruct (startsWith (toLowerCase m0) "sorry to interrupt") eqn:E; [exact E|].
      apply prefixed_starts.
    + intros H Hm. injection H as _ Hx _. subst fm. cbn in Et. congruence.
  - rewrite Hi.
    destruct (if truthyValue i && truthyValue fm then _ else _); intros H; discriminate H.
Qed.

(** Every response of [judgeTry] that carries a verdict was built by
    [respond]. *)
Lemma judgeTry_verdict JSON_parse request llm code i reason message stats :
  judgeTry JSON_parse request llm =
    Ok {| status := code; body := B_verdict i reason message stats |} ->
  exists result st,
    respond result st = Ok {| status := code; body := B_verdict i reason message stats |}.
Proof.
  unfold judgeTry. destruct request as [|b]; [discriminate|].
  destruct (getProp b "speech") as [sp|]; [|discriminate].
  destruct (getProp b "conversationHistory") as [h|]; [|discriminate].
  destruct (getProp b "speakingTime") as [t|]; [|discriminate].
  destruct sp as [[| | |sp| |]|]; try discriminate.
  destruct (negb (truthy sp)); [discriminate|].
  destruct (negb (historyOk h)); [discriminate|].
  destruct (negb (speakingTimeOk t)); [discriminate|].
  destruct llm as [|c]; [discriminate|].
  intros H. eexists _, _. exact H.
Qed.

(** C9 (amended): a 200 response of judge-speech with [interrupt = true]
    and a non-empty string message has a message that starts with "sorry to
    interrupt" once lower-cased; when the parsed message lacks that opening
    (compared without regard to case), the response carries "Sorry to
    interrupt, but " followed by it. *)
Theorem C9_interrupt_message_prefix JSON_parse key request llm reason m stats :
  judgeSpeech JSON_parse key request llm =
    {| status := 200; body := B_verdict true reason (Some (JStr m)) stats |} ->
  truthy m = true ->
  startsWith (toLowerCase m) "sorry to interrupt" = true /\
  (forall fields p st,
     lookup "interrupt" fields = Some (JBool true) ->
     lookup "message" fields = Some (JStr p) -> truthy p = true ->
     startsWith (toLowerCase p) "sorry to interrupt" = false ->
     exists r,
       respond (JObj fields) st =
       Ok {| status := 200; body := B_verdict true r (Some (JStr (PREFIX ++ p))) st |}).
Proof.
  intros H Hm. split.
  - unfold judgeSpeech in H. destruct (negb (truthyOpt key)); [discriminate|].
    destruct (judgeTry JSON_parse request llm) as [r|] eqn:E; [|discriminate].
    subst r. apply judgeTry_verdict in E. destruct E as (result & st & E).
    eapply respond_prefix; eassumption.
  - intros fields p st Hi Hp Ht Hs. unfold respond. cbn [getProp].
    rewrite Hi, Hp. cbn [truthyValue andb]. rewrite Ht, Hs. eexists. reflexivity.
Qed.

Lemma C9_witness :
  judgeSpeech (fun _ => Some lowerCaseVerdict) (Some "key") helloRequest
    (LLM_content (Some "{}")) =
    {| status := 200;
       body := B_verdict true (JStr "rambling")
                 (Some (JStr "sorry to interrupt, but what is your main point?"))
                 {| wordCount := 2; fillerCount_ := 0; speakingTime := JNum 0 |} |} /\
  truthy "sorry to interrupt, but what is your main point?" = true /\
  startsWith (toLowerCase "sorry to interrupt, but what is your main point?")
    "sorry to interrupt" = true.
Proof.
  assert (H1 : judgeSpeech (fun _ => Some lowerCaseVerdict) (Some "key") helloRequest
                 (LLM_content (Some "{}")) =
               {| status := 200;
                  body := B_verdict true (JStr "rambling")
                            (Some (JStr "sorry to interrupt, but what is your main point?"))
                            {| wordCount := 2; fillerCount_ := 0; speakingTime := JNum 0 |} |})
    by (vm_compute; reflexivity).
  assert (H2 : truthy "sorry to interrupt, but what is your main point?" = true)
    by reflexivity.
  split; [exact H1|]. split; [exact H2|].
  exact (proj1 (C9_interrupt_message_prefix _ _ _ _ _ _ _ H1 H2)).
Defined.

(** C9, as stated, fails: the test of line 158 ignores case, so a message
    that opens in lower case is returned as it is and does not start with
    "Sorry to interrupt"; and an empty message, which is not null, is
    returned as it is with [interrupt = true]. *)
Lemma C9_counterexample :
  respond lowerCaseVerdict noStats =
    Ok {| status := 200;
          body := B_verdict true (JStr "rambling")
                    (Some (JStr "sorry to interrupt, but what is your main point?"))
                    noStats |} /\
  startsWith "sorry to interrupt, but what is your main point?" "Sorry to interrupt"
    = false /\
  respond emptyVerdict noStats =
    Ok {| status := 200;
          body := B_verdict true (JStr "rambling") (Some (JStr EmptyString)) noStats |}.
Proof. vm_compute. repeat split. Qed.



(** ** Further properties of the route handlers *)


Lemma respond_status result stats r : respond result stats = Ok r -> status r = 200%nat.
Proof.
  unfold respond.
  destruct (getProp result "message"); [|discriminate].
  destruct (getProp result "interrupt"); [|discriminate].
  destruct (getProp result "reason"); [|discriminate].
  destruct (if _ && _ then _ else _); [|discriminate]. intros [= <-]. reflexivity.
Qed.

(** X14: judge-speech answers 400 exactly when the key is configured and
    the [speech] of the body is missing, empty or no string; in that case,
    and without the key, the answer is the same whatever the LLM would have
    replied. *)
Theorem X14_invalid_speech JSON_parse key request llm :
  (status (judgeSpeech JSON_parse key request llm) = 400%nat <->
   truthyOpt key = true /\ badSpeech request = true) /\
  (truthyOpt key = false \/ badSpeech request = true ->
   forall parse' llm',
     judgeSpeech JSON_parse key request llm = judgeSpeech parse' key request llm').
Proof.
  unfold judgeSpeech. destruct (truthyOpt key); cbn [negb].
  2:{ split; [split; [discriminate|intros [H _]; discriminate]|reflexivity]. }
  destruct (judgeTry JSON_parse request llm) as [r|] eqn:E.
  - unfold judgeTry, badSpeech in *. destruct request as [|b]; [discriminate|].
    destruct b as [| | | | |fields]; try discriminate E.
    all: cbn [getProp] in *.
    all: try (injection E as <-; split;
              [split; [intros _; split; reflexivity|reflexivity]
              |intros _ parse' llm'; reflexivity]).
    destruct (lookup "speech" fields) as [[| | |sp| |]|];
      try (injection E as <-; split;
           [split; [intros _; split; reflexivity|reflexivity]
           |intros _ parse' llm'; reflexivity]).
    destruct (truthy sp); cbn [negb] in *;
      [|injection E as <-; split;
        [split; [intros _; split; reflexivity|reflexivity]
        |intros _ parse' llm'; reflexivity]].
    destruct (negb (historyOk _)); [discriminate|].
    destruct (negb (speakingTimeOk _)); [discriminate|].
    destruct llm as [|c]; [discriminate|].
    apply respond_status in E. rewrite E.
    split; [split; [discriminate|intros [_ H]; discriminate]|].
    intros [H|H]; discriminate.
  - cbn [status]. split.
    + split; [discriminate|]. intros [_ Hb]. exfalso.
      unfold judgeTry, badSpeech in *. destruct request as [|b]; [discriminate|].
      destruct b as [| | | | |fields]; cbn [getProp] in *; try discriminate.
      destruct (lookup "speech" fields) as [[| | |sp| |]|]; try discriminate.
      destruct (truthy sp); discriminate.
    + intros [H|Hb]; [discriminate|]. exfalso.
      unfold judgeTry, badSpeech in *. destruct request as [|b]; [discriminate|].
      destruct b as [| | | | |fields]; cbn [getProp] in *; try discriminate.
      destruct (lookup "speech" fields) as [[| | |sp| |]|]; try discriminate.
      destruct (truthy sp); discriminate.
Qed.

(** X15: how judge-speech builds its answer from the parsed verdict (lines
    154-169).  Building fails, and the handler answers 500, exactly when the
    verdict is [null] or has a truthy [interrupt] with a truthy [message]
    that is no string.  Otherwise the answer is a 200 that carries: as
    [interrupt], true only for the boolean [true] of the verdict (a truthy
    value of another type gives [false]); as [reason], the verdict's reason
    when that is truthy and the empty string otherwise; as [message], the
    verdict's message, with "Sorry to interrupt, but " put before it when
    [interrupt] and [message] are truthy and the message does not start that
    way, and unchanged otherwise; and the stats computed from the
    request. *)
Theorem X15_verdict_normalised result stats :
  (respond result stats = Throw <->
   result = JNull \/
   exists i m, getProp result "interrupt" = Ok i /\ getProp result "message" = Ok m /\
               truthyValue i = true /\ truthyValue m = true /\ isString m = false) /\
  (forall r, respond result stats = Ok r ->
     status r = 200%nat /\
     exists vi vm vr i reason message,
       getProp result "interrupt" = Ok vi /\ getProp result "message" = Ok vm /\
       getProp result "reason" = Ok vr /\
       body r = B_verdict i reason message stats /\
       (i = true <-> vi = Some (JBool true)) /\
       (truthyValue vr = true -> vr = Some reason) /\
       (truthyValue vr = false -> reason = JStr EmptyString) /\
       (truthyValue vi && truthyValue vm = false -> message = vm) /\
       (truthyValue vi && truthyValue vm = true ->
        exists text, vm = Some (JStr text) /\
          message = Some (JStr (if startsWith (toLowerCase text) "sorry to interrupt"
                                then text else PREFIX ++ text))) /\
       (truthyValue (Some reason) = true \/ reason = JStr EmptyString) /\
       (vi = Some (JBool true) -> truthyValue message = true -> isString message = true)).
Proof.
  unfold respond. destruct result as [| b | q | s | items | fields]; cbn [getProp].
  1:{ split; [split; [intros _; left; reflexivity|reflexivity]|discriminate]. }
  1-4: (split;
        [split; [discriminate|intros [H|(i & m & [= <-] & _ & H & _)]; discriminate]
        |intros r [= <-]; split; [reflexivity|];
         exists None, None, None; eexists _, _, _;
         repeat (split; [reflexivity|]);
         split; [split; discriminate|];
         split; [discriminate|]; split; [reflexivity|]; split; [reflexivity|];
         split; [discriminate|]; split; [right; reflexivity|discriminate]]).
  set (i := lookup "interrupt" fields). set (m := lookup "message" fields).
  set (rs := lookup "reason" fields).
  assert (Hreason : forall rs : option JValue,
            (truthyValue rs = true ->
             rs = Some (match rs with
                        | Some r => if truthyValue rs then r else JStr EmptyString
                        | None => JStr EmptyString
                        end)) /\
            (truthyValue rs = false ->
             match rs with
             | Some r => if truthyValue rs then r else JStr EmptyString
             | None => JStr EmptyString
             end = JStr EmptyString) /\
            (truthyValue (Some match rs with
                               | Some r => if truthyValue rs then r else JStr EmptyString
                               | None => JStr EmptyString
                               end) = true \/
             match rs with
             | Some r => if truthyValue rs then r else JStr EmptyString
             | None => JStr EmptyString
             end = JStr EmptyString)).
  { intros [v|]; [|split; [discriminate|split; [reflexivity|right; reflexivity]]].
    destruct (truthyValue (Some v)) eqn:Ev.
    - split; [reflexivity|]. split; [discriminate|left; exact Ev].
    - split; [discriminate|]. split; [reflexivity|right; reflexivity]. }
  assert (Hflag : forall i : option JValue,
            (match i with Some (JBool true) => true | _ => false end) = true <->
            i = Some (JBool true)).
  { intros [[| [|] | | | |]|]; split; try discriminate; reflexivity. }
  destruct (Hreason rs) as (Hr1 & Hr2 & Hr3).
  destruct (truthyValue i && truthyValue m) eqn:E.
  - pose proof E as E'. apply andb_true_iff in E'. destruct E' as [Ei Em].
    destruct m as [[| | |sm| |]|] eqn:Hm; try discriminate Em.
    all: split;
      [split;
       [try discriminate; intros _; right; exists i; eexists; repeat split;
        try reflexivity; assumption
       |try reflexivity;
        intros [H|(i' & m' & [= <-] & [= <-] & _ & _ & H)]; discriminate]
      |try discriminate].
    intros r [= <-]. split; [reflexivity|].
    exists i, (Some (JStr sm)), rs. eexists _, _, _.
    repeat (split; [reflexivity|]).
    split; [apply Hflag|]. split; [exact Hr1|]. split; [exact Hr2|].
    split; [intros H; rewrite E in H; discriminate|].
    split; [intros _; exists sm; split; reflexivity|].
    split; [exact Hr3|reflexivity].
  - split.
    + split; [discriminate|].
      intros [H|(i' & m' & [= <-] & [= <-] & Hi & Hm & _)]; [discriminate|].
      fold i m in Hi, Hm. rewrite Hi, Hm in E. discriminate.
    + intros r [= <-]. split; [reflexivity|].
      exists i, m, rs. eexists _, _, _.
      repeat (split; [reflexivity|]).
      split; [apply Hflag|]. split; [exact Hr1|]. split; [exact Hr2|].
      split; [reflexivity|].
      split; [intros H; rewrite E in H; discriminate|].
      split; [exact Hr3|].
      intros Hi Hm. rewrite Hi, Hm in E. discriminate.
Qed.

(** ** Extracting the JSON text of the reply *)

Lemma includes_cons s c r kw :
  s = String c r -> includes s kw = String.prefix kw s || includes r kw.
Proof. intros ->. reflexivity. Qed.

Lemma includes_char d c r :
  includes (String d r) (String c EmptyString) =
  Ascii.eqb d c || includes r (String c EmptyString).
Proof.
  rewrite (includes_cons _ d r _ eq_refl). cbn [String.prefix].
  destruct (ascii_dec c d) as [->|Hne].
  - rewrite Ascii.eqb_refl. destruct r; reflexivity.
  - assert (E : Ascii.eqb d c = false) by (apply Ascii.eqb_neq; congruence).
    rewrite E. reflexivity.
Qed.

Lemma includes_char_nil c : includes EmptyString (String c EmptyString) = false.
Proof. reflexivity. Qed.

Lemma fromFirstOpen_spec s r :
  fromFirstOpen s = Some r <->
  exists pre, s = pre ++ String "{" r /\ includes pre "{" = false.
Proof.
  revert r. induction s as [|d s IH]; intros r; cbn [fromFirstOpen].
  - split; [discriminate|]. intros (pre & H & _). destruct pre; discriminate.
  - destruct (Ascii.eqb_spec d "{") as [->|Hne].
    + split.
      * intros [= <-]. exists EmptyString. split; reflexivity.
      * intros ([|x pre] & H & Hp).
        -- cbn in H. injection H as <-. reflexivity.
        -- cbn in H. injection H as <- _. rewrite includes_char in Hp. discriminate.
    + rewrite IH. split.
      * intros (pre & -> & Hp). exists (String d pre). split; [reflexivity|].
        rewrite includes_char, Hp. apply Ascii.eqb_neq in Hne. rewrite Hne. reflexivity.
      * intros ([|x pre] & H & Hp); cbn in H.
        -- injection H as -> _. contradiction.
        -- injection H as <- ->. exists pre. split; [reflexivity|].
           rewrite includes_char in Hp. apply orb_false_iff in Hp. tauto.
Qed.

Lemma upToLastClose_None s : upToLastClose s = None <-> includes s "}" = false.
Proof.
  induction s as [|d s IH]; cbn [upToLastClose]; [split; reflexivity|].
  rewrite includes_char. destruct (upToLastClose s) as [t|].
  - split; [discriminate|]. intros H. apply orb_false_iff in H. destruct H as [_ H].
    apply IH in H. discriminate.
  - destruct (Ascii.eqb d "}"); cbn [orb]; [split; discriminate|].
    split; [intros _; apply IH; reflexivity|reflexivity].
Qed.

Lemma upToLastClose_spec s t :
  upToLastClose s = Some t <->
  exists mid post, s = mid ++ String "}" post /\ t = mid ++ "}" /\ includes post "}" = false.
Proof.
  revert t. induction s as [|d s IH]; intros t; cbn [upToLastClose].
  - split; [discriminate|]. intros (mid & post & H & _). destruct mid; discriminate.
  - destruct (upToLastClose s) as [u|] eqn:E.
    + split.
      * intros [= <-]. destruct (proj1 (IH u) eq_refl) as (mid & post & -> & -> & Hp).
        exists (String d mid), post. repeat split. exact Hp.
      * intros ([|x mid] & post & H & -> & Hp); cbn in H.
        -- injection H as <- <-. apply upToLastClose_None in Hp. congruence.
        -- injection H as <- ->.
           assert (Hu : Some u = Some (mid ++ "}"))
             by (apply IH; exists mid, post; repeat split; exact Hp).
           injection Hu as ->. reflexivity.
    + apply upToLastClose_None in E. destruct (Ascii.eqb_spec d "}") as [->|Hne].
      * split.
        -- intros [= <-]. exists EmptyString, s. repeat split. exact E.
        -- intros ([|x mid] & post & H & -> & Hp); cbn in H.
           ++ reflexivity.
           ++ injection H as <- ->. exfalso.
              assert (Hc : None = Some (mid ++ "}"))
                by (apply IH; exists mid, post; repeat split; exact Hp).
              discriminate Hc.
      * split; [discriminate|].
        intros ([|x mid] & post & H & -> & Hp); cbn in H.
        -- injection H as -> _. contradiction.
        -- injection H as <- ->. exfalso.
           assert (Hc : None = Some (mid ++ "}"))
             by (apply IH; exists mid, post; repeat split; exact Hp).
           discriminate Hc.
Qed.

(** X16: the text handed to [JSON.parse] runs from the first opening brace
    of the reply to its last closing brace after that: [matchBraces] finds
    a text exactly when the reply reads [pre { mid } post] with no opening
    brace in [pre] and no closing brace in [post], and the text is
    [{ mid }]; it finds none exactly when no closing brace follows the
    first opening brace. *)
Theorem X16_matchBraces content :
  (forall m,
     matchBraces content = Some m <->
     exists pre mid post,
       content = pre ++ "{" ++ mid ++ "}" ++ post /\ m = "{" ++ mid ++ "}" /\
       includes pre "{" = false /\ includes post "}" = false) /\
  (matchBraces content = None <->
   forall pre rest, content = pre ++ "{" ++ rest -> includes pre "{" = false ->
                    includes rest "}" = false).
Proof.
  unfold matchBraces. split.
  - intros m. split.
    + destruct (fromFirstOpen content) as [rest|] eqn:E1; [|discriminate].
      destruct (upToLastClose rest) as [t|] eqn:E2; [|discriminate]. intros [= <-].
      apply fromFirstOpen_spec in E1. destruct E1 as (pre & -> & Hp).
      apply upToLastClose_spec in E2. destruct E2 as (mid & post & -> & -> & Hq).
      exists pre, mid, post. repeat split; assumption.
    + intros (pre & mid & post & -> & -> & Hp & Hq).
      assert (E1 : fromFirstOpen (pre ++ "{" ++ mid ++ "}" ++ post)
                   = Some (mid ++ String "}" post))
        by (apply fromFirstOpen_spec; exists pre; split; [reflexivity|exact Hp]).
      rewrite E1.
      assert (E2 : upToLastClose (mid ++ String "}" post) = Some (mid ++ "}"))
        by (apply upToLastClose_spec; exists mid, post; repeat split; exact Hq).
      rewrite E2. reflexivity.
  - destruct (fromFirstOpen content) as [rest|] eqn:E1.
    + apply fromFirstOpen_spec in E1. destruct E1 as (pre & -> & Hp).
      destruct (upToLastClose rest) as [t|] eqn:E2.
      * split; [discriminate|]. intros H. specialize (H pre rest eq_refl Hp).
        apply upToLastClose_None in H. congruence.
      * split; [|reflexivity]. intros _ pre' rest' Heq Hp'.
        assert (E3 : fromFirstOpen (pre ++ String "{" rest) = Some rest')
          by (apply fromFirstOpen_spec; exists pre'; split; assumption).
        assert (E4 : fromFirstOpen (pre ++ String "{" rest) = Some rest)
          by (apply fromFirstOpen_spec; exists pre; split; [reflexivity|assumption]).
        rewrite E4 in E3. injection E3 as <-. apply upToLastClose_None. exact E2.
    + split; [|reflexivity]. intros _ pre rest Heq Hp. exfalso.
      assert (E3 : fromFirstOpen content = Some rest)
        by (apply fromFirstOpen_spec; exists pre; split; assumption).
      congruence.
Qed.

(** ** Counting filler words *)

Lemma prefix_length p s : String.prefix p s = true -> (String.length p <= String.length s)%nat.
Proof.
  revert s. induction p as [|c p IH]; intros s; [cbn; lia|].
  destruct s as [|d s]; cbn [String.prefix String.length]; [discriminate|].
  destruct (ascii_dec c d); [|discriminate].
  intros H. apply IH in H. lia.
Qed.

Lemma countFrom_bound filler s : forall skip,
  (skip <= String.length s)%nat ->
  (countFrom filler skip s * String.length filler + skip <= String.length s)%nat.
Proof.
  induction s as [|c r IH]; intros skip Hs; cbn [countFrom String.length] in *;
    [cbn; lia|].
  destruct skip as [|k].
  - destruct (String.prefix filler (String c r)) eqn:E.
    + apply prefix_length in E. cbn [String.length] in E.
      destruct (String.length filler) as [|n] eqn:En.
      * specialize (IH 0%nat ltac:(lia)). cbn in *. lia.
      * specialize (IH (S n - 1)%nat ltac:(lia)). cbn [Nat.mul] in *. nia.
    + specialize (IH 0%nat ltac:(lia)). lia.
  - specialize (IH k ltac:(lia)). lia.
Qed.

Lemma toLowerCase_length s : String.length (toLowerCase s) = String.length s.
Proof.
  induction s as [|c s IH]; [reflexivity|].
  change (toLowerCase (String c s)) with (String (lowerChar c) (toLowerCase s)).
  cbn [String.length]. rewrite IH. reflexivity.
Qed.

Lemma lowerChar_idem c : lowerChar (lowerChar c) = lowerChar c.
Proof.
  destruct c as [[] [] [] [] [] [] [] []]; vm_compute; reflexivity.
Qed.

Lemma toLowerCase_idem s : toLowerCase (toLowerCase s) = toLowerCase s.
Proof.
  induction s as [|c s IH]; [reflexivity|].
  change (toLowerCase (String c s)) with (String (lowerChar c) (toLowerCase s)).
  change (toLowerCase (String (lowerChar c) (toLowerCase s)))
    with (String (lowerChar (lowerChar c)) (toLowerCase (toLowerCase s))).
  rewrite lowerChar_idem, IH. reflexivity.
Qed.

(** X17: the filler count of the stats.  Occurrences of a filler are looked
    for in the lower-cased speech, so the count does not depend on the case
    of the speech; the occurrences counted for one filler do not overlap,
    so their number times the length of the filler is at most the length of
    the speech. *)
Theorem X17_filler_count speech :
  fillerCount (toLowerCase speech) = fillerCount speech /\
  forall filler,
    (countFrom filler 0 (toLowerCase speech) * String.length filler <=
     String.length speech)%nat.
Proof.
  split.
  - unfold fillerCount. rewrite toLowerCase_idem. reflexivity.
  - intros filler.
    pose proof (countFrom_bound filler (toLowerCase speech) 0%nat ltac:(lia)) as H.
    rewrite toLowerCase_length in H. lia.
Qed.
